(** * The layer-rotation engine of the-cube (src/cube.ts)

    A shallow embedding of [RubiksCube] and of the helpers of cube.ts.

    Numbers.  A JavaScript number is modelled by [JS.number]: a real number,
    one of the two infinities, or NaN.  Arithmetic on finite values is the
    exact arithmetic of the reals (rounding is abstracted away, which is what
    the statements "within floating-point tolerance" of the specification
    ask for), and the special values follow IEEE 754 as JavaScript exposes
    it: [x / 0] is an infinity for [x <> 0], [0 / 0] is NaN, NaN is absorbing
    and every comparison with NaN is false.  The sign of zero is not
    modelled.

    Objects.  The children of the cube are a store (a list) and a reference
    to a child is its index in the store; the methods of the class are state
    transformers over the record [Cube.RubiksCube]; a [throw] is the [Throw]
    outcome of the [result] type. *)

From Stdlib Require Import Reals Lra Lia ZArith List Permutation String.
From stdpp Require Import base list.

Open Scope R_scope.

(** ** JavaScript numbers *)
Module JS.

Inductive number : Type :=
| NaN
| NegInfinity
| Finite (r : R)
| Infinity.

Definition zero : number := Finite 0.
Definition one : number := Finite 1.

(** [Math.PI] *)
Definition Math_PI : number := Finite PI.

(** unary minus *)
Definition neg (a : number) : number :=
  match a with
  | NaN => NaN
  | NegInfinity => Infinity
  | Finite x => Finite (- x)
  | Infinity => NegInfinity
  end.

(** [a + b] *)
Definition add (a b : number) : number :=
  match a, b with
  | Finite x, Finite y => Finite (x + y)
  | NaN, _ | _, NaN => NaN
  | Infinity, NegInfinity | NegInfinity, Infinity => NaN
  | Infinity, _ | _, Infinity => Infinity
  | NegInfinity, _ | _, NegInfinity => NegInfinity
  end.

(** [a - b] *)
Definition sub (a b : number) : number := add a (neg b).

(** the infinity that has the sign of the real [x], NaN for [x = 0] *)
Definition inf_of_sign (x : R) : number :=
  if Req_dec_T x 0 then NaN
  else if Rlt_dec 0 x then Infinity else NegInfinity.

(** [a * b] *)
Definition mul (a b : number) : number :=
  match a, b with
  | Finite x, Finite y => Finite (x * y)
  | NaN, _ | _, NaN => NaN
  | Finite x, Infinity | Infinity, Finite x => inf_of_sign x
  | Finite x, NegInfinity | NegInfinity, Finite x => inf_of_sign (- x)
  | Infinity, Infinity | NegInfinity, NegInfinity => Infinity
  | Infinity, NegInfinity | NegInfinity, Infinity => NegInfinity
  end.

(** [a / b]; a zero divisor is the positive zero *)
Definition div (a b : number) : number :=
  match a, b with
  | Finite x, Finite y =>
      if Req_dec_T y 0 then inf_of_sign x else Finite (x / y)
  | NaN, _ | _, NaN => NaN
  | Finite _, _ => Finite 0
  | Infinity, Finite y => if Rlt_dec y 0 then NegInfinity else Infinity
  | NegInfinity, Finite y => if Rlt_dec y 0 then Infinity else NegInfinity
  | _, _ => NaN
  end.

(** [a < b] *)
Definition ltb (a b : number) : bool :=
  match a, b with
  | Finite x, Finite y => if Rlt_dec x y then true else false
  | NaN, _ | _, NaN => false
  | NegInfinity, NegInfinity => false
  | NegInfinity, _ => true
  | Finite _, Infinity => true
  | _, _ => false
  end.

(** [a === b] on numbers *)
Definition eqb (a b : number) : bool :=
  match a, b with
  | Finite x, Finite y => if Req_dec_T x y then true else false
  | Infinity, Infinity | NegInfinity, NegInfinity => true
  | _, _ => false
  end.

Definition gtb (a b : number) : bool := ltb b a.
Definition leb (a b : number) : bool := ltb a b || eqb a b.
Definition geb (a b : number) : bool := leb b a.

(** [Math.min(a, b)] and [Math.max(a, b)]: NaN as soon as one argument is *)
Definition Math_min (a b : number) : number :=
  match a, b with
  | Finite x, Finite y => Finite (Rmin x y)
  | NaN, _ | _, NaN => NaN
  | NegInfinity, _ | _, NegInfinity => NegInfinity
  | Infinity, y => y
  | x, Infinity => x
  end.

Definition Math_max (a b : number) : number :=
  match a, b with
  | Finite x, Finite y => Finite (Rmax x y)
  | NaN, _ | _, NaN => NaN
  | Infinity, _ | _, Infinity => Infinity
  | NegInfinity, y => y
  | x, NegInfinity => x
  end.

(** [Math.abs], [Math.cos], [Math.sin] *)
Definition Math_abs (a : number) : number :=
  match a with
  | NaN => NaN
  | Finite x => Finite (Rabs x)
  | _ => Infinity
  end.

Definition Math_cos (a : number) : number :=
  match a with Finite x => Finite (cos x) | _ => NaN end.

Definition Math_sin (a : number) : number :=
  match a with Finite x => Finite (sin x) | _ => NaN end.

(** [Math.pow(a, 3)] *)
Definition Math_pow3 (a : number) : number :=
  match a with Finite x => Finite (x * x * x) | other => other end.

(** the truthiness of a number: [0] and NaN are falsy *)
Definition truthy (a : number) : bool :=
  match a with
  | NaN => false
  | Finite x => if Req_dec_T x 0 then false else true
  | _ => true
  end.

Definition is_finite (a : number) : Prop := exists x, a = Finite x.

End JS.

Declare Scope js_scope.
Delimit Scope js_scope with js.
Bind Scope js_scope with JS.number.
Infix "+" := JS.add : js_scope.
Infix "-" := JS.sub : js_scope.
Infix "*" := JS.mul : js_scope.
Infix "/" := JS.div : js_scope.
Notation "- a" := (JS.neg a) : js_scope.
Infix "<?" := JS.ltb : js_scope.
Infix ">?" := JS.gtb : js_scope.
Infix "<=?" := JS.leb : js_scope.
Infix ">=?" := JS.geb : js_scope.
Infix "=?" := JS.eqb : js_scope.
Coercion JS.Finite : R >-> JS.number.

(** ** The part of three.js the cube relies on *)
Module Three.
Import JS.
Local Open Scope js_scope.

(** [THREE.Vector3] *)
Record Vector3 : Type := vec3 { vx : number; vy : number; vz : number }.

Definition Vector3_new : Vector3 := vec3 zero zero zero.

Definition Vector3_add (a b : Vector3) : Vector3 :=
  vec3 (vx a + vx b) (vy a + vy b) (vz a + vz b).

Definition Vector3_sub (a b : Vector3) : Vector3 :=
  vec3 (vx a - vx b) (vy a - vy b) (vz a - vz b).

Definition Vector3_multiplyScalar (a : Vector3) (s : number) : Vector3 :=
  vec3 (vx a * s) (vy a * s) (vz a * s).

Definition Vector3_min (a b : Vector3) : Vector3 :=
  vec3 (Math_min (vx a) (vx b)) (Math_min (vy a) (vy b))
       (Math_min (vz a) (vz b)).

Definition Vector3_max (a b : Vector3) : Vector3 :=
  vec3 (Math_max (vx a) (vx b)) (Math_max (vy a) (vy b))
       (Math_max (vz a) (vz b)).

(** The upper-left 3x3 block of a [THREE.Matrix4], row by row.  The
    matrices built by [makeRotationAxis] have a zero translation and the
    last row [0 0 0 1]; the products below leave out the terms those exact
    zeros and that exact one contribute. *)
Record Matrix : Type := mat3 {
  m11 : number; m12 : number; m13 : number;
  m21 : number; m22 : number; m23 : number;
  m31 : number; m32 : number; m33 : number }.

Definition Matrix_identity : Matrix :=
  mat3 one zero zero zero one zero zero zero one.

(** [new THREE.Matrix4().makeRotationAxis(axis, angle)] *)
Definition makeRotationAxis (axis : Vector3) (angle : number) : Matrix :=
  let c := Math_cos angle in
  let s := Math_sin angle in
  let t := one - c in
  let x := vx axis in
  let y := vy axis in
  let z := vz axis in
  let tx := t * x in
  let ty := t * y in
  mat3 (tx * x + c) (tx * y - s * z) (tx * z + s * y)
       (tx * y + s * z) (ty * y + c) (ty * z - s * x)
       (tx * z - s * y) (ty * z + s * x) (t * z * z + c).

(** the linear part of [a.multiply(b)] *)
Definition Matrix_multiply (a b : Matrix) : Matrix :=
  mat3 (m11 a * m11 b + m12 a * m21 b + m13 a * m31 b)
       (m11 a * m12 b + m12 a * m22 b + m13 a * m32 b)
       (m11 a * m13 b + m12 a * m23 b + m13 a * m33 b)
       (m21 a * m11 b + m22 a * m21 b + m23 a * m31 b)
       (m21 a * m12 b + m22 a * m22 b + m23 a * m32 b)
       (m21 a * m13 b + m22 a * m23 b + m23 a * m33 b)
       (m31 a * m11 b + m32 a * m21 b + m33 a * m31 b)
       (m31 a * m12 b + m32 a * m22 b + m33 a * m32 b)
       (m31 a * m13 b + m32 a * m23 b + m33 a * m33 b).

(** the matrix applied to a direction: [m * v] *)
Definition Matrix_apply (m : Matrix) (v : Vector3) : Vector3 :=
  vec3 (m11 m * vx v + m12 m * vy v + m13 m * vz v)
       (m21 m * vx v + m22 m * vy v + m23 m * vz v)
       (m31 m * vx v + m32 m * vy v + m33 m * vz v).

(** [THREE.Object3D], as far as the cube reads and writes it: the position,
    and the quaternion and scale taken together as the linear part of the
    local matrix that [updateMatrix] composes from them.  The cube itself
    is never moved, so the world matrix of a child is its local matrix. *)
Record Object3D : Type := object3D {
  position : Vector3;
  orientation : Matrix }.

(** [object.applyMatrix4(m)]: [updateMatrix], [matrix.premultiply(m)], then
    [matrix.decompose(position, quaternion, scale)] *)
Definition applyMatrix4 (m : Matrix) (o : Object3D) : Object3D :=
  object3D (Matrix_apply m (position o)) (Matrix_multiply m (orientation o)).

(** [THREE.Box3] *)
Record Box3 : Type := box3 { bmin : Vector3; bmax : Vector3 }.

(** [new THREE.Box3()]: the empty box *)
Definition Box3_new : Box3 :=
  box3 (vec3 Infinity Infinity Infinity)
       (vec3 NegInfinity NegInfinity NegInfinity).

Definition Box3_isEmpty (b : Box3) : bool :=
  (vx (bmax b) <? vx (bmin b)) || (vy (bmax b) <? vy (bmin b))
  || (vz (bmax b) <? vz (bmin b)).

Definition Box3_expandByPoint (b : Box3) (p : Vector3) : Box3 :=
  box3 (Vector3_min (bmin b) p) (Vector3_max (bmax b) p).

Definition Box3_setFromPoints (ps : list Vector3) : Box3 :=
  foldl Box3_expandByPoint Box3_new ps.

Definition Box3_union (a b : Box3) : Box3 :=
  box3 (Vector3_min (bmin a) (bmin b)) (Vector3_max (bmax a) (bmax b)).

(** [point.applyMatrix4(object.matrixWorld)] *)
Definition toWorld (o : Object3D) (p : Vector3) : Vector3 :=
  Vector3_add (Matrix_apply (orientation o) p) (position o).

(** [box.applyMatrix4(object.matrixWorld)]: the box of the eight corners,
    transformed, in the order three.js enumerates them *)
Definition Box3_applyMatrix4 (b : Box3) (o : Object3D) : Box3 :=
  if Box3_isEmpty b then b
  else
    let lo := bmin b in
    let hi := bmax b in
    Box3_setFromPoints
      (map (toWorld o)
         [ vec3 (vx lo) (vy lo) (vz lo); vec3 (vx lo) (vy lo) (vz hi);
           vec3 (vx lo) (vy hi) (vz lo); vec3 (vx lo) (vy hi) (vz hi);
           vec3 (vx hi) (vy lo) (vz lo); vec3 (vx hi) (vy lo) (vz hi);
           vec3 (vx hi) (vy hi) (vz lo); vec3 (vx hi) (vy hi) (vz hi) ]).

(** [box.expandByObject(object)] for a mesh without children whose geometry
    has the bounding box [geometryBox] *)
Definition Box3_expandByObject (geometryBox : Box3) (b : Box3) (o : Object3D)
  : Box3 :=
  Box3_union b (Box3_applyMatrix4 geometryBox o).

(** [box.getCenter(new THREE.Vector3())] *)
Definition Box3_getCenter (b : Box3) : Vector3 :=
  if Box3_isEmpty b then vec3 zero zero zero
  else Vector3_multiplyScalar (Vector3_add (bmin b) (bmax b)) (Finite (1 / 2)).

End Three.

(** ** cube.ts *)
Module Cube.
Import JS Three.
Local Open Scope js_scope.

(** ['x' | 'y' | 'z'], [0 | 1 | 2] and ['clockwise' | 'counterclockwise'] *)
Inductive Axis : Type := X | Y | Z.
Inductive section : Type := Sec0 | Sec1 | Sec2.
Inductive Direction : Type := clockwise | counterclockwise.

Definition Axis_eqb (a b : Axis) : bool :=
  match a, b with X, X | Y, Y | Z, Z => true | _, _ => false end.

(** [a === b] on values of type ['x' | 'y' | 'z' | null] *)
Definition face_eqb (a b : option Axis) : bool :=
  match a, b with
  | None, None => true
  | Some a, Some b => Axis_eqb a b
  | _, _ => false
  end.

(** [v[axis]] *)
Definition component (v : Vector3) (axis : Axis) : number :=
  match axis with X => vx v | Y => vy v | Z => vz v end.

(** [THREE.Intersection]: the hit point, and the normal, which may be
    absent *)
Record Intersection : Type := intersection {
  point : Vector3;
  normal : option Vector3 }.

(** [MouseEvent]: [clientX] and [clientY] are finite by their Web IDL type *)
Record MouseEvent : Type := mouseEvent { clientX : R; clientY : R }.

(** [window.innerWidth] and [window.innerHeight] *)
Record Window : Type := window { innerWidth : number; innerHeight : number }.

Record DragStart : Type := dragStartAt {
  start_x : option number;
  start_y : option number }.

(** The fields of [RubiksCube] the rotation logic reads and writes.
    [children] holds the 27 pieces in the order [initCube] adds them; the
    pivot object that [createPivot] adds and [rotateCubesAroundPivot]
    removes again is passed around as its position. *)
Record RubiksCube : Type := rubiksCube {
  children : list Object3D;
  isDragging : bool;
  dragStart : DragStart;
  initialIntersect : option Intersection;
  selectedFace : option Axis;
  rotationAxis : option Axis;
  rotationSection : option section;
  rotationAngle : option number;
  isRotating : bool }.

Definition set_children (v : list Object3D) (c : RubiksCube) : RubiksCube :=
  rubiksCube v (isDragging c) (dragStart c) (initialIntersect c)
    (selectedFace c) (rotationAxis c) (rotationSection c) (rotationAngle c)
    (isRotating c).
Definition set_isDragging (v : bool) (c : RubiksCube) : RubiksCube :=
  rubiksCube (children c) v (dragStart c) (initialIntersect c)
    (selectedFace c) (rotationAxis c) (rotationSection c) (rotationAngle c)
    (isRotating c).
Definition set_dragStart (v : DragStart) (c : RubiksCube) : RubiksCube :=
  rubiksCube (children c) (isDragging c) v (initialIntersect c)
    (selectedFace c) (rotationAxis c) (rotationSection c) (rotationAngle c)
    (isRotating c).
Definition set_initialIntersect (v : option Intersection) (c : RubiksCube)
  : RubiksCube :=
  rubiksCube (children c) (isDragging c) (dragStart c) v
    (selectedFace c) (rotationAxis c) (rotationSection c) (rotationAngle c)
    (isRotating c).
Definition set_selectedFace (v : option Axis) (c : RubiksCube) : RubiksCube :=
  rubiksCube (children c) (isDragging c) (dragStart c) (initialIntersect c)
    v (rotationAxis c) (rotationSection c) (rotationAngle c) (isRotating c).
Definition set_rotationAxis (v : option Axis) (c : RubiksCube) : RubiksCube :=
  rubiksCube (children c) (isDragging c) (dragStart c) (initialIntersect c)
    (selectedFace c) v (rotationSection c) (rotationAngle c) (isRotating c).
Definition set_rotationSection (v : option section) (c : RubiksCube)
  : RubiksCube :=
  rubiksCube (children c) (isDragging c) (dragStart c) (initialIntersect c)
    (selectedFace c) (rotationAxis c) v (rotationAngle c) (isRotating c).
Definition set_rotationAngle (v : option number) (c : RubiksCube)
  : RubiksCube :=
  rubiksCube (children c) (isDragging c) (dragStart c) (initialIntersect c)
    (selectedFace c) (rotationAxis c) (rotationSection c) v (isRotating c).
Definition set_isRotating (v : bool) (c : RubiksCube) : RubiksCube :=
  rubiksCube (children c) (isDragging c) (dragStart c) (initialIntersect c)
    (selectedFace c) (rotationAxis c) (rotationSection c) (rotationAngle c) v.

(** The errors cube.ts throws from the rotation logic, with their
    messages, and the outcome of a method that may throw *)
Inductive Error : Type :=
| RotationAngleNotSet
| SameFaceAndAxis (selectedFace rotationAxis : option Axis)
| UnableToDetermineAngle.

(** [`${face}`] *)
Definition faceName (face : option Axis) : string :=
  match face with
  | Some X => "x"
  | Some Y => "y"
  | Some Z => "z"
  | None => "null"
  end.

Definition message (e : Error) : string :=
  match e with
  | RotationAngleNotSet =>
      "Rotation cannot be set without rotation angle being set."
  | SameFaceAndAxis selectedFace rotationAxis =>
      "The selected face and rotation axis should not be the same. Both were "
      ++ faceName selectedFace ++ " [" ++ faceName selectedFace ++ ", "
      ++ faceName rotationAxis ++ "]."
  | UnableToDetermineAngle =>
      "Unable to determine angle. Please check the selected face and rotation axis to make sure they are a valid combination of x, y, and z."
  end.

Inductive result (A : Type) : Type :=
| Return (a : A)
| Throw (e : Error).
Arguments Return {A} a.
Arguments Throw {A} e.

Definition bind {A B : Type} (r : result A) (k : A -> result B) : result B :=
  match r with Return a => k a | Throw e => Throw e end.

Notation "'let*' x ':=' r 'in' k" := (bind r (fun x => k))
  (at level 10, x name, r at level 100, k at level 200).

(** [RubiksPiece.size], and the bounding box of the geometry of a piece: the
    border box of side [size], centred on the origin of the piece *)
Definition size : number := Finite 1.

Definition pieceGeometryBox : Box3 :=
  box3 (vec3 (- (size / Finite 2)) (- (size / Finite 2)) (- (size / Finite 2)))
       (vec3 (size / Finite 2) (size / Finite 2) (size / Finite 2)).

(** [new RubiksPiece(...)] placed by [piece.position.set(x, y, z)] *)
Definition RubiksPiece_at (x y z : number) : Object3D :=
  object3D (vec3 x y z) Matrix_identity.

(** the three nested loops of [initCube] *)
Definition range3 : list number := [Finite (-1); Finite 0; Finite 1].

Definition initCube : list Object3D :=
  x ← range3; y ← range3; z ← range3;
  [RubiksPiece_at (x * size) (y * size) (z * size)].

(** the state the constructor leaves *)
Definition RubiksCube_new : RubiksCube :=
  rubiksCube initCube false (dragStartAt None None) None None None None None
    false.

(** *** Layers *)

Definition getSection (position : number) : section :=
  if position <? Finite (-0.5) then Sec0
  else if position >? Finite 0.5 then Sec2
  else Sec1.

Definition isInSection (position : Vector3) (axis : Axis) (sec : section)
  : bool :=
  let value := component position axis in
  match sec with
  | Sec0 => value <? Finite (-0.5)
  | Sec1 => (value >=? Finite (-0.5)) && (value <=? Finite 0.5)
  | Sec2 => value >? Finite 0.5
  end.

(** [children.forEach] from the child of index [i] on, pushing a reference
    to every child that is in the section *)
Fixpoint pushSectionCubes (cs : list Object3D) (i : nat) (axis : Axis)
    (sec : section) : list nat :=
  match cs with
  | [] => []
  | child :: rest =>
      if isInSection (position child) axis sec
      then i :: pushSectionCubes rest (S i) axis sec
      else pushSectionCubes rest (S i) axis sec
  end.

(** references (indices in [children]) to the pieces of the layer *)
Definition getSectionCubes (this : RubiksCube) (axis : Axis) (sec : section)
  : list nat :=
  pushSectionCubes (children this) 0 axis sec.

(** [boundingBox.expandByObject(cube)] for every referenced piece *)
Definition expandByCubes (this : RubiksCube) (cubes : list nat) (b : Box3)
  : Box3 :=
  foldl (fun box i =>
           match children this !! i with
           | Some cube => Box3_expandByObject pieceGeometryBox box cube
           | None => box
           end) b cubes.

Definition calculateGroupCenter (this : RubiksCube) (cubes : list nat)
  : Vector3 :=
  Box3_getCenter (expandByCubes this cubes Box3_new).

(** the pivot is an [Object3D] of which only the position is read *)
Definition createPivot (center : Vector3) : Vector3 := center.

(** [rotationAxis[axis] = 1] on a fresh [THREE.Vector3] *)
Definition axisVector (axis : Axis) : Vector3 :=
  match axis with
  | X => vec3 one zero zero
  | Y => vec3 zero one zero
  | Z => vec3 zero zero one
  end.

(** the body of the [forEach] of [rotateCubesAroundPivot], on one piece *)
Definition rotateAroundPivot (pivot : Vector3) (axis : Axis) (angle : number)
    (cube : Object3D) : Object3D :=
  let cube1 := object3D (Vector3_sub (position cube) pivot) (orientation cube) in
  let cube2 := applyMatrix4 (makeRotationAxis (axisVector axis) angle) cube1 in
  object3D (Vector3_add (position cube2) pivot) (orientation cube2).

(** the referenced pieces are mutated in place, one after the other *)
Definition rotateCubesAroundPivot (pivot : Vector3) (cubes : list nat)
    (axis : Axis) (angle : number) (this : RubiksCube) : RubiksCube :=
  set_children
    (foldl (fun cs i => alter (rotateAroundPivot pivot axis angle) i cs)
       (children this) cubes)
    this.

Definition applyRotation (axis : Axis) (sec : section) (angle : number)
    (this : RubiksCube) : RubiksCube :=
  let cubes := getSectionCubes this axis sec in
  if Nat.eqb (length cubes) 0 then this
  else
    let center := calculateGroupCenter this cubes in
    let pivot := createPivot center in
    rotateCubesAroundPivot pivot cubes axis angle this.

(** [rotateEntireCube]: the pivot is the centre of the box of the whole
    cube, and every child is rotated.  (In the source the pivot has just
    been added to [children] and is rotated too, last and about itself.) *)
Definition rotateEntireCube (axis : Axis) (angle : number) (this : RubiksCube)
  : RubiksCube :=
  let all := seq 0 (length (children this)) in
  let center := Box3_getCenter (expandByCubes this all Box3_new) in
  rotateCubesAroundPivot center all axis angle this.

(** *** The two helpers at the end of the file *)

(** the [for] loop of [nearestClampDistance] over [clamps[1..]] *)
Fixpoint nearestClampLoop (angle : number) (rest : list number)
    (nearest minDistance : number) : number :=
  match rest with
  | [] => nearest
  | clamp :: rest' =>
      let distance := Math_abs (angle - clamp) in
      if distance <? minDistance
      then nearestClampLoop angle rest' clamp distance
      else nearestClampLoop angle rest' nearest minDistance
  end.

Definition defaultClamps : list number :=
  [(- Math_PI) / Finite 2; Finite 0; Math_PI / Finite 2].

(** [nearestClampDistance(angle, clamps)] for a non-empty [clamps] *)
Definition nearestClampDistanceOf (angle : number) (clamps : list number)
  : number :=
  match clamps with
  | [] => NaN
  | first :: rest =>
      nearestClampLoop angle rest first (Math_abs (angle - first)) - angle
  end.

Definition nearestClampDistance (angle : number) : number :=
  nearestClampDistanceOf angle defaultClamps.

(** the cubes are exact here: no overflow to an infinity for a large [t] *)
Definition easeInOutCubic (t : number) : number :=
  if t <? Finite 0.5 then Finite 4 * t * t * t
  else Finite 1 - Math_pow3 ((Finite (-2)) * t + Finite 2) / Finite 2.

(** *** Dragging *)

(** [onMouseDown]; [intersects] is what the raycaster returns for the
    bounding box of the cube *)
Definition onMouseDown (event : MouseEvent) (intersects : list Intersection)
    (this : RubiksCube) : RubiksCube :=
  match intersects with
  | first :: _ =>
      set_dragStart
        (dragStartAt (Some (Finite (clientX event)))
                     (Some (Finite (clientY event))))
        (set_isDragging true (set_initialIntersect (Some first) this))
  | [] => this
  end.

(** [!value] for a value of type [number | null] *)
Definition falsy (value : option number) : bool :=
  match value with
  | None => true
  | Some n => negb (truthy n)
  end.

Definition getRotationAngle (win : Window) (deltaX deltaY : number)
    (this : RubiksCube) : result number :=
  if face_eqb (selectedFace this) (rotationAxis this)
  then Throw (SameFaceAndAxis (selectedFace this) (rotationAxis this))
  else
    let isXAxis := face_eqb (selectedFace this) (Some X) in
    let isYAxis := face_eqb (selectedFace this) (Some Y) in
    let isZAxis := face_eqb (selectedFace this) (Some Z) in
    let hasXRotationAxis := face_eqb (rotationAxis this) (Some X) in
    let hasYRotationAxis := face_eqb (rotationAxis this) (Some Y) in
    let hasZRotationAxis := face_eqb (rotationAxis this) (Some Z) in
    let '(maxpoint, startingPoint, delta) :=
      if (isXAxis && hasYRotationAxis) || (isYAxis && hasZRotationAxis)
         || (isZAxis && hasYRotationAxis)
      then (Some (innerWidth win), start_x (dragStart this),
            Some (if isYAxis then - deltaX else deltaX))
      else (None, None, None) in
    let '(maxpoint, startingPoint, delta) :=
      if (isXAxis && hasZRotationAxis) || (isYAxis && hasXRotationAxis)
         || (isZAxis && hasXRotationAxis)
      then (Some (innerHeight win), start_y (dragStart this), Some deltaY)
      else (maxpoint, startingPoint, delta) in
    match delta, maxpoint, startingPoint with
    | Some delta, Some maxpoint, Some startingPoint =>
        if falsy (Some delta) || falsy (Some maxpoint)
           || falsy (Some startingPoint)
        then Throw UnableToDetermineAngle
        else
          let maxDelta :=
            if delta >? Finite 0 then maxpoint - startingPoint
            else startingPoint in
          let angle := ((delta / maxDelta) * Math_PI) / Finite 2 in
          Return (Math_min (Math_max angle ((- Math_PI) / Finite 2))
                    (Math_PI / Finite 2))
    | _, _, _ => Throw UnableToDetermineAngle
    end.

Definition setRotation (win : Window) (axis : Axis) (sec : section)
    (deltaX deltaY : number) (this : RubiksCube) : result RubiksCube :=
  match rotationAngle this with
  | None => Throw RotationAngleNotSet
  | Some rotationAngle =>
      let* angle := getRotationAngle win deltaX deltaY this in
      let remainingRotation := angle - rotationAngle in
      let this := applyRotation axis sec remainingRotation this in
      Return (set_rotationAngle (Some angle) this)
  end.

(** [c !== 0] for a component of [normal ?? {}] *)
Definition nonzero (c : option number) : bool :=
  match c with
  | None => true
  | Some n => negb (n =? Finite 0)
  end.

Definition onMouseMove (win : Window) (event : MouseEvent)
    (this : RubiksCube) : result RubiksCube :=
  match isDragging this, initialIntersect this with
  | true, Some hit =>
      match start_x (dragStart this), start_y (dragStart this) with
      | Some startX, Some startY =>
          let deltaX := Finite (clientX event) - startX in
          let deltaY := Finite (clientY event) - startY in
          if (Math_abs deltaX <? Finite 10) || (Math_abs deltaY <? Finite 10)
          then Return this
          else
            let x := vx <$> normal hit in
            let y := vy <$> normal hit in
            let z := vz <$> normal hit in
            match rotationAxis this, rotationSection this,
                  rotationAngle this with
            | Some axis, Some sec, Some _ =>
                setRotation win axis sec deltaX deltaY this
            | _, _, _ =>
                let this := set_rotationAngle (Some (Finite 0)) this in
                let horizontal := Math_abs deltaX >? Math_abs deltaY in
                let this :=
                  if nonzero x
                  then set_selectedFace (Some X)
                         (set_rotationAxis
                            (Some (if horizontal then Y else Z)) this)
                  else this in
                let this :=
                  if nonzero y
                  then set_selectedFace (Some Y)
                         (set_rotationAxis
                            (Some (if horizontal then Z else X)) this)
                  else this in
                let this :=
                  if nonzero z
                  then set_selectedFace (Some Z)
                         (set_rotationAxis
                            (Some (if horizontal then Y else X)) this)
                  else this in
                match rotationAxis this with
                | Some axis =>
                    Return (set_rotationSection
                              (Some (getSection (component (point hit) axis)))
                              this)
                | None => Return this
                end
            end
      | _, _ => Return this
      end
  | _, _ => Return this
  end.

Definition onMouseUp (this : RubiksCube) : RubiksCube :=
  let this := set_isDragging false this in
  let this :=
    match rotationAxis this, rotationSection this, rotationAngle this with
    | Some axis, Some sec, Some angle =>
        let angleClamp := nearestClampDistance angle in
        applyRotation axis sec angleClamp this
    | _, _, _ => this
    end in
  set_rotationAngle None (set_rotationSection None (set_rotationAxis None this)).

(** *** Animations *)

(** [this.rotationAngle ?? 0] and [this.rotationAngle || 0] *)
Definition orZero_nullish (a : option number) : number :=
  match a with Some n => n | None => Finite 0 end.

Definition orZero_falsy (a : option number) : number :=
  match a with
  | Some n => if truthy n then n else Finite 0
  | None => Finite 0
  end.

Definition targetAngleOf (direction : Direction) : number :=
  match direction with
  | clockwise => Math_PI / Finite 2
  | counterclockwise => (- Math_PI) / Finite 2
  end.

(** One run of the closure [animate] of [animateSectionRotation], when
    [clock.getElapsedTime() - startTime] is [elapsedTime].  The boolean
    tells whether the closure asked for another frame; when it did not, the
    callback, if any, is called by the frame loop below. *)
Definition animateSection (axis : Axis) (sec : section)
    (targetAngle duration elapsedTime : number) (this : RubiksCube)
  : RubiksCube * bool :=
  let initialAngle := Finite 0 in
  let progress := Math_min (elapsedTime / (duration / Finite 1000)) (Finite 1) in
  let easedProgress := easeInOutCubic progress in
  let currentAngle := initialAngle + targetAngle * easedProgress in
  let this :=
    applyRotation axis sec
      (currentAngle - orZero_nullish (rotationAngle this)) this in
  let this := set_rotationAngle (Some currentAngle) this in
  if progress <? Finite 1 then (this, true)
  else (set_rotationAngle None (set_isRotating false this), false).

(** One run of the closure [animate] of [animateCubeRotation] *)
Definition animateCube (axis : Axis)
    (targetAngle duration elapsedTime : number) (this : RubiksCube)
  : RubiksCube * bool :=
  let progress := Math_min (elapsedTime / (duration / Finite 1000)) (Finite 1) in
  let easedProgress := easeInOutCubic progress in
  let currentAngle := targetAngle * easedProgress in
  let this :=
    rotateEntireCube axis
      (currentAngle - orZero_falsy (rotationAngle this)) this in
  let this := set_rotationAngle (Some currentAngle) this in
  if progress <? Finite 1 then (this, true)
  else (set_rotationAngle None (set_isRotating false this), false).

(** *** The frame loop

    [requestAnimationFrame] and [THREE.Clock] belong to the environment:
    the browser keeps the queue of requested frames and calls them, in the
    order of the requests, at the times it chooses. *)

(** a running [THREE.Clock]: [oldTime] in milliseconds, [elapsedTime] in
    seconds *)
Record Clock : Type := clock { oldTime : number; elapsedTime : number }.

(** [new THREE.Clock()] followed by the first [getElapsedTime()], which
    starts the clock and returns [0] *)
Definition Clock_start (now : number) : Clock * number :=
  (clock now (Finite 0), Finite 0).

(** [getElapsedTime()] adds the time since the last call to the sum; the
    sum is exact here, where the clock of three.js adds rounded doubles *)
Definition Clock_getElapsedTime (now : number) (c : Clock) : Clock * number :=
  let diff := (now - oldTime c) / Finite 1000 in
  let elapsed := elapsedTime c + diff in
  (clock now elapsed, elapsed).

(** the callback [shuffle] passes to [rotate]:
    [() => shuffleTurn(currentTurn + 1)] *)
Inductive Callback : Type :=
| nextShuffleTurn (currentTurn turns : nat).

(** the closures handed to [requestAnimationFrame] *)
Inductive FrameRequest : Type :=
| SectionFrame (c : Clock) (startTime : number) (axis : Axis) (sec : section)
    (targetAngle duration : number) (callback : option Callback)
| CubeFrame (c : Clock) (startTime : number) (axis : Axis)
    (targetAngle duration : number).

Record Browser : Type := browser {
  cube : RubiksCube;
  frameRequests : list FrameRequest }.

Definition requestAnimationFrame (f : FrameRequest) (w : Browser) : Browser :=
  browser (cube w) (frameRequests w ++ [f]).

Definition animateSectionRotation (now : number) (axis : Axis)
    (sec : section) (targetAngle duration : number)
    (callback : option Callback) (w : Browser) : Browser :=
  let '(c, startTime) := Clock_start now in
  requestAnimationFrame
    (SectionFrame c startTime axis sec targetAngle duration callback) w.

Definition rotate (now : number) (axis : Axis) (sec : section)
    (direction : Direction) (duration : number) (callback : option Callback)
    (w : Browser) : Browser :=
  let targetAngle := targetAngleOf direction in
  animateSectionRotation now axis sec targetAngle duration callback w.

Definition animateCubeRotation (now : number) (axis : Axis)
    (targetAngle duration : number) (w : Browser) : Browser :=
  let '(c, startTime) := Clock_start now in
  requestAnimationFrame (CubeFrame c startTime axis targetAngle duration) w.

Definition rotateCube (now : number) (axis : Axis) (direction : Direction)
    (duration : number) (w : Browser) : Browser :=
  if isRotating (cube w) then w
  else
    let w := browser (set_isRotating true (cube w)) (frameRequests w) in
    let targetAngle := targetAngleOf direction in
    animateCubeRotation now axis targetAngle duration w.

(** the default value of the [duration] parameters *)
Definition defaultDuration : number := Finite 500.

(** [shuffleTurn(currentTurn)]; [pick t] stands for the three draws
    [Math.floor(Math.random() * n)] of turn [t], already used as indices *)
Definition shuffleTurn (pick : nat -> Axis * section * Direction)
    (now : number) (currentTurn turns : nat) (w : Browser) : Browser :=
  if Nat.ltb currentTurn turns then
    let '(axis, sec, direction) := pick currentTurn in
    rotate now axis sec direction (Finite 500)
      (Some (nextShuffleTurn currentTurn turns)) w
  else w.

Definition shuffle (pick : nat -> Axis * section * Direction) (now : number)
    (turns : nat) (w : Browser) : Browser :=
  shuffleTurn pick now 0 turns w.

(** the browser runs one requested frame at time [now] *)
Definition runFrame (pick : nat -> Axis * section * Direction) (now : number)
    (f : FrameRequest) (w : Browser) : Browser :=
  match f with
  | SectionFrame c startTime axis sec targetAngle duration callback =>
      let '(c, t) := Clock_getElapsedTime now c in
      let '(this, again) :=
        animateSection axis sec targetAngle duration (t - startTime) (cube w) in
      let w := browser this (frameRequests w) in
      if again then
        requestAnimationFrame
          (SectionFrame c startTime axis sec targetAngle duration callback) w
      else
        match callback with
        | Some (nextShuffleTurn currentTurn turns) =>
            shuffleTurn pick now (S currentTurn) turns w
        | None => w
        end
  | CubeFrame c startTime axis targetAngle duration =>
      let '(c, t) := Clock_getElapsedTime now c in
      let '(this, again) :=
        animateCube axis targetAngle duration (t - startTime) (cube w) in
      let w := browser this (frameRequests w) in
      if again then
        requestAnimationFrame (CubeFrame c startTime axis targetAngle duration) w
      else w
  end.

(** one animation frame: the requests made so far are run in order, the
    requests they make are kept for the next frame *)
Definition animationFrame (pick : nat -> Axis * section * Direction)
    (now : number) (w : Browser) : Browser :=
  foldl (fun w f => runFrame pick now f w) (browser (cube w) [])
    (frameRequests w).

(** [onKeyboardRotation] *)
Definition onKeyboardRotation (now : number) (key : string) (w : Browser)
  : Browser :=
  if (String.eqb key "ArrowUp" || String.eqb key "w" || String.eqb key "W")%bool
  then rotateCube now X clockwise defaultDuration w
  else if (String.eqb key "ArrowDown" || String.eqb key "s"
           || String.eqb key "S")%bool
  then rotateCube now X counterclockwise defaultDuration w
  else if (String.eqb key "ArrowLeft" || String.eqb key "a"
           || String.eqb key "A")%bool
  then rotateCube now Y clockwise defaultDuration w
  else if (String.eqb key "ArrowRight" || String.eqb key "d"
           || String.eqb key "D")%bool
  then rotateCube now Y counterclockwise defaultDuration w
  else w.

End Cube.

(** ** Vocabulary of the statements *)
Module Grid.
Import JS Three Cube.
Local Open Scope R_scope.

(** a vector and a matrix of finite numbers *)
Definition fvec (x y z : R) : Vector3 := vec3 (Finite x) (Finite y) (Finite z).

Record RMatrix : Type := rmat {
  r11 : R; r12 : R; r13 : R;
  r21 : R; r22 : R; r23 : R;
  r31 : R; r32 : R; r33 : R }.

Definition fmat (m : RMatrix) : Matrix :=
  mat3 (Finite (r11 m)) (Finite (r12 m)) (Finite (r13 m))
       (Finite (r21 m)) (Finite (r22 m)) (Finite (r23 m))
       (Finite (r31 m)) (Finite (r32 m)) (Finite (r33 m)).

Definition RMatrix_identity : RMatrix := rmat 1 0 0 0 1 0 0 0 1.

Definition RMatrix_mul (a b : RMatrix) : RMatrix :=
  rmat (r11 a * r11 b + r12 a * r21 b + r13 a * r31 b)
       (r11 a * r12 b + r12 a * r22 b + r13 a * r32 b)
       (r11 a * r13 b + r12 a * r23 b + r13 a * r33 b)
       (r21 a * r11 b + r22 a * r21 b + r23 a * r31 b)
       (r21 a * r12 b + r22 a * r22 b + r23 a * r32 b)
       (r21 a * r13 b + r22 a * r23 b + r23 a * r33 b)
       (r31 a * r11 b + r32 a * r21 b + r33 a * r31 b)
       (r31 a * r12 b + r32 a * r22 b + r33 a * r32 b)
       (r31 a * r13 b + r32 a * r23 b + r33 a * r33 b).

(** the rotation of angle [t] about a coordinate axis, in closed form *)
Definition rotation (axis : Axis) (t : R) : RMatrix :=
  match axis with
  | X => rmat 1 0 0
              0 (cos t) (- sin t)
              0 (sin t) (cos t)
  | Y => rmat (cos t) 0 (sin t)
              0 1 0
              (- sin t) 0 (cos t)
  | Z => rmat (cos t) (- sin t) 0
              (sin t) (cos t) 0
              0 0 1
  end.

(** the quarter turns: [rotation axis (PI / 2)] and [rotation axis (- PI / 2)] *)
Definition quarterTurn (axis : Axis) (direction : Direction) : RMatrix :=
  match axis, direction with
  | X, clockwise => rmat 1 0 0 0 0 (-1) 0 1 0
  | X, counterclockwise => rmat 1 0 0 0 0 1 0 (-1) 0
  | Y, clockwise => rmat 0 0 1 0 1 0 (-1) 0 0
  | Y, counterclockwise => rmat 0 0 (-1) 0 1 0 1 0 0
  | Z, clockwise => rmat 0 (-1) 0 1 0 0 0 0 1
  | Z, counterclockwise => rmat 0 1 0 (-1) 0 0 0 0 1
  end.

(** an orientation is axis-aligned when quarter turns lead to it from the
    orientation of a new piece *)
Inductive aligned : RMatrix -> Prop :=
| aligned_new : aligned RMatrix_identity
| aligned_turn axis direction m :
    aligned m -> aligned (RMatrix_mul (quarterTurn axis direction) m).

(** the 27 coordinates of the 3x3x3 grid *)
Definition grid : list Vector3 :=
  x ← [-1; 0; 1]; y ← [-1; 0; 1]; z ← [-1; 0; 1]; [fvec x y z].

(** the positions of the pieces are the 27 grid coordinates, each taken by
    one piece *)
Definition on_grid (cs : list Object3D) : Prop :=
  (position <$> cs) ≡ₚ grid.

Definition upright (c : Object3D) : Prop :=
  exists m, aligned m /\ orientation c = fmat m.

(** the pieces between two rotations: on the grid, and axis-aligned *)
Definition solid (cs : list Object3D) : Prop :=
  on_grid cs /\ Forall upright cs.

(** no drag is going on and no angle is tracked *)
Definition idle (this : RubiksCube) : Prop :=
  isDragging this = false /\ rotationAxis this = None
  /\ rotationSection this = None /\ rotationAngle this = None.

(** a piece turned by the angle [t] about a coordinate axis *)
Definition turn (axis : Axis) (t : R) (c : Object3D) : Object3D :=
  rotateAroundPivot (vec3 zero zero zero) axis (Finite t) c.

(** the pieces of a layer, or all of them, turned by [t] *)
Definition turned (sel : Object3D -> bool) (axis : Axis) (t : R)
    (cs : list Object3D) : list Object3D :=
  (fun c => if sel c then turn axis t c else c) <$> cs.

Definition inLayer (axis : Axis) (sec : section) (c : Object3D) : bool :=
  isInSection (position c) axis sec.

(** the reading of the clock and the duration for which the progress of an
    animation is a number: not both zero *)
Definition timed (duration elapsed : R) : Prop :=
  0 < duration \/ (duration = 0 /\ 0 < elapsed).

(** [progress], [currentAngle] as the closures [animate] compute them *)
Definition progressOf (duration elapsedTime : number) : number :=
  Math_min (elapsedTime / (duration / Finite 1000))%js (Finite 1).

Definition currentAngleOf (targetAngle duration elapsedTime : number)
  : number :=
  (targetAngle * easeInOutCubic (progressOf duration elapsedTime))%js.

(** a layer animation played on the successive readings of its clock, until
    it stops asking for frames; the boolean tells whether it still runs *)
Fixpoint playSection (axis : Axis) (sec : section)
    (targetAngle duration : number) (readings : list number)
    (this : RubiksCube) : RubiksCube * bool :=
  match readings with
  | [] => (this, true)
  | t :: rest =>
      let '(this, again) := animateSection axis sec targetAngle duration t this in
      if again then playSection axis sec targetAngle duration rest this
      else (this, false)
  end.

Fixpoint playCube (axis : Axis) (targetAngle duration : number)
    (readings : list number) (this : RubiksCube) : RubiksCube * bool :=
  match readings with
  | [] => (this, true)
  | t :: rest =>
      let '(this, again) := animateCube axis targetAngle duration t this in
      if again then playCube axis targetAngle duration rest this
      else (this, false)
  end.

(** an event handler that throws leaves the cube as it was at the throw;
    the handlers of cube.ts assign nothing before they throw *)
Definition dispatch (handler : RubiksCube -> result RubiksCube)
    (this : RubiksCube) : RubiksCube :=
  match handler this with
  | Return this' => this'
  | Throw _ => this
  end.

(** a whole drag: button down, the moves, button up *)
Definition drag (win : Window) (down : MouseEvent)
    (intersects : list Intersection) (moves : list MouseEvent)
    (this : RubiksCube) : RubiksCube :=
  onMouseUp
    (foldl (fun this ev => dispatch (onMouseMove win ev) this)
       (onMouseDown down intersects this) moves).


(** the pairing of grabbed face and rotation axis for which
    [getRotationAngle] reads the horizontal drag *)
Definition horizontalDrag (face axis : Axis) : bool :=
  match face, axis with
  | X, Y | Y, Z | Z, Y => true
  | _, _ => false
  end.

(** the screen delta and the drag start coordinate [getRotationAngle] uses
    for a grabbed face and a rotation axis that differ *)
Definition activeDelta (face axis : Axis) (deltaX deltaY : number) : number :=
  if horizontalDrag face axis
  then (if Axis_eqb face Y then (- deltaX)%js else deltaX)
  else deltaY.

Definition activeStart (face axis : Axis) (this : RubiksCube)
  : option number :=
  if horizontalDrag face axis then start_x (dragStart this)
  else start_y (dragStart this).

Definition activeMax (face axis : Axis) (win : Window) : number :=
  if horizontalDrag face axis then innerWidth win else innerHeight win.

(** the face a normal designates for [onMouseMove]: the last of x, y, z
    whose component is not zero *)
Definition grabbedFace (n : option Vector3) : option Axis :=
  if nonzero (vz <$> n) then Some Z
  else if nonzero (vy <$> n) then Some Y
  else if nonzero (vx <$> n) then Some X
  else None.

(** the rotation axis for a grabbed face, by the dominant screen delta *)
Definition resolvedAxis (face : Axis) (horizontal : bool) : Axis :=
  match face with
  | X => if horizontal then Y else Z
  | Y => if horizontal then Z else X
  | Z => if horizontal then Y else X
  end.

(** a drag session after button down on the cube, before the axis and the
    section are resolved *)
Definition primed (this : RubiksCube) (hit : Intersection)
    (startX startY : number) : Prop :=
  isDragging this = true /\ initialIntersect this = Some hit
  /\ dragStart this = dragStartAt (Some startX) (Some startY)
  /\ rotationAxis this = None /\ rotationSection this = None.

(** what a run made of calls to [rotateCube] and of animation frames does *)
Inductive Action : Type :=
| CallRotateCube (now : number) (axis : Axis) (direction : Direction)
    (duration : number)
| Frame (now : number).

Definition act (pick : nat -> Axis * section * Direction) (w : Browser)
    (a : Action) : Browser :=
  match a with
  | CallRotateCube now axis direction duration =>
      rotateCube now axis direction duration w
  | Frame now => animationFrame pick now w
  end.

Definition isCubeFrame (f : FrameRequest) : bool :=
  match f with CubeFrame _ _ _ _ _ => true | _ => false end.

(** the whole-cube animations in flight *)
Definition cubeAnimations (w : Browser) : list FrameRequest :=
  List.filter isCubeFrame (frameRequests w).

(** a browser in which nothing but whole-cube animations run, at most one,
    under the guard *)
Definition guarded (w : Browser) : Prop :=
  frameRequests w = []
  \/ (isRotating (cube w) = true
      /\ exists c startTime axis targetAngle duration,
           frameRequests w = [CubeFrame c startTime axis targetAngle duration]).

(** a piece whose position and orientation are finite *)
Definition fobj (x y z : R) (m : RMatrix) : Object3D :=
  object3D (fvec x y z) (fmat m).

(** a point of a coordinate axis *)
Definition axisPoint (axis : Axis) (a : R) : Vector3 :=
  match axis with
  | X => fvec a 0 0
  | Y => fvec 0 a 0
  | Z => fvec 0 0 a
  end.

(** the coordinates of the point [(x, y, z)] turned by [t] about an axis *)
Definition turnedX (axis : Axis) (t x y z : R) : R :=
  match axis with
  | X => x
  | Y => cos t * x + sin t * z
  | Z => cos t * x - sin t * y
  end.

Definition turnedY (axis : Axis) (t x y z : R) : R :=
  match axis with
  | X => cos t * y - sin t * z
  | Y => y
  | Z => sin t * x + cos t * y
  end.

Definition turnedZ (axis : Axis) (t x y z : R) : R :=
  match axis with
  | X => sin t * y + cos t * z
  | Y => - sin t * x + cos t * z
  | Z => z
  end.

(** half the width, the height and the depth of the bounding box of a unit
    cube that the matrix [m] orients *)
Definition halfWidth (m : RMatrix) : R :=
  (Rabs (r11 m) + Rabs (r12 m) + Rabs (r13 m)) / 2.
Definition halfHeight (m : RMatrix) : R :=
  (Rabs (r21 m) + Rabs (r22 m) + Rabs (r23 m)) / 2.
Definition halfDepth (m : RMatrix) : R :=
  (Rabs (r31 m) + Rabs (r32 m) + Rabs (r33 m)) / 2.

(** the real a finite number holds *)
Definition real (n : number) : R :=
  match n with Finite r => r | _ => 0 end.

Definition posX (o : Object3D) : R := real (vx (position o)).
Definition posY (o : Object3D) : R := real (vy (position o)).
Definition posZ (o : Object3D) : R := real (vz (position o)).

Definition rmatOf (m : Matrix) : RMatrix :=
  rmat (real (m11 m)) (real (m12 m)) (real (m13 m))
       (real (m21 m)) (real (m22 m)) (real (m23 m))
       (real (m31 m)) (real (m32 m)) (real (m33 m)).

Definition finite (o : Object3D) : Prop :=
  o = fobj (posX o) (posY o) (posZ o) (rmatOf (orientation o)).

(** the bounding box of a finite piece, coordinate by coordinate *)
Definition loX (o : Object3D) : R := posX o - halfWidth (rmatOf (orientation o)).
Definition hiX (o : Object3D) : R := posX o + halfWidth (rmatOf (orientation o)).
Definition loY (o : Object3D) : R := posY o - halfHeight (rmatOf (orientation o)).
Definition hiY (o : Object3D) : R := posY o + halfHeight (rmatOf (orientation o)).
Definition loZ (o : Object3D) : R := posZ o - halfDepth (rmatOf (orientation o)).
Definition hiZ (o : Object3D) : R := posZ o + halfDepth (rmatOf (orientation o)).

(** on the coordinate [p], with box bounds [lo] and [hi]: all the pieces
    have the same half extent, and each has a mirror image among them *)
Definition balanced (p lo hi : Object3D -> R) (objs : list Object3D) : Prop :=
  exists h,
    (forall o, o ∈ objs -> lo o = p o - h /\ hi o = p o + h)
    /\ (forall o, o ∈ objs -> exists o', o' ∈ objs /\ p o' = - p o).

(** balanced on the two coordinates across an axis *)
Definition balancedAbout (axis : Axis) (objs : list Object3D) : Prop :=
  match axis with
  | X => balanced posY loY hiY objs /\ balanced posZ loZ hiZ objs
  | Y => balanced posX loX hiX objs /\ balanced posZ loZ hiZ objs
  | Z => balanced posX loX hiX objs /\ balanced posY loY hiY objs
  end.

(** [m] times a quarter turn: the columns of [m], permuted and signed *)
Definition quarterCols (axis : Axis) (direction : Direction) (m : RMatrix)
  : RMatrix :=
  match axis, direction with
  | X, clockwise =>
      rmat (r11 m) (r13 m) (- r12 m) (r21 m) (r23 m) (- r22 m)
           (r31 m) (r33 m) (- r32 m)
  | X, counterclockwise =>
      rmat (r11 m) (- r13 m) (r12 m) (r21 m) (- r23 m) (r22 m)
           (r31 m) (- r33 m) (r32 m)
  | Y, clockwise =>
      rmat (- r13 m) (r12 m) (r11 m) (- r23 m) (r22 m) (r21 m)
           (- r33 m) (r32 m) (r31 m)
  | Y, counterclockwise =>
      rmat (r13 m) (r12 m) (- r11 m) (r23 m) (r22 m) (- r21 m)
           (r33 m) (r32 m) (- r31 m)
  | Z, clockwise =>
      rmat (r12 m) (- r11 m) (r13 m) (r22 m) (- r21 m) (r23 m)
           (r32 m) (- r31 m) (r33 m)
  | Z, counterclockwise =>
      rmat (- r12 m) (r11 m) (r13 m) (- r22 m) (r21 m) (r23 m)
           (- r32 m) (r31 m) (r33 m)
  end.

(** a grid coordinate *)
Definition coord (x : R) : Prop := x = -1 \/ x = 0 \/ x = 1.

(** the pieces chosen by a test on the coordinate along the axis: a layer,
    or the whole cube *)
Definition selects (q : number -> bool) (axis : Axis) (c : Object3D) : bool :=
  q (component (position c) axis).

(** the test of [isInSection] on a coordinate *)
Definition sectionTest (sec : section) (value : number) : bool :=
  match sec with
  | Sec0 => (value <? Finite (-0.5))%js
  | Sec1 => ((value >=? Finite (-0.5)) && (value <=? Finite 0.5))%js
  | Sec2 => (value >? Finite 0.5)%js
  end.

(** [o'] is the image of [o] in the half turn about the axis *)
Definition mirror (axis : Axis) (o o' : Object3D) : Prop :=
  match axis with
  | X => posX o' = posX o /\ posY o' = - posY o /\ posZ o' = - posZ o
  | Y => posX o' = - posX o /\ posY o' = posY o /\ posZ o' = - posZ o
  | Z => posX o' = - posX o /\ posY o' = - posY o /\ posZ o' = posZ o
  end.

Definition mirrored (axis : Axis) (objs : list Object3D) : Prop :=
  forall o, o ∈ objs -> exists o', o' ∈ objs /\ mirror axis o o'.

(** the grid in integer coordinates, and the quarter turns on it *)
Definition gridZ : list (BinNums.Z * BinNums.Z * BinNums.Z) :=
  x ← [-1; 0; 1]%Z; y ← [-1; 0; 1]%Z; z ← [-1; 0; 1]%Z; [(x, y, z)].

Definition injZ (p : BinNums.Z * BinNums.Z * BinNums.Z) : Vector3 :=
  let '(x, y, z) := p in fvec (IZR x) (IZR y) (IZR z).

Definition componentZ (p : BinNums.Z * BinNums.Z * BinNums.Z) (axis : Axis)
  : BinNums.Z :=
  let '(x, y, z) := p in
  match axis with X => x | Y => y | Z => z end.

Definition quarterTurnZ (axis : Axis) (direction : Direction)
    (p : BinNums.Z * BinNums.Z * BinNums.Z)
  : BinNums.Z * BinNums.Z * BinNums.Z :=
  let '(x, y, z) := p in
  match axis, direction with
  | X, clockwise => (x, - z, y)
  | X, counterclockwise => (x, z, - y)
  | Y, clockwise => (z, y, - x)
  | Y, counterclockwise => (- z, y, x)
  | Z, clockwise => (- y, x, z)
  | Z, counterclockwise => (y, - x, z)
  end%Z.

(** the target angle of a direction, as a real *)
Definition angleOf (direction : Direction) : R :=
  match direction with
  | clockwise => PI / 2
  | counterclockwise => - PI / 2
  end.

(** a point turned about an axis *)
Definition turnPoint (axis : Axis) (t : R) (v : Vector3) : Vector3 :=
  position (turn axis t (object3D v Matrix_identity)).

(** the test of [isInSection] on an integer grid coordinate *)
Definition sectionTestZ (sec : section) (a : BinNums.Z) : bool :=
  match sec with
  | Sec0 => Z.eqb a (-1)
  | Sec1 => Z.eqb a 0
  | Sec2 => Z.eqb a 1
  end.

(** the angle the cube tracks is [t], or nothing is tracked and [t] is 0 *)
Definition tracks (t : R) (angle : option number) : Prop :=
  (angle = None /\ t = 0) \/ angle = Some (Finite t).

(** the state of a drag over the solid cube [cs]: nothing resolved and no
    piece moved, or an axis, a section and an angle, and the layer turned by
    that angle *)
Definition dragging (cs : list Object3D) (this : RubiksCube) : Prop :=
  (isDragging this = true ->
   exists hit sx sy,
     initialIntersect this = Some hit
     /\ dragStart this = dragStartAt (Some (Finite sx)) (Some (Finite sy)))
  /\ ((rotationAxis this = None /\ rotationSection this = None
       /\ children this = cs)
      \/ (exists axis sec t,
            rotationAxis this = Some axis /\ rotationSection this = Some sec
            /\ rotationAngle this = Some (Finite t)
            /\ children this = turned (inLayer axis sec) axis t cs)).

(** the successive values of [clock.getElapsedTime() - startTime] when the
    frames run at the times [nows], as numbers and as reals *)
Fixpoint clockReadings (c : Clock) (startTime : number) (nows : list number)
  : list number :=
  match nows with
  | [] => []
  | now :: rest =>
      let '(c', t) := Clock_getElapsedTime now c in
      (t - startTime)%js :: clockReadings c' startTime rest
  end.

Fixpoint realReadings (old elapsed startTime : R) (nows : list R) : list R :=
  match nows with
  | [] => []
  | now :: rest =>
      let t := elapsed + (now - old) / 1000 in
      (t - startTime) :: realReadings now t startTime rest
  end.

(** the animation frames the browser runs at the times [nows] *)
Definition frames (pick : nat -> Axis * section * Direction) (w : Browser)
    (nows : list number) : Browser :=
  foldl (fun w now => animationFrame pick now w) w nows.

End Grid.

(** ** Vocabulary of the further statements *)
Module Moves.
Import JS Three Cube Grid.
Local Open Scope R_scope.

(** the coordinate, along the axis, of the pieces of a section of the grid *)
Definition sectionCoord (sec : section) : R :=
  match sec with Sec0 => -1 | Sec1 => 0 | Sec2 => 1 end.

(** the angle the cube tracks, if any, is a real number between [- PI / 2]
    and [PI / 2] *)
Definition bounded (this : RubiksCube) : Prop :=
  forall a, rotationAngle this = Some a ->
            exists t, a = Finite t /\ - PI / 2 <= t <= PI / 2.

(** the moves of a drag, one after the other *)
Definition moved (win : Window) (moves : list MouseEvent) (this : RubiksCube)
  : RubiksCube :=
  foldl (fun this ev => dispatch (onMouseMove win ev) this) this moves.

(** the image of the point [(x, y, z)] by a quarter turn *)
Definition quarterPoint (axis : Axis) (direction : Direction) (x y z : R)
  : R * R * R :=
  match axis, direction with
  | X, clockwise => (x, - z, y)
  | X, counterclockwise => (x, z, - y)
  | Y, clockwise => (z, y, - x)
  | Y, counterclockwise => (- z, y, x)
  | Z, clockwise => (- y, x, z)
  | Z, counterclockwise => (y, - x, z)
  end.

(** the piece at [(x, y, z)] with the orientation [m], after a quarter
    turn about an axis through the origin *)
Definition quarterPiece (axis : Axis) (direction : Direction) (x y z : R)
    (m : RMatrix) : Object3D :=
  let '(x', y', z') := quarterPoint axis direction x y z in
  fobj x' y' z' (RMatrix_mul (quarterTurn axis direction) m).

Definition opposite (direction : Direction) : Direction :=
  match direction with
  | clockwise => counterclockwise
  | counterclockwise => clockwise
  end.

(** [rotate] on an idle frame queue, and the frames at the times [nows] *)
Definition rotateThen (pick : nat -> Axis * section * Direction) (now : R)
    (axis : Axis) (sec : section) (direction : Direction) (d : R)
    (nows : list R) (this : RubiksCube) : Browser :=
  frames pick
    (rotate (Finite now) axis sec direction (Finite d) None (browser this []))
    (Finite <$> nows).

(** [rotateCube] on an idle frame queue, and the frames at the times [nows] *)
Definition rotateCubeThen (pick : nat -> Axis * section * Direction) (now : R)
    (axis : Axis) (direction : Direction) (d : R) (nows : list R)
    (this : RubiksCube) : Browser :=
  frames pick
    (rotateCube (Finite now) axis direction (Finite d) (browser this []))
    (Finite <$> nows).

(** the quarter turn of a layer that a draw of [shuffle] stands for *)
Definition drawn (p : Axis * section * Direction) (cs : list Object3D)
  : list Object3D :=
  let '(axis, sec, direction) := p in
  turned (inLayer axis sec) axis (angleOf direction) cs.

(** the pieces after the first [k] turns of a shuffle *)
Definition shuffled (pick : nat -> Axis * section * Direction) (k : nat)
    (cs : list Object3D) : list Object3D :=
  foldl (fun cs turn => drawn (pick turn) cs) cs (seq 0 k).

(** [shuffle] on an idle frame queue, and the frames at the times [nows] *)
Definition shuffleThen (pick : nat -> Axis * section * Direction) (now : R)
    (turns : nat) (nows : list R) (this : RubiksCube) : Browser :=
  frames pick (shuffle pick (Finite now) turns (browser this []))
    (Finite <$> nows).

(** a shuffle of the pieces [cs] under way: it is over, or its turn [k] is
    being animated and nothing else *)
Definition shuffling (pick : nat -> Axis * section * Direction)
    (turns : nat) (cs : list Object3D) (w : Browser) : Prop :=
  (frameRequests w = [] /\ children (cube w) = shuffled pick turns cs
   /\ idle (cube w))
  \/ exists k old elapsed axis sec direction s,
       (k < turns)%nat /\ pick k = (axis, sec, direction)
       /\ frameRequests w
          = [SectionFrame (clock (Finite old) (Finite elapsed)) (Finite 0)
               axis sec (targetAngleOf direction) (Finite 500)
               (Some (nextShuffleTurn k turns))]
       /\ children (cube w)
          = turned (inLayer axis sec) axis s (shuffled pick k cs)
       /\ tracks s (rotationAngle (cube w))
       /\ isDragging (cube w) = false /\ rotationAxis (cube w) = None
       /\ rotationSection (cube w) = None.

(** the number of turns of a shuffle that the frames at the times [nows]
    end, when the turn under way started at the time [start]: a frame ends
    the turn under way when it comes 500 ms or more after its start, and
    starts the next *)
Fixpoint completedTurns (start : R) (nows : list R) : nat :=
  match nows with
  | [] => 0
  | t :: rest =>
      if Rle_dec (start + 500) t then S (completedTurns t rest)
      else completedTurns start rest
  end.

(** the frame queue of a shuffle whose turn [k] started at the time
    [start] *)
Definition shuffleQueue (pick : nat -> Axis * section * Direction)
    (turns : nat) (start : R) (k : nat) (w : Browser) : Prop :=
  ((turns <= k)%nat /\ frameRequests w = [])
  \/ ((k < turns)%nat
      /\ exists old elapsed axis sec targetAngle,
           elapsed = (old - start) / 1000
           /\ frameRequests w
              = [SectionFrame (clock (Finite old) (Finite elapsed)) (Finite 0)
                   axis sec targetAngle (Finite 500)
                   (Some (nextShuffleTurn k turns))]).

(** the keys [onKeyboardRotation] listens to *)
Definition rotationKeys : list string :=
  ["ArrowUp"; "w"; "W"; "ArrowDown"; "s"; "S";
   "ArrowLeft"; "a"; "A"; "ArrowRight"; "d"; "D"]%string.

(** key presses, each with the time at which it is handled *)
Definition pressed (presses : list (number * string)) (w : Browser)
  : Browser :=
  foldl (fun w p => onKeyboardRotation (fst p) (snd p) w) w presses.

(** what the page and the browser do to the cube: the events the cube
    listens to, the calls of its public methods, and the animation frames *)
Inductive Input : Type :=
| MouseDown (event : MouseEvent) (intersects : list Intersection)
| MouseMove (win : Window) (event : MouseEvent)
| MouseUp
| KeyDown (now : number) (key : string)
| Rotate (now : number) (axis : Axis) (sec : section) (direction : Direction)
    (duration : number)
| RotateCube (now : number) (axis : Axis) (direction : Direction)
    (duration : number)
| Shuffle (now : number) (turns : nat)
| AnimationFrame (now : number).

Definition input (pick : nat -> Axis * section * Direction) (w : Browser)
    (i : Input) : Browser :=
  match i with
  | MouseDown event intersects =>
      browser (onMouseDown event intersects (cube w)) (frameRequests w)
  | MouseMove win event =>
      browser (dispatch (onMouseMove win event) (cube w)) (frameRequests w)
  | MouseUp => browser (onMouseUp (cube w)) (frameRequests w)
  | KeyDown now key => onKeyboardRotation now key w
  | Rotate now axis sec direction duration =>
      rotate now axis sec direction duration None w
  | RotateCube now axis direction duration =>
      rotateCube now axis direction duration w
  | Shuffle now turns => shuffle pick now turns w
  | AnimationFrame now => animationFrame pick now w
  end.

(** when an axis is resolved, a face is selected and it is another axis *)
Definition crossed (this : RubiksCube) : Prop :=
  forall axis, rotationAxis this = Some axis ->
               exists face, selectedFace this = Some face /\ face <> axis.

(** a tick does not divide 0 by 0: the divisor [duration / 1000] of its
    progress is positive, or it is 0 and the elapsed time is positive *)
Definition ticking (duration elapsed : R) : Prop :=
  0 < duration / 1000 \/ (duration / 1000 = 0 /\ 0 < elapsed).

(** a drag session that began with button down on the cube whose pieces
    were [cs]: the axis, the section and the angle are not all resolved and
    no piece has moved, or they are and the layer stands turned by the
    angle *)
Definition grabbed (cs : list Object3D) (this : RubiksCube) : Prop :=
  (isDragging this = true
   /\ exists hit sx sy,
        initialIntersect this = Some hit
        /\ dragStart this = dragStartAt (Some (Finite sx)) (Some (Finite sy)))
  /\ (((rotationAxis this = None \/ rotationSection this = None
        \/ rotationAngle this = None)
       /\ children this = cs)
      \/ (exists axis sec t,
            rotationAxis this = Some axis /\ rotationSection this = Some sec
            /\ rotationAngle this = Some (Finite t)
            /\ children this = turned (inLayer axis sec) axis t cs)).

(** the rotation about the x-axis by the angle whose cosine is 3/5 and
    whose sine is 4/5 *)
Definition tilted : RMatrix :=
  rmat 1 0 0 0 (3 / 5) (- (4 / 5)) 0 (4 / 5) (3 / 5).

(** a new cube whose piece at (1, 1, 0) stands tilted *)
Definition tiltedCube : RubiksCube :=
  set_children
    (alter (fun c => object3D (position c) (fmat tilted)) 25%nat initCube)
    RubiksCube_new.

(** a new cube on which the angle 1 is tracked although no piece is
    turned *)
Definition trackingCube : RubiksCube :=
  set_rotationAngle (Some (Finite 1)) RubiksCube_new.

End Moves.

(** ** Facts about numbers *)
Module NumberFacts.
Import JS.
Local Open Scope R_scope.

Lemma div_finite (x y : R) :
  y <> 0 -> (Finite x / Finite y)%js = Finite (x / y).
Proof.
  intros Hy. unfold div.
  destruct (Req_dec_T y 0); [contradiction | reflexivity].
Qed.

Lemma ltb_finite (x y : R) : (Finite x <? Finite y)%js = true <-> x < y.
Proof.
  unfold ltb. destruct (Rlt_dec x y); split; intros;
    try discriminate; auto; contradiction.
Qed.

Lemma ltb_finite_false (x y : R) :
  (Finite x <? Finite y)%js = false <-> y <= x.
Proof.
  unfold ltb. destruct (Rlt_dec x y); split; intros;
    try discriminate; auto; lra.
Qed.

Lemma ltb_lt (x y : R) : x < y -> (Finite x <? Finite y)%js = true.
Proof. apply ltb_finite. Qed.

Lemma ltb_ge (x y : R) : y <= x -> (Finite x <? Finite y)%js = false.
Proof. apply ltb_finite_false. Qed.

Lemma eqb_finite (x y : R) : (Finite x =? Finite y)%js = true <-> x = y.
Proof.
  unfold eqb. destruct (Req_dec_T x y); split; intros;
    try discriminate; auto; contradiction.
Qed.

Lemma leb_finite (x y : R) : (Finite x <=? Finite y)%js = true <-> x <= y.
Proof.
  unfold leb, ltb, eqb.
  destruct (Rlt_dec x y), (Req_dec_T x y); simpl; split; intros;
    try discriminate; auto; lra.
Qed.

Lemma leb_finite_false (x y : R) :
  (Finite x <=? Finite y)%js = false <-> y < x.
Proof.
  unfold leb, ltb, eqb.
  destruct (Rlt_dec x y), (Req_dec_T x y); simpl; split; intros;
    try discriminate; auto; lra.
Qed.

Lemma truthy_finite (x : R) : truthy (Finite x) = true <-> x <> 0.
Proof.
  unfold truthy. destruct (Req_dec_T x 0); split; intros;
    try discriminate; auto; contradiction.
Qed.

End NumberFacts.

(** ** [nearestClampDistance] *)
Module ClampFacts.
Import JS Cube Grid NumberFacts.
Local Open Scope R_scope.

Lemma nearestClampDistance_finite (a : R) :
  nearestClampDistance (Finite a)
  = Finite ((if Rlt_dec (Rabs (a - 0)) (Rabs (a - - PI / 2))
             then if Rlt_dec (Rabs (a - PI / 2)) (Rabs (a - 0))
                  then PI / 2 else 0
             else if Rlt_dec (Rabs (a - PI / 2)) (Rabs (a - - PI / 2))
                  then PI / 2 else - PI / 2) - a).
Proof.
  unfold nearestClampDistance, nearestClampDistanceOf, defaultClamps, Math_PI.
  cbn [neg]. rewrite !div_finite by lra.
  cbn [nearestClampLoop sub add neg Math_abs]. unfold ltb, Rminus.
  repeat destruct (Rlt_dec _ _); reflexivity.
Qed.


End ClampFacts.

(** ** The drag interpreter *)
Module DragFacts.
Import JS Three Cube Grid NumberFacts.
Local Open Scope R_scope.

Lemma face_eqb_refl (f : option Axis) : face_eqb f f = true.
Proof. destruct f as [[]|]; reflexivity. Qed.

Lemma face_eqb_eq (f g : option Axis) : face_eqb f g = true <-> f = g.
Proof.
  split; [| intros ->; apply face_eqb_refl].
  destruct f as [[]|], g as [[]|]; simpl; congruence.
Qed.

Lemma getRotationAngle_valid win deltaX deltaY this face axis :
  selectedFace this = Some face -> rotationAxis this = Some axis ->
  face <> axis ->
  getRotationAngle win deltaX deltaY this
  = if falsy (Some (activeDelta face axis deltaX deltaY))
       || falsy (Some (activeMax face axis win))
       || falsy (activeStart face axis this)
    then Throw UnableToDetermineAngle
    else
      let delta := activeDelta face axis deltaX deltaY in
      let startingPoint := default NaN (activeStart face axis this) in
      let maxDelta :=
        if (delta >? Finite 0)%js then (activeMax face axis win - startingPoint)%js
        else startingPoint in
      Return (Math_min (Math_max ((delta / maxDelta * Math_PI) / Finite 2)%js
                          ((- Math_PI) / Finite 2)%js)
                (Math_PI / Finite 2)%js).
Proof.
  intros Hf Ha Hne. unfold getRotationAngle, activeDelta, activeStart, activeMax.
  rewrite Hf, Ha.
  destruct face, axis; try congruence; simpl;
    destruct (start_x (dragStart this)), (start_y (dragStart this)); simpl;
    try reflexivity; rewrite ?orb_true_r; try reflexivity.
Qed.

Lemma onMouseMove_deltas win ev this hit sx sy :
  isDragging this = true -> initialIntersect this = Some hit ->
  dragStart this = dragStartAt (Some (Finite sx)) (Some (Finite sy)) ->
  onMouseMove win ev this
  = let deltaX := clientX ev - sx in
    let deltaY := clientY ev - sy in
    if (if Rlt_dec (Rabs deltaX) 10 then true else false)
       || (if Rlt_dec (Rabs deltaY) 10 then true else false)
    then Return this
    else
      match rotationAxis this, rotationSection this, rotationAngle this with
      | Some axis, Some sec, Some _ =>
          setRotation win axis sec (Finite deltaX) (Finite deltaY) this
      | _, _, _ =>
          let horizontal := if Rlt_dec (Rabs deltaY) (Rabs deltaX) then true else false in
          let this := set_rotationAngle (Some (Finite 0)) this in
          let this :=
            if nonzero (vx <$> normal hit)
            then set_selectedFace (Some X)
                   (set_rotationAxis (Some (if horizontal then Y else Z)) this)
            else this in
          let this :=
            if nonzero (vy <$> normal hit)
            then set_selectedFace (Some Y)
                   (set_rotationAxis (Some (if horizontal then Z else X)) this)
            else this in
          let this :=
            if nonzero (vz <$> normal hit)
            then set_selectedFace (Some Z)
                   (set_rotationAxis (Some (if horizontal then Y else X)) this)
            else this in
          match rotationAxis this with
          | Some axis =>
              Return (set_rotationSection
                        (Some (getSection (component (point hit) axis))) this)
          | None => Return this
          end
      end.
Proof.
  intros Hd Hh Hs. unfold onMouseMove. rewrite Hd, Hh, Hs. reflexivity.
Qed.

Lemma onMouseMove_below win ev this hit sx sy :
  isDragging this = true -> initialIntersect this = Some hit ->
  dragStart this = dragStartAt (Some (Finite sx)) (Some (Finite sy)) ->
  Rabs (clientX ev - sx) < 10 \/ Rabs (clientY ev - sy) < 10 ->
  onMouseMove win ev this = Return this.
Proof.
  intros Hd Hh Hs Hlt. rewrite (onMouseMove_deltas _ _ _ _ _ _ Hd Hh Hs).
  cbv zeta. destruct (Rlt_dec _ 10), (Rlt_dec _ 10); try reflexivity. lra.
Qed.

Lemma onMouseMove_resolve win ev this hit sx sy face :
  primed this hit (Finite sx) (Finite sy) ->
  10 <= Rabs (clientX ev - sx) -> 10 <= Rabs (clientY ev - sy) ->
  grabbedFace (normal hit) = Some face ->
  let horizontal :=
    if Rlt_dec (Rabs (clientY ev - sy)) (Rabs (clientX ev - sx))
    then true else false in
  let axis := resolvedAxis face horizontal in
  onMouseMove win ev this
  = Return
      (set_rotationSection (Some (getSection (component (point hit) axis)))
         (set_selectedFace (Some face)
            (set_rotationAxis (Some axis)
               (set_rotationAngle (Some (Finite 0)) this)))).
Proof.
  intros (Hd & Hh & Hs & Hax & Hsec) HX HY Hface.
  rewrite (onMouseMove_deltas _ _ _ _ _ _ Hd Hh Hs). cbv zeta.
  destruct (Rlt_dec _ 10); [lra |]. destruct (Rlt_dec _ 10); [lra |].
  rewrite Hax. simpl orb. cbv iota.
  unfold grabbedFace in Hface.
  destruct this; simpl in *; subst.
  destruct (nonzero (vz <$> normal hit)), (nonzero (vy <$> normal hit)),
    (nonzero (vx <$> normal hit)); inversion Hface; subst;
    destruct (Rlt_dec _ _); reflexivity.
Qed.

Ltac solve_abs :=
  unfold Rabs; repeat destruct (Rcase_abs _); lra.

(** C4, as the code has it.  During a primed, unresolved drag session a
    move is a no-op as soon as one of |deltaX|, |deltaY| is below 10 pixels;
    when both reach 10 pixels the axis (from the grabbed face and the
    dominant screen delta) and the section (from the hit point) are
    resolved, the tracked angle starts at 0 and no piece moves. *)
Theorem onMouseMove_threshold (win : Window) (ev : MouseEvent)
    (this : RubiksCube) (hit : Intersection) (sx sy : R) :
  primed this hit (Finite sx) (Finite sy) ->
  let deltaX := clientX ev - sx in
  let deltaY := clientY ev - sy in
  (Rabs deltaX < 10 \/ Rabs deltaY < 10 ->
     onMouseMove win ev this = Return this)
  /\ (10 <= Rabs deltaX -> 10 <= Rabs deltaY ->
      forall face, grabbedFace (normal hit) = Some face ->
      exists this' axis,
        onMouseMove win ev this = Return this'
        /\ (Rabs deltaY < Rabs deltaX -> axis = resolvedAxis face true)
        /\ (Rabs deltaX <= Rabs deltaY -> axis = resolvedAxis face false)
        /\ rotationAxis this' = Some axis
        /\ rotationSection this'
           = Some (getSection (component (point hit) axis))
        /\ rotationAngle this' = Some (Finite 0)
        /\ selectedFace this' = Some face
        /\ children this' = children this).
Proof.
  intros Hp deltaX deltaY. split.
  - destruct Hp as (Hd & Hh & Hs & _). intros Hlt.
    eapply onMouseMove_below; eauto.
  - intros HX HY face Hface.
    pose proof (onMouseMove_resolve win ev this hit sx sy face Hp HX HY Hface)
      as Hr.
    cbv zeta in Hr. fold deltaX deltaY in Hr.
    destruct (Rlt_dec (Rabs deltaY) (Rabs deltaX)) as [Hlt | Hge];
      eexists; eexists; (split; [exact Hr |]).
    + split; [reflexivity |]. split; [intros; exfalso; lra |].
      repeat split.
    + split; [intros; exfalso; lra |]. split; [reflexivity |].
      repeat split.
Qed.

Lemma onMouseMove_threshold_witness :
  let hit := intersection (fvec 1.5 0 0) (Some (fvec 1 0 0)) in
  let s0 := onMouseDown (mouseEvent 100 100) [hit] RubiksCube_new in
  onMouseMove (window (Finite 800) (Finite 600)) (mouseEvent 103 140) s0
  = Return s0
  /\ exists this',
      onMouseMove (window (Finite 800) (Finite 600)) (mouseEvent 130 112) s0
      = Return this'
      /\ rotationAxis this' = Some Y.
Proof.
  intros hit s0.
  assert (primed s0 hit (Finite 100) (Finite 100)) as Hp.
  { repeat split. }
  split.
  - apply (onMouseMove_threshold (window (Finite 800) (Finite 600))
             (mouseEvent 103 140) s0 hit 100 100 Hp).
    left. simpl. solve_abs.
  - destruct (onMouseMove_threshold (window (Finite 800) (Finite 600))
                (mouseEvent 130 112) s0 hit 100 100 Hp) as [_ H].
    destruct (H ltac:(simpl; solve_abs) ltac:(simpl; solve_abs) X)
      as (this' & axis & Hr & Hh & _ & Hax & _).
    { unfold grabbedFace, nonzero. simpl. unfold eqb.
      destruct (Req_dec_T 0 0); [| lra]. simpl.
      destruct (Req_dec_T 1 0); [lra | reflexivity]. }
    exists this'. split; [exact Hr |].
    rewrite Hax, Hh; [reflexivity |]. simpl. solve_abs.
Defined.

(** C4 as stated fails: a move whose |deltaX| reaches 10 pixels while
    |deltaY| stays below leaves the session unresolved. *)
Lemma onMouseMove_one_delta_short :
  let hit := intersection (fvec 1.5 0 0) (Some (fvec 1 0 0)) in
  let s0 := onMouseDown (mouseEvent 100 100) [hit] RubiksCube_new in
  primed s0 hit (Finite 100) (Finite 100)
  /\ 10 <= Rabs (115 - 100)
  /\ exists this',
      onMouseMove (window (Finite 800) (Finite 600)) (mouseEvent 115 103) s0
      = Return this'
      /\ rotationAxis this' = None /\ rotationSection this' = None.
Proof.
  intros hit s0. split; [repeat split |]. split; [solve_abs |].
  exists s0. split; [| split; reflexivity].
  apply (onMouseMove_below _ _ s0 hit 100 100); try reflexivity.
  right. simpl. solve_abs.
Qed.


(** C8.  Both usage errors are raised at once and move no piece: when the
    selected face equals the rotation axis [getRotationAngle] throws, and
    so does [setRotation], which calls it before it applies anything; when
    no angle is tracked [setRotation] throws before anything else. *)
Theorem usage_errors_fail_fast (win : Window) (axis : Axis) (sec : section)
    (deltaX deltaY : number) (this : RubiksCube) :
  (selectedFace this = rotationAxis this ->
     getRotationAngle win deltaX deltaY this
     = Throw (SameFaceAndAxis (selectedFace this) (rotationAxis this))
     /\ (forall angle, rotationAngle this = Some angle ->
         setRotation win axis sec deltaX deltaY this
         = Throw (SameFaceAndAxis (selectedFace this) (rotationAxis this)))
     /\ dispatch (setRotation win axis sec deltaX deltaY) this = this)
  /\ (rotationAngle this = None ->
        setRotation win axis sec deltaX deltaY this = Throw RotationAngleNotSet
        /\ dispatch (setRotation win axis sec deltaX deltaY) this = this).
Proof.
  split.
  - intros Hsame.
    assert (getRotationAngle win deltaX deltaY this
            = Throw (SameFaceAndAxis (selectedFace this) (rotationAxis this)))
      as Hthrow.
    { unfold getRotationAngle. rewrite Hsame, face_eqb_refl. reflexivity. }
    split; [exact Hthrow |]. split.
    + intros angle Hangle. unfold setRotation. rewrite Hangle, Hthrow.
      reflexivity.
    + unfold dispatch, setRotation.
      destruct (rotationAngle this); [| reflexivity].
      rewrite Hthrow. reflexivity.
  - intros Hnull. unfold dispatch, setRotation. rewrite Hnull. auto.
Qed.

Lemma usage_errors_fail_fast_witness :
  getRotationAngle (window (Finite 800) (Finite 600)) (Finite 12) (Finite 15)
    (set_rotationAxis (Some X) (set_selectedFace (Some X) RubiksCube_new))
  = Throw (SameFaceAndAxis (Some X) (Some X))
  /\ setRotation (window (Finite 800) (Finite 600)) X Sec0 (Finite 12)
       (Finite 15) RubiksCube_new
     = Throw RotationAngleNotSet.
Proof.
  split.
  - apply (usage_errors_fail_fast (window (Finite 800) (Finite 600)) X Sec0
             (Finite 12) (Finite 15)
             (set_rotationAxis (Some X)
                (set_selectedFace (Some X) RubiksCube_new))).
    reflexivity.
  - apply (usage_errors_fail_fast (window (Finite 800) (Finite 600)) X Sec0
             (Finite 12) (Finite 15) RubiksCube_new).
    reflexivity.
Defined.

Lemma getRotationAngle_unable (win : Window) (deltaX deltaY : number)
    (this : RubiksCube) (face axis : Axis) :
  selectedFace this = Some face -> rotationAxis this = Some axis ->
  face <> axis ->
  activeDelta face axis deltaX deltaY = Finite 0
  \/ activeStart face axis this = Some (Finite 0) ->
  getRotationAngle win deltaX deltaY this = Throw UnableToDetermineAngle.
Proof.
  intros Hf Ha Hne Hzero.
  rewrite (getRotationAngle_valid _ _ _ _ _ _ Hf Ha Hne).
  destruct Hzero as [-> | ->]; unfold falsy, truthy;
    destruct (Req_dec_T 0 0); try lra; simpl; rewrite ?orb_true_r;
    reflexivity.
Qed.

(** C10.  For a grabbed face and a rotation axis that differ,
    [getRotationAngle] throws 'Unable to determine angle' whenever the
    screen delta it uses is exactly 0 or the drag start coordinate it uses
    is exactly 0; and there is a drag, begun at the left edge of the window,
    whose second move throws it. *)
Theorem unable_to_determine_angle :
  (forall (win : Window) (deltaX deltaY : number) (this : RubiksCube)
          (face axis : Axis),
     selectedFace this = Some face -> rotationAxis this = Some axis ->
     face <> axis ->
     activeDelta face axis deltaX deltaY = Finite 0
     \/ activeStart face axis this = Some (Finite 0) ->
     getRotationAngle win deltaX deltaY this = Throw UnableToDetermineAngle)
  /\ (let win := window (Finite 800) (Finite 600) in
      let hit := intersection (fvec 1.5 0.2 0.3) (Some (fvec 1 0 0)) in
      let s0 := onMouseDown (mouseEvent 0 100) [hit] RubiksCube_new in
      exists s1,
        onMouseMove win (mouseEvent 30 112) s0 = Return s1
        /\ selectedFace s1 = Some X /\ rotationAxis s1 = Some Y
        /\ onMouseMove win (mouseEvent 40 115) s1
           = Throw UnableToDetermineAngle).
Proof.
  split.
  - exact getRotationAngle_unable.
  - intros win hit s0.
    assert (primed s0 hit (Finite 0) (Finite 100)) as Hp by (repeat split).
    assert (grabbedFace (normal hit) = Some X) as Hface.
    { unfold grabbedFace, nonzero. simpl. unfold eqb.
      destruct (Req_dec_T 0 0); [| lra]. simpl.
      destruct (Req_dec_T 1 0); [lra | reflexivity]. }
    pose proof (onMouseMove_resolve win (mouseEvent 30 112) s0 hit 0 100 X Hp)
      as Hr.
    specialize (Hr ltac:(simpl; solve_abs) ltac:(simpl; solve_abs) Hface).
    cbv zeta in Hr.
    destruct (Rlt_dec _ _) as [_ | Hn] in Hr; [| exfalso; apply Hn; simpl; solve_abs].
    eexists. split; [exact Hr |]. split; [reflexivity |].
    split; [reflexivity |].
    erewrite onMouseMove_deltas; try reflexivity. cbv zeta.
    destruct (Rlt_dec _ 10); [exfalso; simpl in *; revert r; solve_abs |].
    destruct (Rlt_dec _ 10); [exfalso; simpl in *; revert r; solve_abs |].
    simpl. unfold setRotation. simpl rotationAngle. cbv iota.
    erewrite (getRotationAngle_unable _ _ _ _ X Y);
      [reflexivity | reflexivity | reflexivity | discriminate
      | right; reflexivity].
Qed.

Lemma unable_to_determine_angle_witness :
  getRotationAngle (window (Finite 800) (Finite 600)) (Finite 0) (Finite 12)
    (set_rotationAxis (Some Y) (set_selectedFace (Some X)
       (onMouseDown (mouseEvent 50 100) [] RubiksCube_new)))
  = Throw UnableToDetermineAngle.
Proof.
  apply (proj1 unable_to_determine_angle _ _ _ _ X Y);
    [reflexivity | reflexivity | discriminate | left; reflexivity].
Defined.

End DragFacts.

(** ** The animation ticks *)
Module AnimationFacts.
Import JS Three Cube Grid NumberFacts.
Local Open Scope R_scope.

Lemma progressOf_positive (d e : R) :
  0 < d -> progressOf (Finite d) (Finite e) = Finite (Rmin (e / (d / 1000)) 1).
Proof.
  intros Hd. unfold progressOf.
  rewrite (div_finite d 1000) by lra. rewrite div_finite by lra. reflexivity.
Qed.

Lemma progressOf_zero_duration (e : R) :
  0 < e -> progressOf (Finite 0) (Finite e) = Finite 1.
Proof.
  intros He. unfold progressOf. rewrite (div_finite 0 1000) by lra.
  unfold div. destruct (Req_dec_T (0 / 1000) 0) as [_ | Hn]; [| lra].
  unfold inf_of_sign. destruct (Req_dec_T e 0); [lra |].
  destruct (Rlt_dec 0 e); [reflexivity | lra].
Qed.

Lemma progressOf_zero_zero : progressOf (Finite 0) (Finite 0) = NaN.
Proof.
  unfold progressOf. rewrite (div_finite 0 1000) by lra.
  unfold div. destruct (Req_dec_T (0 / 1000) 0) as [_ | Hn]; [| lra].
  unfold inf_of_sign. destruct (Req_dec_T 0 0); [reflexivity | lra].
Qed.

(** for a duration and a reading that are not both zero the progress is a
    real number, at most 1 *)
Lemma progressOf_timed (d e : R) :
  timed d e -> exists p, progressOf (Finite d) (Finite e) = Finite p /\ p <= 1.
Proof.
  intros [Hd | [-> He]].
  - rewrite progressOf_positive by assumption. eexists. split; [reflexivity |].
    apply Rmin_r.
  - rewrite progressOf_zero_duration by assumption. exists 1. split; [reflexivity | lra].
Qed.

Lemma easeInOutCubic_finite (p : R) :
  exists q, easeInOutCubic (Finite p) = Finite q /\ (p = 1 -> q = 1).
Proof.
  unfold easeInOutCubic. destruct (Rlt_dec p 0.5) as [Hlt | Hge].
  - rewrite ltb_lt by assumption. eexists. split; [reflexivity | intros; lra].
  - rewrite ltb_ge by lra. cbn [Math_pow3 mul add].
    rewrite div_finite by lra. eexists. split; [reflexivity |].
    intros ->. cbn [sub add neg]. lra.
Qed.

Lemma easeInOutCubic_one : easeInOutCubic (Finite 1) = Finite 1.
Proof.
  destruct (easeInOutCubic_finite 1) as (q & -> & Hq). rewrite Hq; reflexivity.
Qed.

Lemma easeInOutCubic_NaN : easeInOutCubic NaN = NaN.
Proof. reflexivity. Qed.

(** the closures, with the progress and the angle named *)
Lemma animateSection_unfold axis sec targetAngle duration elapsed this :
  animateSection axis sec targetAngle duration elapsed this
  = let currentAngle :=
      (Finite 0 + currentAngleOf targetAngle duration elapsed)%js in
    let this' :=
      set_rotationAngle (Some currentAngle)
        (applyRotation axis sec
           (currentAngle - orZero_nullish (rotationAngle this))%js this) in
    if (progressOf duration elapsed <? Finite 1)%js then (this', true)
    else (set_rotationAngle None (set_isRotating false this'), false).
Proof. reflexivity. Qed.

Lemma animateCube_unfold axis targetAngle duration elapsed this :
  animateCube axis targetAngle duration elapsed this
  = let currentAngle := currentAngleOf targetAngle duration elapsed in
    let this' :=
      set_rotationAngle (Some currentAngle)
        (rotateEntireCube axis
           (currentAngle - orZero_falsy (rotationAngle this))%js this) in
    if (progressOf duration elapsed <? Finite 1)%js then (this', true)
    else (set_rotationAngle None (set_isRotating false this'), false).
Proof. reflexivity. Qed.

End AnimationFacts.

Module ZeroDuration.
Import JS Three Cube Grid NumberFacts AnimationFacts.
Local Open Scope R_scope.

Lemma targetAngleOf_finite (direction : Direction) :
  targetAngleOf direction
  = Finite (match direction with
            | clockwise => PI / 2
            | counterclockwise => - PI / 2
            end).
Proof.
  destruct direction; unfold targetAngleOf, Math_PI; cbn [neg];
    rewrite div_finite by lra; reflexivity.
Qed.

Lemma currentAngleOf_done (target d e : R) :
  timed d e ->
  (progressOf (Finite d) (Finite e) <? Finite 1)%js = false ->
  currentAngleOf (Finite target) (Finite d) (Finite e) = Finite target.
Proof.
  intros Ht Hdone. unfold currentAngleOf.
  destruct (progressOf_timed d e Ht) as (p & Hp & Hle).
  rewrite Hp in *. apply ltb_finite_false in Hdone.
  assert (p = 1) as -> by lra.
  rewrite easeInOutCubic_one. cbn [mul]. f_equal. lra.
Qed.

Lemma currentAngleOf_finite (target d e : R) :
  timed d e ->
  exists a, currentAngleOf (Finite target) (Finite d) (Finite e) = Finite a.
Proof.
  intros Ht. unfold currentAngleOf.
  destruct (progressOf_timed d e Ht) as (p & -> & _).
  destruct (easeInOutCubic_finite p) as (q & -> & _).
  eexists. reflexivity.
Qed.




End ZeroDuration.

Module GuardFacts.
Import JS Three Cube Grid NumberFacts AnimationFacts ZeroDuration.
Local Open Scope R_scope.

Lemma animateSection_done axis sec targetAngle duration elapsed this :
  (progressOf duration elapsed <? Finite 1)%js = false ->
  snd (animateSection axis sec targetAngle duration elapsed this) = false
  /\ isRotating (fst (animateSection axis sec targetAngle duration elapsed this))
     = false
  /\ rotationAngle
       (fst (animateSection axis sec targetAngle duration elapsed this))
     = None.
Proof.
  intros Hdone. rewrite animateSection_unfold. cbv zeta. rewrite Hdone.
  repeat split.
Qed.

Lemma isRotating_rotateCubesAroundPivot pivot cubes axis angle this :
  isRotating (rotateCubesAroundPivot pivot cubes axis angle this)
  = isRotating this.
Proof. reflexivity. Qed.

Lemma isRotating_applyRotation axis sec angle this :
  isRotating (applyRotation axis sec angle this) = isRotating this.
Proof.
  unfold applyRotation. destruct (Nat.eqb _ 0); reflexivity.
Qed.

Lemma animateCube_flags axis targetAngle duration elapsed this :
  let r := animateCube axis targetAngle duration elapsed this in
  snd r = (progressOf duration elapsed <? Finite 1)%js
  /\ isRotating (fst r) = (if snd r then isRotating this else false).
Proof.
  cbv zeta. rewrite animateCube_unfold. cbv zeta.
  destruct (progressOf duration elapsed <? Finite 1)%js; split; reflexivity.
Qed.

Lemma animateSection_flags axis sec targetAngle duration elapsed this :
  let r := animateSection axis sec targetAngle duration elapsed this in
  snd r = (progressOf duration elapsed <? Finite 1)%js
  /\ isRotating (fst r) = (if snd r then isRotating this else false).
Proof.
  cbv zeta. rewrite animateSection_unfold. cbv zeta.
  destruct (progressOf duration elapsed <? Finite 1)%js; split;
    simpl; auto using isRotating_applyRotation.
Qed.

Lemma cube_rotate now axis sec direction duration callback w :
  cube (rotate now axis sec direction duration callback w) = cube w.
Proof. reflexivity. Qed.

Lemma cube_shuffleTurn pick now currentTurn turns w :
  cube (shuffleTurn pick now currentTurn turns w) = cube w.
Proof.
  unfold shuffleTurn. destruct (Nat.ltb currentTurn turns); [| reflexivity].
  destruct (pick currentTurn) as [[axis sec] direction]. reflexivity.
Qed.

Lemma runFrame_section_done pick now c startTime axis sec targetAngle duration
    callback w :
  (progressOf duration (snd (Clock_getElapsedTime now c) - startTime)%js
   <? Finite 1)%js = false ->
  cube (runFrame pick now
          (SectionFrame c startTime axis sec targetAngle duration callback) w)
  = fst (animateSection axis sec targetAngle duration
           (snd (Clock_getElapsedTime now c) - startTime)%js (cube w)).
Proof.
  intros Hdone. unfold runFrame.
  destruct (Clock_getElapsedTime now c) as [c' t] eqn:Hc. simpl in Hdone |- *.
  pose proof (animateSection_done axis sec targetAngle duration
                (t - startTime)%js (cube w) Hdone) as (Hs & _).
  destruct (animateSection _ _ _ _ _ _) as [this again]. simpl in *. subst again.
  destruct callback as [[currentTurn turns] |]; [| reflexivity].
  rewrite cube_shuffleTurn. reflexivity.
Qed.

(** C9.  The tick that ends a layer animation (progress not below 1) sets
    [isRotating] to false and [rotationAngle] to null whatever they were;
    [rotate] itself leaves the cube, and so [isRotating], untouched; hence
    when a layer animation, with or without the callback of a shuffle
    step, ends in a frame, the guard of [rotateCube] is open afterwards:
    the next call starts a whole-cube animation. *)
Theorem section_completion_releases_guard :
  (forall axis sec targetAngle duration elapsed this,
     (progressOf duration elapsed <? Finite 1)%js = false ->
     let r := animateSection axis sec targetAngle duration elapsed this in
     snd r = false /\ isRotating (fst r) = false
     /\ rotationAngle (fst r) = None)
  /\ (forall now axis sec direction duration callback w,
        cube (rotate now axis sec direction duration callback w) = cube w)
  /\ (forall pick now c startTime axis sec targetAngle duration callback w,
        (progressOf duration (snd (Clock_getElapsedTime now c) - startTime)%js
         <? Finite 1)%js = false ->
        let w' :=
          runFrame pick now
            (SectionFrame c startTime axis sec targetAngle duration callback)
            w in
        isRotating (cube w') = false /\ rotationAngle (cube w') = None
        /\ forall now' axis' direction' duration',
             let w'' := rotateCube now' axis' direction' duration' w' in
             isRotating (cube w'') = true
             /\ frameRequests w''
                = frameRequests w'
                  ++ [CubeFrame (clock now' (Finite 0)) (Finite 0) axis'
                        (targetAngleOf direction') duration']).
Proof.
  split; [| split].
  - intros. apply animateSection_done. assumption.
  - intros. apply cube_rotate.
  - intros pick now c startTime axis sec targetAngle duration callback w Hdone w'.
    pose proof (runFrame_section_done pick now c startTime axis sec targetAngle
                  duration callback w Hdone) as Hcube.
    fold w' in Hcube.
    pose proof (animateSection_done axis sec targetAngle duration _ (cube w)
                  Hdone) as (_ & Hrot & Hang).
    rewrite <- Hcube in Hrot, Hang.
    split; [exact Hrot |]. split; [exact Hang |].
    intros now' axis' direction' duration'. unfold rotateCube.
    rewrite Hrot. split; reflexivity.
Qed.

Lemma section_completion_releases_guard_witness :
  isRotating
    (fst (animateSection Y Sec1 (targetAngleOf clockwise) (Finite 500)
            (Finite 0.5) (set_isRotating true RubiksCube_new)))
  = false.
Proof.
  apply (proj1 section_completion_releases_guard Y Sec1
           (targetAngleOf clockwise) (Finite 500) (Finite 0.5)
           (set_isRotating true RubiksCube_new)).
  rewrite progressOf_positive by lra. apply ltb_ge.
  unfold Rmin. destruct (Rle_dec _ _); lra.
Defined.
End GuardFacts.

Module WholeCubeGuard.
Import JS Three Cube Grid NumberFacts AnimationFacts ZeroDuration GuardFacts.
Local Open Scope R_scope.

Lemma Clock_getElapsedTime_finite (now old el : R) :
  Clock_getElapsedTime (Finite now) (clock (Finite old) (Finite el))
  = (clock (Finite now) (Finite (el + (now - old) / 1000)),
     Finite (el + (now - old) / 1000)).
Proof.
  unfold Clock_getElapsedTime. cbn [oldTime elapsedTime sub add neg].
  rewrite div_finite by lra. reflexivity.
Qed.

Lemma runFrame_section pick now c startTime axis sec targetAngle duration
    callback w :
  runFrame pick now
    (SectionFrame c startTime axis sec targetAngle duration callback) w
  = let r :=
      animateSection axis sec targetAngle duration
        (snd (Clock_getElapsedTime now c) - startTime)%js (cube w) in
    if snd r then
      browser (fst r)
        (frameRequests w
         ++ [SectionFrame (fst (Clock_getElapsedTime now c)) startTime axis sec
               targetAngle duration callback])
    else
      match callback with
      | Some (nextShuffleTurn currentTurn turns) =>
          shuffleTurn pick now (S currentTurn) turns
            (browser (fst r) (frameRequests w))
      | None => browser (fst r) (frameRequests w)
      end.
Proof.
  unfold runFrame. destruct (Clock_getElapsedTime now c) as [c' t].
  cbn [fst snd]. destruct (animateSection _ _ _ _ _ _) as [this again].
  cbn [fst snd]. destruct again; reflexivity.
Qed.

Lemma runFrame_cube pick now c startTime axis targetAngle duration w :
  runFrame pick now (CubeFrame c startTime axis targetAngle duration) w
  = let r :=
      animateCube axis targetAngle duration
        (snd (Clock_getElapsedTime now c) - startTime)%js (cube w) in
    if snd r then
      browser (fst r)
        (frameRequests w
         ++ [CubeFrame (fst (Clock_getElapsedTime now c)) startTime axis
               targetAngle duration])
    else browser (fst r) (frameRequests w).
Proof.
  unfold runFrame. destruct (Clock_getElapsedTime now c) as [c' t].
  cbn [fst snd]. destruct (animateCube _ _ _ _ _) as [this again].
  cbn [fst snd]. destruct again; reflexivity.
Qed.

Lemma guard_closed now axis direction duration w :
  isRotating (cube w) = true -> rotateCube now axis direction duration w = w.
Proof. intros H. unfold rotateCube. rewrite H. reflexivity. Qed.

Lemma guarded_act pick w a : guarded w -> guarded (act pick w a).
Proof.
  intros Hg. destruct a as [now axis direction duration | now]; simpl.
  - unfold rotateCube. destruct (isRotating (cube w)) eqn:Hrot; [exact Hg |].
    destruct Hg as [Hnil | [Htrue _]]; [| congruence].
    right. split; [reflexivity |]. unfold animateCubeRotation. simpl.
    rewrite Hnil. repeat eexists.
  - unfold animationFrame.
    destruct Hg as [-> | (Hrot & c & st & axis & ta & d & ->)].
    + left. reflexivity.
    + cbn [foldl]. rewrite runFrame_cube. cbv zeta. cbn [cube frameRequests].
      pose proof (animateCube_flags axis ta d
                    (snd (Clock_getElapsedTime now c) - st)%js (cube w))
        as [_ Hflag]. cbv zeta in Hflag.
      destruct (snd (animateCube _ _ _ _ _)).
      * right. cbn [cube frameRequests]. split; [congruence |].
        repeat eexists.
      * left. reflexivity.
Qed.

Lemma guarded_cubeAnimations w :
  guarded w -> (length (cubeAnimations w) <= 1)%nat.
Proof.
  unfold cubeAnimations.
  intros [-> | (_ & c & st & axis & ta & d & ->)]; simpl; lia.
Qed.

(** The guard of [rotateCube], on its own.  Whenever [isRotating] is true
    a call to [rotateCube], whatever its arguments, is a no-op: no piece
    moves and no animation is requested.  In a run made of calls to
    [rotateCube] and of animation frames only, at most one whole-cube
    animation is in flight at any time. *)
Lemma rotateCube_guard :
  (forall now axis direction duration w,
     isRotating (cube w) = true ->
     rotateCube now axis direction duration w = w)
  /\ (forall pick (actions : list Action) w,
        guarded w ->
        guarded (foldl (act pick) w actions)
        /\ (length (cubeAnimations (foldl (act pick) w actions)) <= 1)%nat).
Proof.
  split; [exact guard_closed |].
  intros pick actions. induction actions as [| a actions IH]; intros w Hg.
  - split; [exact Hg | apply guarded_cubeAnimations, Hg].
  - simpl. apply IH, guarded_act, Hg.
Qed.

(** C6 fails on the code.  On a new cube, [rotate('y', 1, 'clockwise')] at
    the time 0, [rotateCube('x', 'clockwise')] at 100, the frame at 500 and
    [rotateCube('x', 'clockwise')] again: the frame ends the layer
    animation, whose last tick sets [isRotating] to false although [rotate]
    never set it, while the whole-cube animation is still in flight; the
    guard of the second [rotateCube] then passes, and two whole-cube
    animations are in flight. *)
Theorem two_cube_animations_in_flight :
  let pick := fun _ : nat => (X, Sec0, clockwise) in
  let w0 := browser RubiksCube_new [] in
  let w1 := rotate (Finite 0) Y Sec1 clockwise (Finite 500) None w0 in
  let w2 := rotateCube (Finite 100) X clockwise (Finite 500) w1 in
  let w3 := animationFrame pick (Finite 500) w2 in
  let w4 := rotateCube (Finite 500) X clockwise (Finite 500) w3 in
  length (cubeAnimations w2) = 1%nat
  /\ length (cubeAnimations w3) = 1%nat
  /\ length (cubeAnimations w4) = 2%nat.
Proof.
  intros pick w0 w1 w2 w3 w4.
  split; [reflexivity |].
  assert (exists this f,
            w3 = browser this [f] /\ isCubeFrame f = true
            /\ isRotating this = false) as (this & f & Hw3 & Hf & Hrot).
  { assert (w2 = browser (set_isRotating true RubiksCube_new)
                   [SectionFrame (clock (Finite 0) (Finite 0)) (Finite 0) Y
                      Sec1 (targetAngleOf clockwise) (Finite 500) None;
                    CubeFrame (clock (Finite 100) (Finite 0)) (Finite 0) X
                      (targetAngleOf clockwise) (Finite 500)]) as Hw2
        by reflexivity.
    unfold w3, animationFrame. rewrite Hw2. cbn [foldl cube frameRequests].
    rewrite runFrame_section. cbv zeta.
    rewrite Clock_getElapsedTime_finite. cbn [fst snd sub add neg cube].
    pose proof (animateSection_flags Y Sec1 (targetAngleOf clockwise)
                  (Finite 500) (Finite (0 + (500 - 0) / 1000 + - 0))
                  (set_isRotating true RubiksCube_new)) as [Hs Hr].
    cbv zeta in Hs, Hr.
    rewrite progressOf_positive in Hs by lra.
    rewrite ltb_ge in Hs by (unfold Rmin; destruct (Rle_dec _ _); lra).
    rewrite Hs in Hr |- *. cbn [frameRequests].
    rewrite runFrame_cube. cbv zeta.
    rewrite Clock_getElapsedTime_finite. cbn [fst snd sub add neg cube].
    match goal with
    | |- context [animateCube ?a ?t ?d ?e ?s] =>
        pose proof (animateCube_flags a t d e s) as [Hs' Hr']
    end.
    cbv zeta in Hs', Hr'.
    rewrite progressOf_positive in Hs' by lra.
    rewrite ltb_lt in Hs' by (unfold Rmin; destruct (Rle_dec _ _); lra).
    rewrite Hs' in Hr' |- *. cbn [frameRequests app].
    eexists. eexists. split; [reflexivity |]. split; [reflexivity |].
    rewrite Hr'. exact Hr. }
  split.
  - rewrite Hw3. unfold cubeAnimations. simpl. rewrite Hf. reflexivity.
  - unfold w4. rewrite Hw3. unfold rotateCube. simpl. rewrite Hrot.
    unfold cubeAnimations. simpl. rewrite Hf. reflexivity.
Qed.
End WholeCubeGuard.
(** ** The store of pieces *)
Module StoreFacts.
Import JS Three Cube Grid.

(** mutating the pieces one reference after the other *)
Lemma lookup_foldl_alter {A : Type} (f : A -> A) (refs : list nat)
    (cs : list A) (j : nat) :
  NoDup refs ->
  foldl (fun cs i => alter f i cs) cs refs !! j
  = if decide (j ∈ refs) then f <$> cs !! j else cs !! j.
Proof.
  revert cs. induction refs as [| i refs IH]; intros cs Hnd.
  - simpl. destruct (decide (j ∈ [])) as [Hin | _]; [| reflexivity].
    inversion Hin.
  - apply NoDup_cons in Hnd as [Hi Hnd]. simpl. rewrite IH by assumption.
    rewrite list_lookup_alter.
    destruct (decide (i = j)) as [-> | Hne].
    + destruct (decide (j ∈ refs)); [contradiction |].
      destruct (decide (j ∈ j :: refs)) as [_ | Hn];
        [reflexivity | exfalso; apply Hn; left].
    + destruct (decide (j ∈ refs)) as [Hin | Hnin].
      * destruct (decide (j ∈ i :: refs)) as [_ | Hn];
          [reflexivity | exfalso; apply Hn; right; assumption].
      * destruct (decide (j ∈ i :: refs)) as [Hin |]; [| reflexivity].
        apply elem_of_cons in Hin as [? | ?]; [congruence | contradiction].
Qed.

(** what [pushSectionCubes] pushes *)
Lemma elem_of_pushSectionCubes cs k axis sec i :
  i ∈ pushSectionCubes cs k axis sec
  <-> exists c, (k <= i)%nat /\ cs !! (i - k)%nat = Some c
                /\ isInSection (position c) axis sec = true.
Proof.
  revert k. induction cs as [| c cs IH]; intros k; simpl.
  - split; [intros H; inversion H | intros (c & _ & H & _); discriminate].
  - assert (i ∈ pushSectionCubes cs (S k) axis sec
            <-> (exists c', (k <= i)%nat /\ (c :: cs) !! (i - k)%nat = Some c'
                            /\ isInSection (position c') axis sec = true)
                /\ i <> k) as Htail.
    { rewrite IH. split.
      - intros (c' & Hle & Hl & Hs). split; [| lia]. exists c'.
        split; [lia |]. split; [| assumption].
        replace (i - k)%nat with (S (i - S k)) by lia. exact Hl.
      - intros [(c' & Hle & Hl & Hs) Hne]. exists c'. split; [lia |].
        split; [| assumption].
        replace (i - k)%nat with (S (i - S k)) in Hl by lia. exact Hl. }
    destruct (isInSection (position c) axis sec) eqn:Hc.
    + rewrite elem_of_cons, Htail. split.
      * intros [-> | [H _]]; [| exact H]. exists c.
        rewrite Nat.sub_diag. auto.
      * intros H. destruct (decide (i = k)); [left; assumption | right; auto].
    + rewrite Htail. split; [intros [H _]; exact H |].
      intros (c' & Hle & Hl & Hs). split; [eauto |].
      intros ->. rewrite Nat.sub_diag in Hl. simpl in Hl. congruence.
Qed.

Lemma NoDup_pushSectionCubes cs k axis sec :
  NoDup (pushSectionCubes cs k axis sec).
Proof.
  revert k. induction cs as [| c cs IH]; intros k; simpl; [constructor |].
  destruct (isInSection (position c) axis sec); [| apply IH].
  constructor; [| apply IH].
  rewrite elem_of_pushSectionCubes. intros (? & Hle & _). lia.
Qed.

(** the pieces a list of references designates, in order *)
Lemma lookup_pushSectionCubes pre cs axis sec :
  omap (fun i => (pre ++ cs) !! i)
    (pushSectionCubes cs (length pre) axis sec)
  = List.filter (fun c => isInSection (position c) axis sec) cs.
Proof.
  revert pre. induction cs as [| c cs IH]; intros pre; simpl; [reflexivity |].
  specialize (IH (pre ++ [c])). rewrite length_app, Nat.add_1_r in IH.
  rewrite <- app_assoc in IH. simpl in IH.
  destruct (isInSection (position c) axis sec); [| exact IH].
  simpl. rewrite lookup_app_r by lia. rewrite Nat.sub_diag. simpl.
  f_equal. exact IH.
Qed.

Lemma length_pushSectionCubes cs k axis sec :
  length (pushSectionCubes cs k axis sec)
  = length (List.filter (fun c => isInSection (position c) axis sec) cs).
Proof.
  revert k. induction cs as [| c cs IH]; intros k; simpl; [reflexivity |].
  destruct (isInSection (position c) axis sec); simpl; rewrite IH; reflexivity.
Qed.

Lemma lookup_seq_from {A} (pre cs : list A) :
  omap (fun i => (pre ++ cs) !! i) (seq (length pre) (length cs)) = cs.
Proof.
  revert pre. induction cs as [| c cs IH]; intros pre; simpl; [reflexivity |].
  rewrite lookup_app_r by lia. rewrite Nat.sub_diag. simpl. f_equal.
  specialize (IH (pre ++ [c])). rewrite length_app, Nat.add_1_r in IH.
  rewrite <- app_assoc in IH. exact IH.
Qed.

Lemma children_rotate_section pivot axis sec angle this :
  children (rotateCubesAroundPivot pivot (getSectionCubes this axis sec) axis
              angle this)
  = (fun c => if isInSection (position c) axis sec
              then rotateAroundPivot pivot axis angle c else c)
    <$> children this.
Proof.
  unfold rotateCubesAroundPivot, getSectionCubes. cbn [children set_children].
  apply list_eq. intros j.
  rewrite lookup_foldl_alter by apply NoDup_pushSectionCubes.
  rewrite list_lookup_fmap.
  destruct (decide (j ∈ pushSectionCubes (children this) 0 axis sec))
    as [Hin | Hnin].
  - apply elem_of_pushSectionCubes in Hin as (c & _ & Hl & Hs).
    rewrite Nat.sub_0_r in Hl. rewrite Hl. simpl. rewrite Hs. reflexivity.
  - destruct (children this !! j) as [c |] eqn:Hl; [| reflexivity]. simpl.
    destruct (isInSection (position c) axis sec) eqn:Hs; [| reflexivity].
    exfalso. apply Hnin. apply elem_of_pushSectionCubes. exists c.
    rewrite Nat.sub_0_r. split; [lia | auto].
Qed.

Lemma children_rotate_all pivot axis angle this :
  children (rotateCubesAroundPivot pivot (seq 0 (length (children this))) axis
              angle this)
  = rotateAroundPivot pivot axis angle <$> children this.
Proof.
  unfold rotateCubesAroundPivot. cbn [children set_children].
  apply list_eq. intros j.
  rewrite lookup_foldl_alter by apply NoDup_seq.
  rewrite list_lookup_fmap.
  destruct (decide (j ∈ seq 0 (length (children this)))) as [Hin | Hnin];
    [reflexivity |].
  rewrite elem_of_seq in Hnin.
  rewrite lookup_ge_None_2 by lia. reflexivity.
Qed.

Lemma expandByCubes_objects this refs b :
  expandByCubes this refs b
  = foldl (Box3_expandByObject pieceGeometryBox) b
      (omap (fun i => children this !! i) refs).
Proof.
  unfold expandByCubes. revert b.
  induction refs as [| i refs IH]; intros b; simpl; [reflexivity |].
  rewrite IH. destruct (children this !! i); reflexivity.
Qed.

Lemma calculateGroupCenter_section this axis sec :
  calculateGroupCenter this (getSectionCubes this axis sec)
  = Box3_getCenter
      (foldl (Box3_expandByObject pieceGeometryBox) Box3_new
         (List.filter (fun c => isInSection (position c) axis sec)
            (children this))).
Proof.
  unfold calculateGroupCenter, getSectionCubes.
  rewrite expandByCubes_objects.
  do 2 f_equal. exact (lookup_pushSectionCubes [] (children this) axis sec).
Qed.

Lemma expandByCubes_all this b :
  expandByCubes this (seq 0 (length (children this))) b
  = foldl (Box3_expandByObject pieceGeometryBox) b (children this).
Proof.
  rewrite expandByCubes_objects.
  f_equal. exact (lookup_seq_from [] (children this)).
Qed.

End StoreFacts.
(** ** Rotations of finite pieces *)
Module TurnFacts.
Import JS Three Cube Grid NumberFacts.
Local Open Scope R_scope.

Ltac js_compute :=
  cbv [rotateAroundPivot applyMatrix4 turn Vector3_add Vector3_sub
       Vector3_multiplyScalar Matrix_apply Matrix_multiply makeRotationAxis
       axisVector axisPoint fobj fvec fmat position orientation
       vx vy vz m11 m12 m13 m21 m22 m23 m31 m32 m33
       r11 r12 r13 r21 r22 r23 r31 r32 r33 RMatrix_mul rotation
       turnedX turnedY turnedZ zero one Math_cos Math_sin add sub mul neg].

Ltac fields_eq :=
  repeat match goal with
    | |- @eq Object3D _ _ => f_equal
    | |- @eq Vector3 _ _ => f_equal
    | |- @eq Matrix _ _ => f_equal
    | |- @eq RMatrix _ _ => f_equal
    | |- @eq number (Finite _) (Finite _) => f_equal
    end.

Lemma rotateAroundPivot_fobj axis t a x y z m :
  rotateAroundPivot (axisPoint axis a) axis (Finite t) (fobj x y z m)
  = fobj (turnedX axis t x y z) (turnedY axis t x y z) (turnedZ axis t x y z)
      (RMatrix_mul (rotation axis t) m).
Proof.
  destruct axis, m; js_compute; fields_eq; ring.
Qed.

(** turning about the origin is turning about any point of the axis *)
Lemma turn_fobj axis t x y z m :
  turn axis t (fobj x y z m)
  = fobj (turnedX axis t x y z) (turnedY axis t x y z) (turnedZ axis t x y z)
      (RMatrix_mul (rotation axis t) m).
Proof.
  destruct axis, m; js_compute; fields_eq; ring.
Qed.

Lemma rotation_plus axis s t m :
  RMatrix_mul (rotation axis t) (RMatrix_mul (rotation axis s) m)
  = RMatrix_mul (rotation axis (s + t)) m.
Proof.
  destruct axis, m; js_compute; rewrite cos_plus, sin_plus;
    fields_eq; ring.
Qed.

Lemma turned_plus axis s t x y z :
  turnedX axis t (turnedX axis s x y z) (turnedY axis s x y z)
    (turnedZ axis s x y z) = turnedX axis (s + t) x y z
  /\ turnedY axis t (turnedX axis s x y z) (turnedY axis s x y z)
       (turnedZ axis s x y z) = turnedY axis (s + t) x y z
  /\ turnedZ axis t (turnedX axis s x y z) (turnedY axis s x y z)
       (turnedZ axis s x y z) = turnedZ axis (s + t) x y z.
Proof.
  destruct axis; js_compute; rewrite ?cos_plus, ?sin_plus;
    repeat split; ring.
Qed.

Lemma turn_turn axis s t a x y z m :
  rotateAroundPivot (axisPoint axis a) axis (Finite t)
    (turn axis s (fobj x y z m))
  = turn axis (s + t) (fobj x y z m).
Proof.
  rewrite !turn_fobj, rotateAroundPivot_fobj, rotation_plus.
  destruct (turned_plus axis s t x y z) as (-> & -> & ->). reflexivity.
Qed.

Lemma turn_zero axis x y z m : turn axis 0 (fobj x y z m) = fobj x y z m.
Proof.
  rewrite turn_fobj. destruct axis, m; js_compute; rewrite cos_0, sin_0;
    fields_eq; ring.
Qed.

End TurnFacts.
(** ** Bounding boxes *)
Module BoxFacts.
Import JS Three Cube Grid NumberFacts TurnFacts.
Local Open Scope R_scope.

Lemma pieceGeometryBox_eq :
  pieceGeometryBox
  = box3 (fvec (- (1 / 2)) (- (1 / 2)) (- (1 / 2)))
         (fvec (1 / 2) (1 / 2) (1 / 2)).
Proof.
  unfold pieceGeometryBox, size. rewrite div_finite by lra. reflexivity.
Qed.

Lemma Rabs_ge_opp (x : R) : - x <= Rabs x.
Proof. rewrite <- Rabs_Ropp. apply Rle_abs. Qed.

(** every [op x y] of the goal, with the two bounds [l] and [r] give *)
Ltac pose_bounds op l r :=
  repeat match goal with
    | |- context [op ?x ?y] =>
        let m := fresh "m" in
        pose proof (l x y); pose proof (r x y);
        set (m := op x y) in *; clearbody m
    | _ : context [op ?x ?y] |- _ =>
        let m := fresh "m" in
        pose proof (l x y); pose proof (r x y);
        set (m := op x y) in *; clearbody m
    end.

(** the least and the greatest of the eight corners, on one coordinate *)
Lemma min_corners (a b c p : R) :
  Rmin (Rmin (Rmin (Rmin (Rmin (Rmin (Rmin
    (a * - (1 / 2) + b * - (1 / 2) + c * - (1 / 2) + p)
    (a * - (1 / 2) + b * - (1 / 2) + c * (1 / 2) + p))
    (a * - (1 / 2) + b * (1 / 2) + c * - (1 / 2) + p))
    (a * - (1 / 2) + b * (1 / 2) + c * (1 / 2) + p))
    (a * (1 / 2) + b * - (1 / 2) + c * - (1 / 2) + p))
    (a * (1 / 2) + b * - (1 / 2) + c * (1 / 2) + p))
    (a * (1 / 2) + b * (1 / 2) + c * - (1 / 2) + p))
    (a * (1 / 2) + b * (1 / 2) + c * (1 / 2) + p)
  = p - (Rabs a + Rabs b + Rabs c) / 2.
Proof.
  apply Rle_antisym.
  - pose_bounds Rmin Rmin_l Rmin_r.
    unfold Rabs; destruct (Rcase_abs a), (Rcase_abs b), (Rcase_abs c); lra.
  - pose proof (Rle_abs a). pose proof (Rle_abs b). pose proof (Rle_abs c).
    pose proof (Rabs_ge_opp a). pose proof (Rabs_ge_opp b).
    pose proof (Rabs_ge_opp c).
    repeat apply Rmin_glb; lra.
Qed.

Lemma max_corners (a b c p : R) :
  Rmax (Rmax (Rmax (Rmax (Rmax (Rmax (Rmax
    (a * - (1 / 2) + b * - (1 / 2) + c * - (1 / 2) + p)
    (a * - (1 / 2) + b * - (1 / 2) + c * (1 / 2) + p))
    (a * - (1 / 2) + b * (1 / 2) + c * - (1 / 2) + p))
    (a * - (1 / 2) + b * (1 / 2) + c * (1 / 2) + p))
    (a * (1 / 2) + b * - (1 / 2) + c * - (1 / 2) + p))
    (a * (1 / 2) + b * - (1 / 2) + c * (1 / 2) + p))
    (a * (1 / 2) + b * (1 / 2) + c * - (1 / 2) + p))
    (a * (1 / 2) + b * (1 / 2) + c * (1 / 2) + p)
  = p + (Rabs a + Rabs b + Rabs c) / 2.
Proof.
  apply Rle_antisym.
  - pose proof (Rle_abs a). pose proof (Rle_abs b). pose proof (Rle_abs c).
    pose proof (Rabs_ge_opp a). pose proof (Rabs_ge_opp b).
    pose proof (Rabs_ge_opp c).
    repeat apply Rmax_lub; lra.
  - pose_bounds Rmax Rmax_l Rmax_r.
    unfold Rabs; destruct (Rcase_abs a), (Rcase_abs b), (Rcase_abs c); lra.
Qed.

Lemma finite_fobj x y z m : finite (fobj x y z m).
Proof. destruct m; reflexivity. Qed.

Lemma box_of_fobj x y z m :
  Box3_applyMatrix4 pieceGeometryBox (fobj x y z m)
  = box3 (fvec (x - halfWidth m) (y - halfHeight m) (z - halfDepth m))
         (fvec (x + halfWidth m) (y + halfHeight m) (z + halfDepth m)).
Proof.
  rewrite pieceGeometryBox_eq. unfold Box3_applyMatrix4, Box3_isEmpty.
  cbn [bmin bmax fvec vx vy vz]. rewrite !ltb_ge by lra. cbn [orb].
  destruct m.
  cbv [Box3_setFromPoints foldl map Box3_expandByPoint Box3_new toWorld
       Vector3_min Vector3_max Math_min Math_max bmin bmax
       Vector3_add Matrix_apply fobj fvec fmat position orientation
       vx vy vz m11 m12 m13 m21 m22 m23 m31 m32 m33
       r11 r12 r13 r21 r22 r23 r31 r32 r33 add mul
       halfWidth halfHeight halfDepth].
  rewrite !min_corners, !max_corners. reflexivity.
Qed.

Lemma box_of_finite o :
  finite o ->
  Box3_applyMatrix4 pieceGeometryBox o
  = box3 (fvec (loX o) (loY o) (loZ o)) (fvec (hiX o) (hiY o) (hiZ o)).
Proof. intros Hf. unfold finite in Hf. rewrite Hf at 1. apply box_of_fobj. Qed.

Lemma halfWidth_nonneg m : 0 <= halfWidth m.
Proof.
  unfold halfWidth. pose proof (Rabs_pos (r11 m)). pose proof (Rabs_pos (r12 m)).
  pose proof (Rabs_pos (r13 m)). lra.
Qed.

Lemma halfHeight_nonneg m : 0 <= halfHeight m.
Proof.
  unfold halfHeight. pose proof (Rabs_pos (r21 m)).
  pose proof (Rabs_pos (r22 m)). pose proof (Rabs_pos (r23 m)). lra.
Qed.

Lemma halfDepth_nonneg m : 0 <= halfDepth m.
Proof.
  unfold halfDepth. pose proof (Rabs_pos (r31 m)).
  pose proof (Rabs_pos (r32 m)). pose proof (Rabs_pos (r33 m)). lra.
Qed.

(** folds of [Rmin] and [Rmax] *)
Lemma foldl_Rmin_le (a : R) (l : list R) :
  foldl Rmin a l <= a /\ forall x, x ∈ l -> foldl Rmin a l <= x.
Proof.
  revert a. induction l as [| y l IH]; intros a; simpl.
  - split; [lra | intros x H; inversion H].
  - destruct (IH (Rmin a y)) as [H1 H2].
    pose proof (Rmin_l a y). pose proof (Rmin_r a y). split; [lra |].
    intros x Hx. apply elem_of_cons in Hx as [-> | Hx]; [lra | auto].
Qed.

Lemma foldl_Rmin_in (a : R) (l : list R) :
  foldl Rmin a l ∈ a :: l.
Proof.
  revert a. induction l as [| y l IH]; intros a; simpl; [left |].
  specialize (IH (Rmin a y)). apply elem_of_cons in IH as [-> | IH].
  - unfold Rmin. destruct (Rle_dec a y); [left | right; left].
  - right; right; assumption.
Qed.

Lemma foldl_Rmax_ge (a : R) (l : list R) :
  a <= foldl Rmax a l /\ forall x, x ∈ l -> x <= foldl Rmax a l.
Proof.
  revert a. induction l as [| y l IH]; intros a; simpl.
  - split; [lra | intros x H; inversion H].
  - destruct (IH (Rmax a y)) as [H1 H2].
    pose proof (Rmax_l a y). pose proof (Rmax_r a y). split; [lra |].
    intros x Hx. apply elem_of_cons in Hx as [-> | Hx]; [lra | auto].
Qed.

Lemma foldl_Rmax_in (a : R) (l : list R) :
  foldl Rmax a l ∈ a :: l.
Proof.
  revert a. induction l as [| y l IH]; intros a; simpl; [left |].
  specialize (IH (Rmax a y)). apply elem_of_cons in IH as [-> | IH].
  - unfold Rmax. destruct (Rle_dec a y); [right; left | left].
  - right; right; assumption.
Qed.


(** the box of a group of finite pieces *)
Lemma foldl_expand_finite (rest : list Object3D) (a b c a' b' c' : R) :
  Forall finite rest ->
  foldl (Box3_expandByObject pieceGeometryBox)
    (box3 (fvec a b c) (fvec a' b' c')) rest
  = box3 (fvec (foldl Rmin a (loX <$> rest)) (foldl Rmin b (loY <$> rest))
            (foldl Rmin c (loZ <$> rest)))
         (fvec (foldl Rmax a' (hiX <$> rest)) (foldl Rmax b' (hiY <$> rest))
            (foldl Rmax c' (hiZ <$> rest))).
Proof.
  revert a b c a' b' c'.
  induction rest as [| o rest IH]; intros a b c a' b' c' Hf; [reflexivity |].
  apply Forall_cons in Hf as [Ho Hf]. cbn [foldl fmap list_fmap].
  unfold Box3_expandByObject at 2. rewrite (box_of_finite o Ho).
  unfold Box3_union, Vector3_min, Vector3_max, fvec.
  cbn [bmin bmax vx vy vz Math_min Math_max].
  apply (IH _ _ _ _ _ _ Hf).
Qed.

Lemma group_box (o : Object3D) (rest : list Object3D) :
  finite o -> Forall finite rest ->
  foldl (Box3_expandByObject pieceGeometryBox) Box3_new (o :: rest)
  = box3 (fvec (foldl Rmin (loX o) (loX <$> rest))
            (foldl Rmin (loY o) (loY <$> rest))
            (foldl Rmin (loZ o) (loZ <$> rest)))
         (fvec (foldl Rmax (hiX o) (hiX <$> rest))
            (foldl Rmax (hiY o) (hiY <$> rest))
            (foldl Rmax (hiZ o) (hiZ <$> rest))).
Proof.
  intros Ho Hf. cbn [foldl]. unfold Box3_expandByObject at 2.
  rewrite (box_of_finite o Ho). unfold Box3_union, Box3_new.
  cbn [bmin bmax fvec vx vy vz Vector3_min Vector3_max Math_min Math_max].
  apply (foldl_expand_finite rest _ _ _ _ _ _ Hf).
Qed.

Lemma lo_le_hi (o : Object3D) :
  loX o <= hiX o /\ loY o <= hiY o /\ loZ o <= hiZ o.
Proof.
  unfold loX, hiX, loY, hiY, loZ, hiZ.
  pose proof (halfWidth_nonneg (rmatOf (orientation o))).
  pose proof (halfHeight_nonneg (rmatOf (orientation o))).
  pose proof (halfDepth_nonneg (rmatOf (orientation o))). lra.
Qed.

Lemma group_center (o : Object3D) (rest : list Object3D) :
  finite o -> Forall finite rest ->
  Box3_getCenter
    (foldl (Box3_expandByObject pieceGeometryBox) Box3_new (o :: rest))
  = fvec ((foldl Rmin (loX o) (loX <$> rest)
           + foldl Rmax (hiX o) (hiX <$> rest)) * (1 / 2))
         ((foldl Rmin (loY o) (loY <$> rest)
           + foldl Rmax (hiY o) (hiY <$> rest)) * (1 / 2))
         ((foldl Rmin (loZ o) (loZ <$> rest)
           + foldl Rmax (hiZ o) (hiZ <$> rest)) * (1 / 2)).
Proof.
  intros Ho Hf. rewrite (group_box o rest Ho Hf).
  unfold Box3_getCenter, Box3_isEmpty. cbn [bmin bmax fvec vx vy vz].
  destruct (lo_le_hi o) as (Hx & Hy & Hz).
  pose proof (proj1 (foldl_Rmin_le (loX o) (loX <$> rest))).
  pose proof (proj1 (foldl_Rmin_le (loY o) (loY <$> rest))).
  pose proof (proj1 (foldl_Rmin_le (loZ o) (loZ <$> rest))).
  pose proof (proj1 (foldl_Rmax_ge (hiX o) (hiX <$> rest))).
  pose proof (proj1 (foldl_Rmax_ge (hiY o) (hiY <$> rest))).
  pose proof (proj1 (foldl_Rmax_ge (hiZ o) (hiZ <$> rest))).
  rewrite !ltb_ge by lra. reflexivity.
Qed.

Lemma balanced_center (p lo hi : Object3D -> R) (o : Object3D)
    (rest : list Object3D) :
  balanced p lo hi (o :: rest) ->
  foldl Rmin (lo o) (lo <$> rest) + foldl Rmax (hi o) (hi <$> rest) = 0.
Proof.
  intros (h & Hh & Hmirror).
  assert (forall x, x ∈ lo o :: (lo <$> rest) ->
                    exists o1, o1 ∈ o :: rest /\ x = lo o1) as Hlo.
  { intros x Hx. change (x ∈ lo <$> (o :: rest)) in Hx.
    apply list_elem_of_fmap in Hx as (o1 & -> & Ho1). eauto. }
  assert (forall x, x ∈ hi o :: (hi <$> rest) ->
                    exists o1, o1 ∈ o :: rest /\ x = hi o1) as Hhi.
  { intros x Hx. change (x ∈ hi <$> (o :: rest)) in Hx.
    apply list_elem_of_fmap in Hx as (o1 & -> & Ho1). eauto. }
  assert (forall o1, o1 ∈ o :: rest ->
                     foldl Rmin (lo o) (lo <$> rest) <= lo o1) as Hmin.
  { intros o1 Ho1. destruct (foldl_Rmin_le (lo o) (lo <$> rest)) as [H1 H2].
    apply elem_of_cons in Ho1 as [-> | Ho1]; [exact H1 |].
    apply H2. apply list_elem_of_fmap. eauto. }
  assert (forall o1, o1 ∈ o :: rest ->
                     hi o1 <= foldl Rmax (hi o) (hi <$> rest)) as Hmax.
  { intros o1 Ho1. destruct (foldl_Rmax_ge (hi o) (hi <$> rest)) as [H1 H2].
    apply elem_of_cons in Ho1 as [-> | Ho1]; [exact H1 |].
    apply H2. apply list_elem_of_fmap. eauto. }
  destruct (Hlo _ (foldl_Rmin_in (lo o) (lo <$> rest))) as (o1 & Ho1 & E1).
  destruct (Hhi _ (foldl_Rmax_in (hi o) (hi <$> rest))) as (o2 & Ho2 & E2).
  destruct (Hmirror o1 Ho1) as (o1' & Ho1' & M1).
  destruct (Hmirror o2 Ho2) as (o2' & Ho2' & M2).
  pose proof (Hh o1 Ho1) as [? ?]. pose proof (Hh o2 Ho2) as [? ?].
  pose proof (Hh o1' Ho1') as [? ?]. pose proof (Hh o2' Ho2') as [? ?].
  pose proof (Hmax o1' Ho1'). pose proof (Hmin o2' Ho2'). lra.
Qed.

Lemma center_on_axis (axis : Axis) (o : Object3D) (rest : list Object3D) :
  finite o -> Forall finite rest -> balancedAbout axis (o :: rest) ->
  exists a,
    Box3_getCenter
      (foldl (Box3_expandByObject pieceGeometryBox) Box3_new (o :: rest))
    = axisPoint axis a.
Proof.
  intros Ho Hf Hb. rewrite (group_center o rest Ho Hf).
  destruct axis; destruct Hb as [H1 H2];
    apply balanced_center in H1; apply balanced_center in H2;
    rewrite H1, H2; eexists; unfold axisPoint; fields_eq;
    try reflexivity; lra.
Qed.

End BoxFacts.
(** ** Axis-aligned orientations *)
Module AlignFacts.
Import JS Three Cube Grid NumberFacts TurnFacts BoxFacts.
Local Open Scope R_scope.

Lemma RMatrix_mul_assoc a b c :
  RMatrix_mul a (RMatrix_mul b c) = RMatrix_mul (RMatrix_mul a b) c.
Proof. destruct a, b, c; js_compute; fields_eq; ring. Qed.

Lemma RMatrix_mul_identity a : RMatrix_mul a RMatrix_identity = a.
Proof. destruct a; cbv [RMatrix_mul RMatrix_identity r11 r12 r13 r21 r22 r23 r31 r32 r33]; fields_eq; ring. Qed.

Lemma RMatrix_mul_quarter m axis direction :
  RMatrix_mul m (quarterTurn axis direction) = quarterCols axis direction m.
Proof.
  destruct axis, direction, m;
    cbv [RMatrix_mul quarterTurn quarterCols
         r11 r12 r13 r21 r22 r23 r31 r32 r33];
    fields_eq; ring.
Qed.

Lemma half_quarterCols m axis direction :
  halfWidth (quarterCols axis direction m) = halfWidth m
  /\ halfHeight (quarterCols axis direction m) = halfHeight m
  /\ halfDepth (quarterCols axis direction m) = halfDepth m.
Proof.
  destruct axis, direction, m;
    cbv [halfWidth halfHeight halfDepth quarterCols
         r11 r12 r13 r21 r22 r23 r31 r32 r33];
    rewrite ?Rabs_Ropp; repeat split; lra.
Qed.

(** an aligned orientation does not change the box of what it is turned by *)
Lemma half_aligned m :
  aligned m ->
  forall a,
    halfWidth (RMatrix_mul a m) = halfWidth a
    /\ halfHeight (RMatrix_mul a m) = halfHeight a
    /\ halfDepth (RMatrix_mul a m) = halfDepth a.
Proof.
  induction 1 as [| axis direction m Hm IH]; intros a.
  - rewrite RMatrix_mul_identity. auto.
  - rewrite RMatrix_mul_assoc.
    destruct (IH (RMatrix_mul a (quarterTurn axis direction)))
      as (-> & -> & ->).
    rewrite RMatrix_mul_quarter. apply half_quarterCols.
Qed.

Lemma rmatOf_fmat m : rmatOf (fmat m) = m.
Proof. destruct m; reflexivity. Qed.

End AlignFacts.
(** ** Pieces on the grid *)
Module GridFacts.
Import JS Three Cube Grid NumberFacts TurnFacts BoxFacts AlignFacts.
Local Open Scope R_scope.

Lemma elem_of_grid (v : Vector3) :
  v ∈ grid <-> exists x y z, v = fvec x y z /\ coord x /\ coord y /\ coord z.
Proof.
  unfold grid, coord. split.
  - intros H.
    apply list_elem_of_bind in H as (x & H & Hx).
    apply list_elem_of_bind in H as (y & H & Hy).
    apply list_elem_of_bind in H as (z & H & Hz).
    apply list_elem_of_singleton in H as ->.
    exists x, y, z. split; [reflexivity |].
    rewrite !elem_of_cons, elem_of_nil in Hx, Hy, Hz. tauto.
  - intros (x & y & z & -> & Hx & Hy & Hz).
    apply list_elem_of_bind. exists x. split.
    2: { rewrite !elem_of_cons. tauto. }
    apply list_elem_of_bind. exists y. split.
    2: { rewrite !elem_of_cons. tauto. }
    apply list_elem_of_bind. exists z. split.
    2: { rewrite !elem_of_cons. tauto. }
    apply list_elem_of_singleton. reflexivity.
Qed.

(** a piece of a solid cube *)
Lemma solid_piece cs o :
  solid cs -> o ∈ cs ->
  exists x y z m,
    o = fobj x y z m /\ coord x /\ coord y /\ coord z /\ aligned m.
Proof.
  intros [Hg Hu] Ho.
  assert (position o ∈ grid) as Hp.
  { unfold on_grid in Hg. rewrite <- Hg. apply list_elem_of_fmap. eauto. }
  apply elem_of_grid in Hp as (x & y & z & Hp & Hx & Hy & Hz).
  rewrite Forall_forall in Hu. destruct (Hu o Ho) as (m & Hm & Hor).
  exists x, y, z, m. repeat split; try assumption.
  destruct o as [p r]. simpl in *. subst. reflexivity.
Qed.

Lemma solid_finite cs : solid cs -> Forall finite cs.
Proof.
  intros Hs. apply Forall_forall. intros o Ho.
  destruct (solid_piece cs o Hs Ho) as (x & y & z & m & -> & _).
  apply finite_fobj.
Qed.

(** the coordinate along the axis is the one a turn keeps *)
Lemma component_turn axis t x y z m :
  component (position (turn axis t (fobj x y z m))) axis
  = component (position (fobj x y z m)) axis.
Proof. rewrite turn_fobj. destruct axis; reflexivity. Qed.

Lemma selects_turn q axis t x y z m :
  selects q axis (turn axis t (fobj x y z m)) = selects q axis (fobj x y z m).
Proof. unfold selects. rewrite component_turn. reflexivity. Qed.

Lemma filter_turned q axis t cs :
  solid cs ->
  List.filter (selects q axis) (turned (selects q axis) axis t cs)
  = turn axis t <$> List.filter (selects q axis) cs.
Proof.
  intros Hs. unfold turned.
  assert (forall o, o ∈ cs -> exists x y z m, o = fobj x y z m) as Hfin.
  { intros o Ho. destruct (solid_piece cs o Hs Ho) as (x & y & z & m & H & _).
    eauto. }
  clear Hs. induction cs as [| c cs IH]; [reflexivity |].
  cbn [fmap list_fmap List.filter].
  destruct (Hfin c ltac:(left)) as (x & y & z & m & ->).
  destruct (selects q axis (fobj x y z m)) eqn:Hsel.
  - rewrite selects_turn, Hsel. cbn [fmap list_fmap]. f_equal.
    apply IH. intros o Ho. apply Hfin. right. exact Ho.
  - rewrite Hsel. apply IH. intros o Ho. apply Hfin. right. exact Ho.
Qed.

Lemma rotate_turned q axis s t a cs :
  solid cs ->
  (fun c => if selects q axis c
            then rotateAroundPivot (axisPoint axis a) axis (Finite t) c
            else c)
  <$> turned (selects q axis) axis s cs
  = turned (selects q axis) axis (s + t) cs.
Proof.
  intros Hs. unfold turned. rewrite <- list_fmap_compose.
  apply list_fmap_ext. intros i o Ho. cbn [compose].
  apply list_elem_of_lookup_2 in Ho.
  destruct (solid_piece cs o Hs Ho) as (x & y & z & m & -> & _).
  destruct (selects q axis (fobj x y z m)) eqn:Hsel.
  - rewrite selects_turn, Hsel. apply turn_turn.
  - rewrite Hsel. reflexivity.
Qed.

Lemma turned_nothing q axis t cs :
  List.filter (selects q axis) cs = [] ->
  turned (selects q axis) axis t cs = cs.
Proof.
  unfold turned. induction cs as [| c cs IH]; [reflexivity |].
  cbn [List.filter fmap list_fmap].
  destruct (selects q axis c); [discriminate |].
  intros H. f_equal. apply IH, H.
Qed.

Lemma turned_all axis t cs :
  turned (selects (fun _ => true) axis) axis t cs = turn axis t <$> cs.
Proof. reflexivity. Qed.

Lemma filter_all {A} (cs : list A) : List.filter (fun _ => true) cs = cs.
Proof. induction cs; simpl; congruence. Qed.

Lemma elem_of_filter_bool {A} (f : A -> bool) (l : list A) (x : A) :
  x ∈ List.filter f l <-> x ∈ l /\ f x = true.
Proof. rewrite !list_elem_of_In. apply filter_In. Qed.

Lemma coord_opp x : coord x -> coord (- x).
Proof. unfold coord. intros [-> | [-> | ->]]; lra. Qed.

Lemma selection_mirrored q axis cs :
  solid cs -> mirrored axis (List.filter (selects q axis) cs).
Proof.
  intros Hs o Ho. apply elem_of_filter_bool in Ho as [Ho Hsel].
  destruct (solid_piece cs o Hs Ho) as (x & y & z & m & -> & Hx & Hy & Hz & _).
  assert (exists x' y' z',
            fvec x' y' z' ∈ grid
            /\ component (fvec x' y' z') axis
               = component (fvec x y z) axis
            /\ match axis with
               | X => x' = x /\ y' = - y /\ z' = - z
               | Y => x' = - x /\ y' = y /\ z' = - z
               | Z => x' = - x /\ y' = - y /\ z' = z
               end) as (x' & y' & z' & Hin & Hc & Hm).
  { destruct axis;
      [exists x, (- y), (- z) | exists (- x), y, (- z) | exists (- x), (- y), z];
      (split; [| split; [reflexivity | auto]]);
      apply elem_of_grid; do 3 eexists; (split; [reflexivity |]);
      auto using coord_opp. }
  destruct Hs as [Hg _]. unfold on_grid in Hg. rewrite <- Hg in Hin.
  apply list_elem_of_fmap in Hin as (o' & Hp & Ho').
  exists o'. split.
  - apply elem_of_filter_bool. split; [exact Ho' |].
    unfold selects in *. rewrite <- Hp, Hc. exact Hsel.
  - unfold mirror, posX, posY, posZ. rewrite <- Hp.
    destruct axis; exact Hm.
Qed.

Lemma turned_balanced axis t base :
  (forall o, o ∈ base -> exists x y z m, o = fobj x y z m /\ aligned m) ->
  mirrored axis base ->
  balancedAbout axis (turn axis t <$> base).
Proof.
  intros Hfin Hmir.
  assert (forall p lo hi h,
            (forall x y z m, aligned m ->
               let o := turn axis t (fobj x y z m) in
               lo o = p o - h /\ hi o = p o + h) ->
            (forall x y z m x' y' z' m',
               mirror axis (fobj x y z m) (fobj x' y' z' m') ->
               p (turn axis t (fobj x' y' z' m'))
               = - p (turn axis t (fobj x y z m))) ->
            balanced p lo hi (turn axis t <$> base)) as Hbal.
  { intros p lo hi h Hh Hp. exists h. split.
    - intros o Ho. apply list_elem_of_fmap in Ho as (o0 & -> & Ho0).
      destruct (Hfin o0 Ho0) as (x & y & z & m & -> & Hm). apply Hh, Hm.
    - intros o Ho. apply list_elem_of_fmap in Ho as (o0 & -> & Ho0).
      destruct (Hmir o0 Ho0) as (o0' & Ho0' & Hmirror).
      destruct (Hfin o0 Ho0) as (x & y & z & m & -> & Hm).
      destruct (Hfin o0' Ho0') as (x' & y' & z' & m' & -> & Hm').
      exists (turn axis t (fobj x' y' z' m')). split.
      + apply list_elem_of_fmap. eauto.
      + eapply Hp, Hmirror. }
  assert (forall x y z m, aligned m ->
            let o := turn axis t (fobj x y z m) in
            loX o = posX o - halfWidth (rotation axis t)
            /\ hiX o = posX o + halfWidth (rotation axis t)
            /\ loY o = posY o - halfHeight (rotation axis t)
            /\ hiY o = posY o + halfHeight (rotation axis t)
            /\ loZ o = posZ o - halfDepth (rotation axis t)
            /\ hiZ o = posZ o + halfDepth (rotation axis t)) as Hext.
  { intros x y z m Hm o. unfold o. rewrite turn_fobj.
    unfold loX, hiX, loY, hiY, loZ, hiZ. cbn [orientation fobj].
    rewrite rmatOf_fmat.
    destruct (half_aligned m Hm (rotation axis t)) as (-> & -> & ->).
    repeat split. }
  assert (forall x y z m x' y' z' m',
            mirror axis (fobj x y z m) (fobj x' y' z' m') ->
            match axis with
            | X => posY (turn axis t (fobj x' y' z' m'))
                   = - posY (turn axis t (fobj x y z m))
                   /\ posZ (turn axis t (fobj x' y' z' m'))
                      = - posZ (turn axis t (fobj x y z m))
            | Y => posX (turn axis t (fobj x' y' z' m'))
                   = - posX (turn axis t (fobj x y z m))
                   /\ posZ (turn axis t (fobj x' y' z' m'))
                      = - posZ (turn axis t (fobj x y z m))
            | Z => posX (turn axis t (fobj x' y' z' m'))
                   = - posX (turn axis t (fobj x y z m))
                   /\ posY (turn axis t (fobj x' y' z' m'))
                      = - posY (turn axis t (fobj x y z m))
            end) as Hopp.
  { intros x y z m x' y' z' m' Hm. rewrite !turn_fobj.
    destruct axis; cbv [mirror posX posY posZ fobj fvec position vx vy vz real]
      in Hm |- *; destruct Hm as (-> & -> & ->);
      cbv [turnedX turnedY turnedZ]; split; ring. }
  destruct axis; split; eapply Hbal;
    try (intros x y z m Hm o; destruct (Hext x y z m Hm)
           as (? & ? & ? & ? & ? & ?); split; eassumption);
    intros x y z m x' y' z' m' Hm; apply (Hopp _ _ _ _ _ _ _ _ Hm).
Qed.

Lemma center_turned q axis t cs :
  solid cs -> List.filter (selects q axis) cs <> [] ->
  exists a,
    Box3_getCenter
      (foldl (Box3_expandByObject pieceGeometryBox) Box3_new
         (List.filter (selects q axis) (turned (selects q axis) axis t cs)))
    = axisPoint axis a.
Proof.
  intros Hs Hne. rewrite (filter_turned q axis t cs Hs).
  assert (forall o, o ∈ List.filter (selects q axis) cs ->
                    exists x y z m, o = fobj x y z m /\ aligned m) as Hfin.
  { intros o Ho. apply elem_of_filter_bool in Ho as [Ho _].
    destruct (solid_piece cs o Hs Ho) as (x & y & z & m & ? & _ & _ & _ & ?).
    eauto 6. }
  pose proof (turned_balanced axis t _ Hfin (selection_mirrored q axis cs Hs))
    as Hbal.
  assert (Forall finite (turn axis t <$> List.filter (selects q axis) cs))
    as Hall.
  { apply Forall_forall. intros o Ho.
    apply list_elem_of_fmap in Ho as (o0 & -> & Ho0).
    destruct (Hfin o0 Ho0) as (x & y & z & m & -> & _).
    rewrite turn_fobj. apply finite_fobj. }
  destruct (List.filter (selects q axis) cs) as [| o rest]; [congruence |].
  cbn [fmap list_fmap] in *. apply Forall_cons in Hall as [Ho Hrest].
  apply center_on_axis; assumption.
Qed.

End GridFacts.
(** ** One rotation step *)
Module StepFacts.
Import JS Three Cube Grid NumberFacts TurnFacts BoxFacts AlignFacts GridFacts
  StoreFacts.
Local Open Scope R_scope.

Lemma length_getSectionCubes this axis sec :
  length (getSectionCubes this axis sec)
  = length (List.filter (selects (sectionTest sec) axis) (children this)).
Proof. apply length_pushSectionCubes. Qed.

Lemma applyRotation_turned axis sec s t cs this :
  solid cs ->
  children this = turned (inLayer axis sec) axis s cs ->
  children (applyRotation axis sec (Finite t) this)
  = turned (inLayer axis sec) axis (s + t) cs.
Proof.
  intros Hs Hc. change (inLayer axis sec) with (selects (sectionTest sec) axis)
    in *.
  unfold applyRotation. cbv zeta. rewrite length_getSectionCubes.
  rewrite Hc, (filter_turned _ axis s cs Hs), length_fmap.
  destruct (List.filter (selects (sectionTest sec) axis) cs) as [| o rest]
    eqn:Hsel.
  - cbn [length Nat.eqb]. rewrite Hc.
    rewrite !turned_nothing by assumption. reflexivity.
  - cbn [length Nat.eqb]. rewrite children_rotate_section.
    unfold createPivot. rewrite calculateGroupCenter_section.
    change (fun c => isInSection (position c) axis sec)
      with (selects (sectionTest sec) axis).
    rewrite Hc.
    destruct (center_turned (sectionTest sec) axis s cs Hs) as (a & ->);
      [congruence |].
    exact (rotate_turned (sectionTest sec) axis s t a cs Hs).
Qed.

Lemma rotateEntireCube_turned axis s t cs this :
  solid cs -> cs <> [] ->
  children this = turn axis s <$> cs ->
  children (rotateEntireCube axis (Finite t) this) = turn axis (s + t) <$> cs.
Proof.
  intros Hs Hne Hc. unfold rotateEntireCube. cbv zeta.
  rewrite children_rotate_all, expandByCubes_all, Hc.
  pose proof (center_turned (fun _ => true) axis s cs Hs) as Hcenter.
  change (selects (fun _ : number => true) axis) with (fun _ : Object3D => true)
    in Hcenter.
  rewrite !filter_all in Hcenter. destruct (Hcenter Hne) as (a & Ha).
  change (turned (fun _ : Object3D => true) axis s cs)
    with (turn axis s <$> cs) in Ha.
  rewrite Ha.
  exact (rotate_turned (fun _ => true) axis s t a cs Hs).
Qed.

End StepFacts.
(** ** Quarter turns keep the cube solid *)
Module QuarterFacts.
Import JS Three Cube Grid NumberFacts TurnFacts BoxFacts AlignFacts GridFacts.
Local Open Scope R_scope.

Lemma grid_injZ : grid = injZ <$> gridZ.
Proof. reflexivity. Qed.

Lemma rotation_quarter axis direction :
  rotation axis (angleOf direction) = quarterTurn axis direction.
Proof.
  assert (cos (- PI / 2) = 0 /\ sin (- PI / 2) = -1) as [Hc Hs].
  { replace (- PI / 2) with (- (PI / 2)) by lra.
    rewrite cos_neg, sin_neg, cos_PI2, sin_PI2. split; lra. }
  destruct axis, direction; cbv [rotation angleOf quarterTurn];
    rewrite ?cos_PI2, ?sin_PI2, ?Hc, ?Hs; fields_eq; lra.
Qed.

Lemma turnPoint_injZ axis direction p :
  turnPoint axis (angleOf direction) (injZ p)
  = injZ (quarterTurnZ axis direction p).
Proof.
  destruct p as [[x y] z]. unfold turnPoint, injZ.
  change (object3D (fvec (IZR x) (IZR y) (IZR z)) Matrix_identity)
    with (fobj (IZR x) (IZR y) (IZR z) RMatrix_identity).
  rewrite turn_fobj. cbn [position fobj].
  assert (cos (- PI / 2) = 0 /\ sin (- PI / 2) = -1) as [Hc Hs].
  { replace (- PI / 2) with (- (PI / 2)) by lra.
    rewrite cos_neg, sin_neg, cos_PI2, sin_PI2. split; lra. }
  destruct axis, direction;
    cbv [turnedX turnedY turnedZ angleOf quarterTurnZ];
    rewrite ?cos_PI2, ?sin_PI2, ?Hc, ?Hs; unfold fvec; fields_eq;
    rewrite ?opp_IZR; lra.
Qed.

Lemma quarterTurnZ_grid (s : BinNums.Z -> bool) axis direction :
  (fun p => if s (componentZ p axis) then quarterTurnZ axis direction p else p)
  <$> gridZ ≡ₚ gridZ.
Proof.
  unfold gridZ. destruct axis, direction;
    cbn [mbind list_bind fmap list_fmap app mret list_ret componentZ];
    destruct (s (-1)%Z), (s 0%Z), (s 1%Z);
    apply (bool_decide_unpack _); vm_compute; exact I.
Qed.

Lemma position_turn axis t o :
  position (turn axis t o) = turnPoint axis t (position o).
Proof. destruct o. reflexivity. Qed.

Lemma component_injZ p axis :
  component (injZ p) axis = Finite (IZR (componentZ p axis)).
Proof. destruct p as [[x y] z], axis; reflexivity. Qed.

Lemma turned_quarter_on_grid q axis direction cs :
  on_grid cs -> on_grid (turned (selects q axis) axis (angleOf direction) cs).
Proof.
  unfold on_grid, turned. intros Hg.
  rewrite <- list_fmap_compose.
  rewrite (list_fmap_ext _
             ((fun v => if q (component v axis)
                        then turnPoint axis (angleOf direction) v else v)
              ∘ position)).
  2: { intros i o _. cbn [compose]. unfold selects.
       destruct (q (component (position o) axis)); [| reflexivity].
       apply position_turn. }
  rewrite list_fmap_compose, Hg, grid_injZ, <- list_fmap_compose.
  rewrite (list_fmap_ext _
             (injZ ∘ (fun p => if q (Finite (IZR (componentZ p axis)))
                               then quarterTurnZ axis direction p else p))).
  2: { intros i p _. cbn [compose]. rewrite component_injZ.
       destruct (q (Finite (IZR (componentZ p axis)))); [| reflexivity].
       apply turnPoint_injZ. }
  rewrite list_fmap_compose.
  rewrite (quarterTurnZ_grid (fun a => q (Finite (IZR a))) axis direction).
  reflexivity.
Qed.

Lemma turned_quarter_solid q axis direction cs :
  solid cs -> solid (turned (selects q axis) axis (angleOf direction) cs).
Proof.
  intros Hs. split; [apply turned_quarter_on_grid, Hs |].
  unfold turned. apply Forall_fmap, Forall_forall. intros o Ho. cbn [compose].
  destruct (solid_piece cs o Hs Ho) as (x & y & z & m & -> & _ & _ & _ & Hm).
  destruct (selects q axis (fobj x y z m)).
  - rewrite turn_fobj, rotation_quarter. eexists. split; [| reflexivity].
    apply aligned_turn, Hm.
  - exists m. split; [exact Hm | reflexivity].
Qed.

Lemma turned_zero q axis cs :
  solid cs -> turned (selects q axis) axis 0 cs = cs.
Proof.
  intros Hs. unfold turned. rewrite <- (list_fmap_id cs) at 2.
  apply list_fmap_ext. intros i o Ho. apply list_elem_of_lookup_2 in Ho.
  destruct (solid_piece cs o Hs Ho) as (x & y & z & m & -> & _).
  destruct (selects q axis (fobj x y z m)); [apply turn_zero | reflexivity].
Qed.

Lemma initCube_solid : solid initCube.
Proof.
  split.
  - unfold on_grid.
    assert (position <$> initCube = grid) as ->; [| reflexivity].
    unfold initCube, grid, size, range3, RubiksPiece_at.
    cbn [mbind list_bind fmap list_fmap app mret list_ret position mul].
    unfold fvec. repeat (f_equal; try (fields_eq; lra)).
  - apply Forall_forall. intros o Ho.
    exists RMatrix_identity. split; [constructor |].
    unfold initCube in Ho.
    repeat (apply list_elem_of_bind in Ho as (? & Ho & _)).
    apply list_elem_of_singleton in Ho as ->. reflexivity.
Qed.

End QuarterFacts.
(** ** Layer selection *)
Module Layers.
Import JS Three Cube Grid NumberFacts TurnFacts GridFacts StoreFacts StepFacts
  QuarterFacts.
Local Open Scope R_scope.

Lemma length_filter_Permutation {A} (f : A -> bool) (l l' : list A) :
  l ≡ₚ l' -> length (List.filter f l) = length (List.filter f l').
Proof.
  induction 1 as [| x l l' _ IH | x y l | l l' l'' _ IH1 _ IH2]; simpl.
  - reflexivity.
  - destruct (f x); simpl; rewrite IH; reflexivity.
  - destruct (f x), (f y); reflexivity.
  - rewrite IH1. exact IH2.
Qed.

Lemma filter_fmap_bool {A B} (g : A -> B) (f : B -> bool) (l : list A) :
  List.filter f (g <$> l) = g <$> List.filter (fun x => f (g x)) l.
Proof.
  induction l as [| x l IH]; [reflexivity |].
  cbn [fmap list_fmap List.filter].
  destruct (f (g x)); cbn [fmap list_fmap]; [f_equal |]; exact IH.
Qed.

Lemma sectionTest_coord sec x :
  coord x ->
  sectionTest sec (Finite x)
  = match sec with
    | Sec0 => if Req_dec_T x (-1) then true else false
    | Sec1 => if Req_dec_T x 0 then true else false
    | Sec2 => if Req_dec_T x 1 then true else false
    end.
Proof.
  intros Hx. destruct sec; unfold sectionTest, geb, gtb, leb, ltb, eqb;
    repeat destruct (Rlt_dec _ _); repeat destruct (Req_dec_T _ _);
    try reflexivity; exfalso; unfold coord in Hx; lra.
Qed.

Lemma sectionTest_disjoint sec sec' v :
  sectionTest sec v = true -> sectionTest sec' v = true -> sec = sec'.
Proof.
  destruct v as [| | x |], sec, sec'; try reflexivity; try discriminate;
    unfold sectionTest, geb, gtb, leb, ltb, eqb;
    repeat destruct (Rlt_dec _ _); repeat destruct (Req_dec_T _ _);
    simpl; try discriminate; intros; exfalso; lra.
Qed.

Lemma sectionTest_total x :
  coord x -> exists sec, sectionTest sec (Finite x) = true.
Proof.
  intros Hx. pose proof Hx as [-> | [-> | ->]];
    [exists Sec0 | exists Sec1 | exists Sec2];
    rewrite sectionTest_coord by assumption;
    destruct (Req_dec_T _ _); try reflexivity; lra.
Qed.

Lemma componentZ_grid p axis :
  p ∈ gridZ -> componentZ p axis ∈ [-1; 0; 1]%Z.
Proof.
  revert p. apply Forall_forall.
  destruct axis; apply (bool_decide_unpack _); vm_compute; exact I.
Qed.

Lemma sectionTest_IZR sec a :
  a ∈ [-1; 0; 1]%Z -> sectionTest sec (Finite (IZR a)) = sectionTestZ sec a.
Proof.
  intros Ha. rewrite sectionTest_coord.
  - rewrite !elem_of_cons, elem_of_nil in Ha.
    destruct Ha as [-> | [-> | [-> | []]]]; destruct sec;
      cbn [sectionTestZ Z.eqb]; destruct (Req_dec_T _ _);
      try reflexivity; exfalso; lra.
  - rewrite !elem_of_cons, elem_of_nil in Ha. unfold coord.
    destruct Ha as [-> | [-> | [-> | []]]]; auto.
Qed.

Lemma layer_of_grid axis sec :
  length (List.filter (fun v => sectionTest sec (component v axis)) grid)
  = 9%nat.
Proof.
  rewrite grid_injZ, filter_fmap_bool, length_fmap.
  rewrite (List.filter_ext_in _
             (fun p => sectionTestZ sec (componentZ p axis))).
  - destruct axis, sec; reflexivity.
  - intros p Hp. rewrite component_injZ. apply sectionTest_IZR.
    apply componentZ_grid, list_elem_of_In, Hp.
Qed.

Lemma elem_of_getSectionCubes this axis sec i :
  i ∈ getSectionCubes this axis sec
  <-> exists c, children this !! i = Some c
                /\ sectionTest sec (component (position c) axis) = true.
Proof.
  unfold getSectionCubes. rewrite elem_of_pushSectionCubes.
  rewrite Nat.sub_0_r. split.
  - intros (c & _ & Hl & Hs). eauto.
  - intros (c & Hl & Hs). exists c. split; [lia | auto].
Qed.

Lemma getSectionCubes_count this axis sec :
  on_grid (children this) -> length (getSectionCubes this axis sec) = 9%nat.
Proof.
  intros Hg. unfold on_grid in Hg. rewrite length_getSectionCubes.
  transitivity
    (length (List.filter (fun v => sectionTest sec (component v axis))
               (position <$> children this))).
  { rewrite filter_fmap_bool, length_fmap. reflexivity. }
  rewrite (length_filter_Permutation _ _ _ Hg). apply layer_of_grid.
Qed.

(** C2.  When the 27 pieces are at the grid positions, [getSectionCubes]
    returns exactly 9 pieces for every axis and section; for a fixed axis
    the three sections have no piece in common and together hold each of
    the 27 pieces once. *)
Theorem layers_partition (this : RubiksCube) (axis : Axis) :
  on_grid (children this) ->
  (forall sec, length (getSectionCubes this axis sec) = 9%nat)
  /\ (forall sec sec' i,
        i ∈ getSectionCubes this axis sec ->
        i ∈ getSectionCubes this axis sec' -> sec = sec')
  /\ getSectionCubes this axis Sec0 ++ getSectionCubes this axis Sec1
       ++ getSectionCubes this axis Sec2
     ≡ₚ seq 0 27.
Proof.
  intros Hg. unfold on_grid in Hg.
  assert (forall sec sec' i,
            i ∈ getSectionCubes this axis sec ->
            i ∈ getSectionCubes this axis sec' -> sec = sec') as Hdisj.
  { intros sec sec' i Hi Hi'.
    apply elem_of_getSectionCubes in Hi as (c & Hl & Hs).
    apply elem_of_getSectionCubes in Hi' as (c' & Hl' & Hs').
    assert (c' = c) as -> by congruence.
    eapply sectionTest_disjoint; eassumption. }
  assert (length (children this) = 27%nat) as Hlen.
  { rewrite <- (length_fmap position), Hg. reflexivity. }
  split; [| split; [exact Hdisj |]].
  - intros sec. apply getSectionCubes_count, Hg.
  - apply NoDup_Permutation.
    + rewrite !NoDup_app. repeat split;
        try apply NoDup_pushSectionCubes.
      * intros i Hi Hi'. apply elem_of_app in Hi' as [Hi' | Hi'];
          [pose proof (Hdisj _ _ _ Hi Hi') | pose proof (Hdisj _ _ _ Hi Hi')];
          discriminate.
      * intros i Hi Hi'. pose proof (Hdisj _ _ _ Hi Hi'). discriminate.
    + apply NoDup_seq.
    + intros i. rewrite !elem_of_app, !elem_of_getSectionCubes, elem_of_seq.
      split.
      * intros [(c & Hl & _) | [(c & Hl & _) | (c & Hl & _)]];
          apply lookup_lt_Some in Hl; lia.
      * intros [_ Hi]. destruct (lookup_lt_is_Some_2 (children this) i)
          as [c Hl]; [lia |].
        assert (position c ∈ grid) as Hp.
        { rewrite <- Hg. apply list_elem_of_fmap.
          exists c. split; [reflexivity |].
          eapply list_elem_of_lookup_2, Hl. }
        apply elem_of_grid in Hp as (x & y & z & Hp & Hx & Hy & Hz).
        assert (exists v, component (position c) axis = Finite v /\ coord v)
          as (v & Hv & Hcv).
        { rewrite Hp. destruct axis; eexists; (split; [reflexivity |]); auto. }
        destruct (sectionTest_total v Hcv) as ([| |] & Hsec);
          rewrite <- Hv in Hsec; eauto 6.
Qed.

Lemma layers_partition_witness :
  length (getSectionCubes RubiksCube_new Y Sec1) = 9%nat.
Proof.
  apply (layers_partition RubiksCube_new Y). apply initCube_solid.
Defined.

End Layers.
(** ** Whole animations *)
Module RunFacts.
Import JS Three Cube Grid NumberFacts TurnFacts GridFacts StoreFacts StepFacts
  QuarterFacts AnimationFacts ZeroDuration.
Local Open Scope R_scope.

Lemma tracks_nullish t angle :
  tracks t angle -> orZero_nullish angle = Finite t.
Proof. intros [[-> ->] | ->]; reflexivity. Qed.

Lemma tracks_falsy t angle :
  tracks t angle -> orZero_falsy angle = Finite t.
Proof.
  intros [[-> ->] | ->]; [reflexivity |]. unfold orZero_falsy, truthy.
  destruct (Req_dec_T t 0) as [-> |]; reflexivity.
Qed.

Lemma turned_ext sel axis s t cs :
  s = t -> turned sel axis s cs = turned sel axis t cs.
Proof. intros ->. reflexivity. Qed.

(** one tick of a layer animation *)
Lemma animateSection_turned axis sec target d e s cs this :
  solid cs -> timed d e ->
  children this = turned (inLayer axis sec) axis s cs ->
  tracks s (rotationAngle this) ->
  exists a,
    let r := animateSection axis sec (Finite target) (Finite d) (Finite e)
               this in
    children (fst r) = turned (inLayer axis sec) axis a cs
    /\ (snd r = true -> rotationAngle (fst r) = Some (Finite a))
    /\ (snd r = false -> a = target /\ rotationAngle (fst r) = None).
Proof.
  intros Hs Ht Hc Htr. rewrite animateSection_unfold. cbv zeta.
  destruct (currentAngleOf_finite target d e Ht) as (a & Ha).
  rewrite (tracks_nullish s _ Htr).
  pose proof (fun H => currentAngleOf_done target d e Ht H) as Hdone.
  rewrite Ha in *. cbn [add sub neg].
  pose proof (applyRotation_turned axis sec s (0 + a + - s) cs this Hs Hc)
    as Hstep.
  rewrite (turned_ext _ _ (s + (0 + a + - s)) a) in Hstep by lra.
  exists a.
  destruct (progressOf (Finite d) (Finite e) <? Finite 1)%js; cbn [fst snd].
  - split; [exact Hstep |]. split; [intros _ | discriminate].
    cbn [rotationAngle set_rotationAngle]. do 2 f_equal. lra.
  - split; [exact Hstep |]. split; [discriminate | intros _].
    split; [| reflexivity]. specialize (Hdone eq_refl). congruence.
Qed.

Lemma playSection_turned axis sec target d es s cs this :
  solid cs -> Forall (timed d) es ->
  children this = turned (inLayer axis sec) axis s cs ->
  tracks s (rotationAngle this) ->
  let r := playSection axis sec (Finite target) (Finite d) (Finite <$> es)
             this in
  snd r = false ->
  children (fst r) = turned (inLayer axis sec) axis target cs
  /\ rotationAngle (fst r) = None.
Proof.
  intros Hs Hes. revert s this.
  induction Hes as [| e es He Hes IH]; intros s this Hc Htr; cbv zeta.
  - discriminate.
  - cbn [fmap list_fmap playSection].
    destruct (animateSection_turned axis sec target d e s cs this Hs He Hc Htr)
      as (a & Ha). cbv zeta in Ha.
    destruct (animateSection axis sec (Finite target) (Finite d) (Finite e) this)
      as [this' again]. cbn [fst snd] in Ha.
    destruct Ha as (Hc' & Hrun & Hend). destruct again.
    + apply (IH a this' Hc'). right. auto.
    + intros _. cbn [fst]. destruct (Hend eq_refl) as [-> Hn]. auto.
Qed.

Lemma solid_nonempty cs : solid cs -> cs <> [].
Proof.
  intros [Hg _] ->. unfold on_grid in Hg.
  apply Permutation_length in Hg. discriminate.
Qed.

(** one tick of a whole-cube animation *)
Lemma animateCube_turned axis target d e s cs this :
  solid cs -> timed d e ->
  children this = turn axis s <$> cs ->
  tracks s (rotationAngle this) ->
  exists a,
    let r := animateCube axis (Finite target) (Finite d) (Finite e) this in
    children (fst r) = turn axis a <$> cs
    /\ (snd r = true -> rotationAngle (fst r) = Some (Finite a))
    /\ (snd r = false -> a = target /\ rotationAngle (fst r) = None).
Proof.
  intros Hs Ht Hc Htr. rewrite animateCube_unfold. cbv zeta.
  destruct (currentAngleOf_finite target d e Ht) as (a & Ha).
  rewrite (tracks_falsy s _ Htr).
  pose proof (fun H => currentAngleOf_done target d e Ht H) as Hdone.
  rewrite Ha in *. cbn [add sub neg].
  pose proof (rotateEntireCube_turned axis s (a + - s) cs this Hs
                (solid_nonempty cs Hs) Hc) as Hstep.
  replace (s + (a + - s)) with a in Hstep by lra.
  exists a.
  destruct (progressOf (Finite d) (Finite e) <? Finite 1)%js; cbn [fst snd].
  - split; [exact Hstep |]. split; [intros _; reflexivity | discriminate].
  - split; [exact Hstep |]. split; [discriminate | intros _].
    split; [| reflexivity]. specialize (Hdone eq_refl). congruence.
Qed.

Lemma playCube_turned axis target d es s cs this :
  solid cs -> Forall (timed d) es ->
  children this = turn axis s <$> cs ->
  tracks s (rotationAngle this) ->
  let r := playCube axis (Finite target) (Finite d) (Finite <$> es) this in
  snd r = false ->
  children (fst r) = turn axis target <$> cs
  /\ rotationAngle (fst r) = None.
Proof.
  intros Hs Hes. revert s this.
  induction Hes as [| e es He Hes IH]; intros s this Hc Htr; cbv zeta.
  - discriminate.
  - cbn [fmap list_fmap playCube].
    destruct (animateCube_turned axis target d e s cs this Hs He Hc Htr)
      as (a & Ha). cbv zeta in Ha.
    destruct (animateCube axis (Finite target) (Finite d) (Finite e) this)
      as [this' again]. cbn [fst snd] in Ha.
    destruct Ha as (Hc' & Hrun & Hend). destruct again.
    + apply (IH a this' Hc'). right. auto.
    + intros _. cbn [fst]. destruct (Hend eq_refl) as [-> Hn]. auto.
Qed.

(** an animation ends at the first reading that reaches the duration *)
Lemma progress_reached d e :
  timed d e -> d / 1000 <= e ->
  (progressOf (Finite d) (Finite e) <? Finite 1)%js = false.
Proof.
  intros [Hd | [-> He]] Hle.
  - rewrite progressOf_positive by assumption. apply ltb_ge.
    apply Rmin_glb; [| lra].
    apply Rmult_le_reg_r with (d / 1000); [lra |].
    unfold Rdiv at 2. rewrite Rmult_assoc, Rinv_l by lra. lra.
  - rewrite progressOf_zero_duration by assumption. apply ltb_ge. lra.
Qed.

End RunFacts.
(** ** Whole drags *)
Module DragSession.
Import JS Three Cube Grid NumberFacts TurnFacts GridFacts StoreFacts StepFacts
  QuarterFacts ClampFacts DragFacts RunFacts.
Local Open Scope R_scope.

Lemma applyRotation_children axis sec angle this :
  applyRotation axis sec angle this
  = set_children (children (applyRotation axis sec angle this)) this.
Proof.
  unfold applyRotation. cbv zeta.
  destruct (Nat.eqb _ 0); [destruct this |]; reflexivity.
Qed.

(** the clamped angle of [getRotationAngle] is a real number *)
Lemma clamped_angle_finite (delta : R) (maxDelta : number) :
  delta <> 0 -> maxDelta <> NaN ->
  exists a,
    Math_min
      (Math_max (((Finite delta / maxDelta) * Math_PI) / Finite 2)%js
         ((- Math_PI) / Finite 2)%js)
      (Math_PI / Finite 2)%js
    = Finite a.
Proof.
  intros Hd Hm. pose proof PI_RGT_0 as Hpi. unfold Math_PI. cbn [neg].
  rewrite !(div_finite _ 2) by lra.
  destruct maxDelta as [| | m |]; [congruence | | |].
  - change (Finite delta / NegInfinity)%js with (Finite 0). cbn [mul].
    rewrite div_finite by lra. eexists. reflexivity.
  - destruct (Req_dec_T m 0) as [-> | Hm0].
    + assert ((Finite delta / Finite 0)%js = inf_of_sign delta) as ->.
      { unfold div. destruct (Req_dec_T 0 0); [reflexivity | lra]. }
      unfold inf_of_sign. destruct (Req_dec_T delta 0); [contradiction |].
      destruct (Rlt_dec 0 delta).
      * change (Infinity * Finite PI)%js with (inf_of_sign PI).
        unfold inf_of_sign. destruct (Req_dec_T PI 0); [lra |].
        destruct (Rlt_dec 0 PI); [| lra].
        assert ((Infinity / Finite 2)%js = Infinity) as ->.
        { unfold div. destruct (Rlt_dec 2 0); [lra | reflexivity]. }
        eexists. reflexivity.
      * change (NegInfinity * Finite PI)%js with (inf_of_sign (- PI)).
        unfold inf_of_sign. destruct (Req_dec_T (- PI) 0); [lra |].
        destruct (Rlt_dec 0 (- PI)); [lra |].
        assert ((NegInfinity / Finite 2)%js = NegInfinity) as ->.
        { unfold div. destruct (Rlt_dec 2 0); [lra | reflexivity]. }
        eexists. reflexivity.
    + rewrite (div_finite delta m) by assumption. cbn [mul].
      rewrite div_finite by lra. eexists. reflexivity.
  - change (Finite delta / Infinity)%js with (Finite 0). cbn [mul].
    rewrite div_finite by lra. eexists. reflexivity.
Qed.

Lemma sub_not_NaN (a : number) (b : R) : a <> NaN -> (a - Finite b)%js <> NaN.
Proof. destruct a; cbn; congruence. Qed.

Lemma falsy_false_finite (v : option number) :
  falsy v = false -> exists n, v = Some n /\ n <> NaN /\ n <> Finite 0.
Proof.
  destruct v as [[| | x |] |]; cbn; try discriminate.
  - eexists. repeat split; congruence.
  - destruct (Req_dec_T x 0); [discriminate |]. intros _. eexists.
    repeat split; congruence.
  - eexists. repeat split; congruence.
Qed.

Lemma getRotationAngle_finite win dx dy sx sy this angle :
  dragStart this = dragStartAt (Some (Finite sx)) (Some (Finite sy)) ->
  getRotationAngle win (Finite dx) (Finite dy) this = Return angle ->
  exists a, angle = Finite a.
Proof.
  intros Hstart Hret.
  destruct (selectedFace this) as [face |] eqn:Hf,
           (rotationAxis this) as [axis |] eqn:Ha.
  2-4: unfold getRotationAngle in Hret; rewrite Hf, Ha in Hret;
       try destruct face; try destruct axis; cbn in Hret; discriminate.
  assert (face = axis \/ face <> axis) as [-> | Hne]
    by (destruct face, axis; (left; reflexivity) || (right; discriminate)).
  { unfold getRotationAngle in Hret. rewrite Hf, Ha, face_eqb_refl in Hret.
    discriminate. }
  rewrite (getRotationAngle_valid _ _ _ _ _ _ Hf Ha Hne) in Hret.
  destruct (falsy (Some (activeDelta face axis (Finite dx) (Finite dy))))
    eqn:F1; [discriminate |].
  destruct (falsy (Some (activeMax face axis win))) eqn:F2; [discriminate |].
  destruct (falsy (activeStart face axis this)) eqn:F3; [discriminate |].
  cbn [orb] in Hret. cbv zeta in Hret. injection Hret as <-.
  assert (exists d, activeDelta face axis (Finite dx) (Finite dy) = Finite d
                    /\ d <> 0) as (d & Hd & Hd0).
  { apply falsy_false_finite in F1 as (n & Hn & _ & Hn0).
    injection Hn as <-. unfold activeDelta in *.
    destruct (horizontalDrag face axis); [destruct (Axis_eqb face Y) |];
      cbn [neg] in *; eexists; (split; [reflexivity | congruence]). }
  assert (exists s, activeStart face axis this = Some (Finite s))
    as (s & Hstart').
  { unfold activeStart. rewrite Hstart.
    destruct (horizontalDrag face axis); eauto. }
  apply falsy_false_finite in F2 as (m & Hm & HmN & _). injection Hm as <-.
  rewrite Hd, Hstart'. cbn [default].
  apply clamped_angle_finite; [exact Hd0 |].
  unfold gtb, ltb. destruct (Rlt_dec 0 d);
    [apply sub_not_NaN, HmN | discriminate].
Qed.


Lemma onMouseMove_idle win ev this :
  isDragging this = false -> onMouseMove win ev this = Return this.
Proof. intros H. unfold onMouseMove. rewrite H. reflexivity. Qed.

Lemma setRotation_dragging win axis sec dx dy t cs this :
  solid cs ->
  dragging cs this ->
  isDragging this = true ->
  rotationAxis this = Some axis -> rotationSection this = Some sec ->
  rotationAngle this = Some (Finite t) ->
  children this = turned (inLayer axis sec) axis t cs ->
  dragging cs
    (dispatch (setRotation win axis sec (Finite dx) (Finite dy)) this).
Proof.
  intros Hs Hdrag Hd Hax Hsec Hang Hc.
  destruct Hdrag as [Hstart _].
  destruct (Hstart Hd) as (hit & sx & sy & Hhit & Hst).
  unfold dispatch, setRotation. rewrite Hang.
  destruct (getRotationAngle win (Finite dx) (Finite dy) this)
    as [angle | err] eqn:Hget; cbn [bind].
  2: { split; [exact Hstart |]. right. exists axis, sec, t. auto. }
  destruct (getRotationAngle_finite _ _ _ _ _ _ _ Hst Hget) as (a & ->).
  cbn [sub add neg].
  pose proof (applyRotation_turned axis sec t (a + - t) cs this Hs Hc) as Hstep.
  rewrite (turned_ext _ _ (t + (a + - t)) a) in Hstep by lra.
  rewrite applyRotation_children. rewrite Hstep. split.
  - intros _. exists hit, sx, sy. split; assumption.
  - right. exists axis, sec, a. repeat split; assumption.
Qed.

Lemma resolve_dragging (hit : Intersection) (horizontal : bool) cs this :
  solid cs ->
  dragging cs this ->
  rotationAxis this = None -> rotationSection this = None ->
  children this = cs ->
  let this1 := set_rotationAngle (Some (Finite 0)) this in
  let this2 :=
    if nonzero (vx <$> normal hit)
    then set_selectedFace (Some X)
           (set_rotationAxis (Some (if horizontal then Y else Z)) this1)
    else this1 in
  let this3 :=
    if nonzero (vy <$> normal hit)
    then set_selectedFace (Some Y)
           (set_rotationAxis (Some (if horizontal then Z else X)) this2)
    else this2 in
  let this4 :=
    if nonzero (vz <$> normal hit)
    then set_selectedFace (Some Z)
           (set_rotationAxis (Some (if horizontal then Y else X)) this3)
    else this3 in
  dragging cs
    (match
       match rotationAxis this4 with
       | Some axis =>
           Return (set_rotationSection
                     (Some (getSection (component (point hit) axis))) this4)
       | None => Return this4
       end
     with
     | Return this' => this'
     | Throw _ => this
     end).
Proof.
  intros Hs [Hstart _] Hax Hsec Hc. cbv zeta.
  destruct this as [cs' dr ds hi sf ra rs ang ir].
  cbn [rotationAxis rotationSection children isDragging initialIntersect
       dragStart] in *. subst ra rs cs'.
  assert (forall axis sec,
            cs = turned (inLayer axis sec) axis 0 cs) as Hzero.
  { intros axis sec. symmetry. apply (turned_zero (sectionTest sec)), Hs. }
  destruct (nonzero (vx <$> normal hit)), (nonzero (vy <$> normal hit)),
    (nonzero (vz <$> normal hit));
    cbn; (split; [exact Hstart |]);
    first [ left; repeat split; reflexivity
          | right; do 3 eexists; repeat split; apply Hzero ].
Qed.

Lemma onMouseMove_dragging win ev cs this :
  solid cs -> dragging cs this ->
  dragging cs (dispatch (onMouseMove win ev) this).
Proof.
  intros Hs Hdrag. destruct (isDragging this) eqn:Hd.
  2: { unfold dispatch. rewrite onMouseMove_idle by assumption. exact Hdrag. }
  pose proof Hdrag as [Hstart Hstate].
  destruct (Hstart Hd) as (hit & sx & sy & Hhit & Hst).
  unfold dispatch at 1.
  rewrite (onMouseMove_deltas _ _ _ _ _ _ Hd Hhit Hst). cbv zeta.
  destruct (Rlt_dec _ 10); [exact Hdrag |].
  destruct (Rlt_dec _ 10); [exact Hdrag |]. cbn [orb].
  destruct Hstate as [(Hax & Hsec & Hc) | (axis & sec & t & Hax & Hsec & Hang & Hc)].
  - rewrite Hax.
    exact (resolve_dragging hit _ cs this Hs Hdrag Hax Hsec Hc).
  - rewrite Hax, Hsec, Hang.
    apply (setRotation_dragging win axis sec _ _ t cs this); assumption.
Qed.

Lemma nearestClampDistance_snap (t : R) :
  exists c,
    nearestClampDistance (Finite t) = Finite (c - t)
    /\ (c = 0 \/ exists direction, c = angleOf direction).
Proof.
  rewrite nearestClampDistance_finite.
  repeat destruct (Rlt_dec _ _); eexists; (split; [reflexivity |]);
    first [ left; reflexivity
          | right; exists clockwise; reflexivity
          | right; exists counterclockwise; reflexivity ].
Qed.

Lemma snapped_solid axis sec c cs :
  solid cs -> c = 0 \/ (exists direction, c = angleOf direction) ->
  solid (turned (inLayer axis sec) axis c cs).
Proof.
  intros Hs [-> | (direction & ->)].
  - change (inLayer axis sec) with (selects (sectionTest sec) axis).
    rewrite turned_zero; assumption.
  - apply (turned_quarter_solid (sectionTest sec)), Hs.
Qed.

Lemma onMouseDown_dragging ev intersects this :
  idle this ->
  dragging (children this) (onMouseDown ev intersects this).
Proof.
  intros (Hd & Hax & Hsec & Hang). unfold onMouseDown.
  destruct intersects as [| hit rest].
  - split; [congruence |]. left. auto.
  - split.
    + intros _. exists hit, (clientX ev), (clientY ev). split; reflexivity.
    + left. cbn. auto.
Qed.

End DragSession.

(** ** Animations in the frame loop *)
Module FrameFacts.
Import JS Three Cube Grid NumberFacts AnimationFacts GuardFacts WholeCubeGuard.
Local Open Scope R_scope.

Lemma frames_cons pick w now nows :
  frames pick w (now :: nows) = frames pick (animationFrame pick now w) nows.
Proof. reflexivity. Qed.

Lemma frames_idle pick this nows :
  frames pick (browser this []) nows = browser this [].
Proof.
  induction nows as [| now nows IH]; [reflexivity |].
  rewrite frames_cons. exact IH.
Qed.

(** the frames of a layer animation without callback play it on the
    readings of its clock *)
Lemma frames_section pick nows c startTime axis sec targetAngle duration this :
  let r := playSection axis sec targetAngle duration
             (clockReadings c startTime nows) this in
  cube (frames pick
          (browser this
             [SectionFrame c startTime axis sec targetAngle duration None])
          nows) = fst r
  /\ (frameRequests
        (frames pick
           (browser this
              [SectionFrame c startTime axis sec targetAngle duration None])
           nows) = [] <-> snd r = false).
Proof.
  cbv zeta. revert c this.
  induction nows as [| now nows IH]; intros c this.
  - cbn. split; [reflexivity |]. split; discriminate.
  - rewrite frames_cons. cbn [clockReadings]. unfold animationFrame.
    cbn [cube frameRequests foldl]. rewrite runFrame_section. cbv zeta.
    cbn [cube frameRequests app].
    destruct (Clock_getElapsedTime now c) as [c' t]. cbn [fst snd playSection].
    destruct (animateSection axis sec targetAngle duration
                (t - startTime)%js this) as [this' again].
    cbn [fst snd]. destruct again.
    + apply (IH c' this').
    + rewrite frames_idle.
      cbn [fst snd cube frameRequests]. tauto.
Qed.

Lemma frames_cube pick nows c startTime axis targetAngle duration this :
  let r := playCube axis targetAngle duration
             (clockReadings c startTime nows) this in
  cube (frames pick
          (browser this [CubeFrame c startTime axis targetAngle duration])
          nows) = fst r
  /\ (frameRequests
        (frames pick
           (browser this [CubeFrame c startTime axis targetAngle duration])
           nows) = [] <-> snd r = false).
Proof.
  cbv zeta. revert c this.
  induction nows as [| now nows IH]; intros c this.
  - cbn. split; [reflexivity |]. split; discriminate.
  - rewrite frames_cons. cbn [clockReadings]. unfold animationFrame.
    cbn [cube frameRequests foldl]. rewrite runFrame_cube. cbv zeta.
    cbn [cube frameRequests app].
    destruct (Clock_getElapsedTime now c) as [c' t]. cbn [fst snd playCube].
    destruct (animateCube axis targetAngle duration (t - startTime)%js this)
      as [this' again].
    cbn [fst snd]. destruct again.
    + apply (IH c' this').
    + rewrite frames_idle.
      cbn [fst snd cube frameRequests]. tauto.
Qed.

Lemma clockReadings_finite old elapsed startTime nows :
  clockReadings (clock (Finite old) (Finite elapsed)) (Finite startTime)
    (Finite <$> nows)
  = Finite <$> realReadings old elapsed startTime nows.
Proof.
  revert old elapsed.
  induction nows as [| now nows IH]; intros old elapsed; [reflexivity |].
  cbn [fmap list_fmap clockReadings realReadings].
  rewrite Clock_getElapsedTime_finite. cbv zeta. cbn [fmap list_fmap].
  f_equal. apply IH.
Qed.

Lemma Forall_timed_positive d readings :
  0 < d -> Forall (timed d) readings.
Proof. intros Hd. apply Forall_forall. intros e _. left. exact Hd. Qed.

(** [rotate] on an idle frame queue, followed by the frames at [nows] *)
Lemma rotate_frames pick now axis sec direction d nows this :
  let w := frames pick
             (rotate (Finite now) axis sec direction (Finite d) None
                (browser this []))
             (Finite <$> nows) in
  let r := playSection axis sec (targetAngleOf direction) (Finite d)
             (Finite <$> realReadings now 0 0 nows) this in
  cube w = fst r /\ (frameRequests w = [] <-> snd r = false).
Proof.
  cbv zeta. rewrite <- clockReadings_finite.
  apply (frames_section pick (Finite <$> nows) (clock (Finite now) (Finite 0))
           (Finite 0) axis sec (targetAngleOf direction) (Finite d) this).
Qed.

(** [rotateCube] on an idle frame queue, followed by the frames at [nows] *)
Lemma rotateCube_frames pick now axis direction d nows this :
  isRotating this = false ->
  let w := frames pick
             (rotateCube (Finite now) axis direction (Finite d)
                (browser this []))
             (Finite <$> nows) in
  let r := playCube axis (targetAngleOf direction) (Finite d)
             (Finite <$> realReadings now 0 0 nows)
             (set_isRotating true this) in
  cube w = fst r /\ (frameRequests w = [] <-> snd r = false).
Proof.
  intros Hfree. cbv zeta. rewrite <- clockReadings_finite.
  unfold rotateCube. cbn [cube frameRequests]. rewrite Hfree. cbv zeta.
  apply (frames_cube pick (Finite <$> nows) (clock (Finite now) (Finite 0))
           (Finite 0) axis (targetAngleOf direction) (Finite d)
           (set_isRotating true this)).
Qed.

Lemma rotateCube_busy pick now axis direction d nows this :
  isRotating this = true ->
  frames pick (rotateCube now axis direction d (browser this [])) nows
  = browser this [].
Proof.
  intros Hbusy. unfold rotateCube. cbn [cube]. rewrite Hbusy.
  apply frames_idle.
Qed.

End FrameFacts.

(** ** The grid invariant *)
Module GridInvariant.
Import JS Three Cube Grid Moves NumberFacts TurnFacts AlignFacts GridFacts
  StoreFacts StepFacts QuarterFacts AnimationFacts ZeroDuration RunFacts
  DragSession Layers FrameFacts.
Local Open Scope R_scope.

(** what the animations leave alone *)
Lemma animateSection_session axis sec targetAngle duration elapsed this :
  let this' := fst (animateSection axis sec targetAngle duration elapsed this) in
  isDragging this' = isDragging this /\ rotationAxis this' = rotationAxis this
  /\ rotationSection this' = rotationSection this.
Proof.
  cbv zeta. rewrite animateSection_unfold. cbv zeta.
  rewrite applyRotation_children.
  destruct (progressOf duration elapsed <? Finite 1)%js; repeat split.
Qed.

Lemma animateCube_session axis targetAngle duration elapsed this :
  let this' := fst (animateCube axis targetAngle duration elapsed this) in
  isDragging this' = isDragging this /\ rotationAxis this' = rotationAxis this
  /\ rotationSection this' = rotationSection this.
Proof.
  cbv zeta. rewrite animateCube_unfold. cbv zeta.
  destruct (progressOf duration elapsed <? Finite 1)%js; repeat split.
Qed.

Lemma playSection_session axis sec targetAngle duration readings this :
  let this' :=
    fst (playSection axis sec targetAngle duration readings this) in
  isDragging this' = isDragging this /\ rotationAxis this' = rotationAxis this
  /\ rotationSection this' = rotationSection this.
Proof.
  cbv zeta. revert this.
  induction readings as [| t readings IH]; intros this; [repeat split |].
  cbn [playSection].
  pose proof (animateSection_session axis sec targetAngle duration t this)
    as Hs. cbv zeta in Hs.
  destruct (animateSection axis sec targetAngle duration t this)
    as [this' again]. cbn [fst] in Hs. destruct Hs as (H1 & H2 & H3).
  destruct again; [| cbn [fst]; auto].
  destruct (IH this') as (? & ? & ?). repeat split; congruence.
Qed.

Lemma playCube_session axis targetAngle duration readings this :
  let this' := fst (playCube axis targetAngle duration readings this) in
  isDragging this' = isDragging this /\ rotationAxis this' = rotationAxis this
  /\ rotationSection this' = rotationSection this.
Proof.
  cbv zeta. revert this.
  induction readings as [| t readings IH]; intros this; [repeat split |].
  cbn [playCube].
  pose proof (animateCube_session axis targetAngle duration t this) as Hs.
  cbv zeta in Hs.
  destruct (animateCube axis targetAngle duration t this) as [this' again].
  cbn [fst] in Hs. destruct Hs as (H1 & H2 & H3).
  destruct again; [| cbn [fst]; auto].
  destruct (IH this') as (? & ? & ?). repeat split; congruence.
Qed.

Lemma layer_rotation_solid this axis sec direction d readings :
  solid (children this) -> idle this -> Forall (timed d) readings ->
  let r := playSection axis sec (targetAngleOf direction) (Finite d)
             (Finite <$> readings) this in
  snd r = false ->
  children (fst r)
  = turned (inLayer axis sec) axis (angleOf direction) (children this)
  /\ solid (children (fst r)) /\ idle (fst r).
Proof.
  intros Hs (Hd & Hax & Hsec & Hang) Ht r Hdone. unfold r in *.
  rewrite targetAngleOf_finite in *.
  change (match direction with
          | clockwise => PI / 2
          | counterclockwise => - PI / 2
          end) with (angleOf direction) in *.
  destruct (playSection_turned axis sec (angleOf direction) d readings 0
              (children this) this Hs Ht) as [Hc Hnone]; try assumption.
  { symmetry. apply (turned_zero (sectionTest sec)), Hs. }
  { left. auto. }
  destruct (playSection_session axis sec (Finite (angleOf direction))
              (Finite d) (Finite <$> readings) this) as (H1 & H2 & H3).
  split; [exact Hc |]. split.
  - rewrite Hc. apply (turned_quarter_solid (sectionTest sec)), Hs.
  - repeat split; congruence.
Qed.

Lemma cube_rotation_solid this axis direction d readings :
  solid (children this) -> idle this -> Forall (timed d) readings ->
  let r := playCube axis (targetAngleOf direction) (Finite d)
             (Finite <$> readings) (set_isRotating true this) in
  snd r = false ->
  children (fst r) = turn axis (angleOf direction) <$> children this
  /\ solid (children (fst r)) /\ idle (fst r).
Proof.
  intros Hs (Hd & Hax & Hsec & Hang) Ht r Hdone. unfold r in *.
  rewrite targetAngleOf_finite in *.
  change (match direction with
          | clockwise => PI / 2
          | counterclockwise => - PI / 2
          end) with (angleOf direction) in *.
  destruct (playCube_turned axis (angleOf direction) d readings 0
              (children this) (set_isRotating true this) Hs Ht)
    as [Hc Hnone]; try assumption.
  { symmetry. apply (turned_zero (fun _ => true) axis), Hs. }
  { left. auto. }
  destruct (playCube_session axis (Finite (angleOf direction))
              (Finite d) (Finite <$> readings) (set_isRotating true this))
    as (H1 & H2 & H3).
  split; [exact Hc |]. split.
  - rewrite Hc. apply (turned_quarter_solid (fun _ => true) axis), Hs.
  - repeat split; try congruence.
    + rewrite H1. exact Hd.
    + rewrite H2. exact Hax.
    + rewrite H3. exact Hsec.
Qed.

Lemma idle_new : idle RubiksCube_new.
Proof. repeat split. Qed.

Lemma playSection_completes axis sec targetAngle d readings this :
  Forall (timed d) readings ->
  Exists (fun e => d / 1000 <= e) readings ->
  snd (playSection axis sec targetAngle (Finite d) (Finite <$> readings) this)
  = false.
Proof.
  intros Ht Hex. revert this.
  induction Ht as [| e readings He Ht IH]; intros this;
    [inversion Hex |].
  cbn [fmap list_fmap playSection].
  pose proof (GuardFacts.animateSection_flags axis sec targetAngle (Finite d)
                (Finite e) this) as [Hflag _]. cbv zeta in Hflag.
  destruct (animateSection axis sec targetAngle (Finite d) (Finite e) this)
    as [this' again]. cbn [snd] in Hflag. destruct again; [| reflexivity].
  apply Exists_cons in Hex as [Hreach | Hex]; [| apply IH, Hex].
  rewrite (progress_reached d e He Hreach) in Hflag. discriminate.
Qed.

(** a rotation by the angle NaN *)
Lemma rotateAroundPivot_NaN pivot axis cube :
  position (rotateAroundPivot pivot axis NaN cube) = vec3 NaN NaN NaN.
Proof. destruct axis; reflexivity. Qed.

Lemma applyRotation_NaN_new :
  exists c,
    children (applyRotation Y Sec1 NaN RubiksCube_new) !! 3%nat = Some c
    /\ position c = vec3 NaN NaN NaN.
Proof.
  unfold applyRotation. cbv zeta.
  rewrite getSectionCubes_count by apply initCube_solid. cbn [Nat.eqb].
  rewrite children_rotate_section, list_lookup_fmap.
  change (children RubiksCube_new) with initCube.
  assert (initCube !! 3%nat
          = Some (RubiksPiece_at (Finite (-1) * size) (Finite 0 * size)
                    (Finite (-1) * size))%js) as -> by reflexivity.
  cbn [fmap option_fmap option_map].
  assert (isInSection
            (position (RubiksPiece_at (Finite (-1) * size) (Finite 0 * size)
                         (Finite (-1) * size))%js) Y Sec1 = true) as ->.
  { unfold isInSection, size, geb. cbn [component position RubiksPiece_at vy mul].
    apply andb_true_iff. split; apply leb_finite; lra. }
  eexists. split; [reflexivity |]. apply rotateAroundPivot_NaN.
Qed.

Lemma not_on_grid_NaN cs i c :
  cs !! i = Some c -> position c = vec3 NaN NaN NaN -> ~ on_grid cs.
Proof.
  intros Hl Hp Hg. unfold on_grid in Hg.
  assert (position c ∈ grid) as Hin.
  { rewrite <- Hg. apply list_elem_of_fmap. exists c. split; [reflexivity |].
    eapply list_elem_of_lookup_2, Hl. }
  apply elem_of_grid in Hin as (x & y & z & Heq & _).
  rewrite Hp in Heq. discriminate.
Qed.

Lemma tick_at_zero_elapsed :
  animateSection Y Sec1 (targetAngleOf clockwise) (Finite 0) (Finite 0)
    RubiksCube_new
  = (set_rotationAngle None
       (set_isRotating false (applyRotation Y Sec1 NaN RubiksCube_new)),
     false)
  /\ exists c,
       children (set_rotationAngle None
                   (set_isRotating false
                      (applyRotation Y Sec1 NaN RubiksCube_new))) !! 3%nat
       = Some c
       /\ position c = vec3 NaN NaN NaN.
Proof.
  split; [| exact applyRotation_NaN_new].
  rewrite animateSection_unfold. cbv zeta.
  assert (currentAngleOf (targetAngleOf clockwise) (Finite 0) (Finite 0) = NaN)
    as ->.
  { unfold currentAngleOf. rewrite progressOf_zero_zero, targetAngleOf_finite.
    reflexivity. }
  rewrite progressOf_zero_zero. reflexivity.
Qed.

Lemma ticking_timed d e : ticking d e -> timed d e.
Proof. unfold ticking, timed. lra. Qed.

(** a layer rotation and a whole-cube rotation that start when no angle is
    tracked *)
Lemma layer_rotation_grid this axis sec direction d readings :
  solid (children this) -> rotationAngle this = None ->
  Forall (timed d) readings ->
  let r := playSection axis sec (targetAngleOf direction) (Finite d)
             (Finite <$> readings) this in
  snd r = false ->
  solid (children (fst r)) /\ rotationAngle (fst r) = None.
Proof.
  intros Hs Hang Ht r Hdone. unfold r in *.
  rewrite targetAngleOf_finite in *.
  change (match direction with
          | clockwise => PI / 2
          | counterclockwise => - PI / 2
          end) with (angleOf direction) in *.
  destruct (playSection_turned axis sec (angleOf direction) d readings 0
              (children this) this Hs Ht) as [Hc Hnone]; try assumption.
  { symmetry. apply (turned_zero (sectionTest sec)), Hs. }
  { left. auto. }
  split; [| exact Hnone].
  rewrite Hc. apply (turned_quarter_solid (sectionTest sec)), Hs.
Qed.

Lemma cube_rotation_grid this axis direction d readings :
  solid (children this) -> rotationAngle this = None ->
  Forall (timed d) readings ->
  let r := playCube axis (targetAngleOf direction) (Finite d)
             (Finite <$> readings) (set_isRotating true this) in
  snd r = false ->
  solid (children (fst r)) /\ rotationAngle (fst r) = None.
Proof.
  intros Hs Hang Ht r Hdone. unfold r in *.
  rewrite targetAngleOf_finite in *.
  change (match direction with
          | clockwise => PI / 2
          | counterclockwise => - PI / 2
          end) with (angleOf direction) in *.
  destruct (playCube_turned axis (angleOf direction) d readings 0
              (children this) (set_isRotating true this) Hs Ht)
    as [Hc Hnone]; try assumption.
  { symmetry. apply (turned_zero (fun _ => true) axis), Hs. }
  { left. auto. }
  split; [| exact Hnone].
  rewrite Hc. apply (turned_quarter_solid (fun _ => true) axis), Hs.
Qed.

(** a drag that begins with button down on the cube *)
Lemma onMouseDown_grabbed ev first rest this :
  rotationAngle this = None ->
  grabbed (children this) (onMouseDown ev (first :: rest) this).
Proof.
  intros Hang. unfold onMouseDown. split.
  - split; [reflexivity |]. exists first, (clientX ev), (clientY ev).
    split; reflexivity.
  - left. split; [| reflexivity]. right. right. exact Hang.
Qed.

Lemma setRotation_grabbed win axis sec dx dy t cs this :
  solid cs -> grabbed cs this ->
  rotationAxis this = Some axis -> rotationSection this = Some sec ->
  rotationAngle this = Some (Finite t) ->
  children this = turned (inLayer axis sec) axis t cs ->
  grabbed cs (dispatch (setRotation win axis sec (Finite dx) (Finite dy)) this).
Proof.
  intros Hs Hg Hax Hsec Hang Hc.
  destruct Hg as [[Hd (hit & sx & sy & Hhit & Hst)] _].
  unfold dispatch, setRotation. rewrite Hang.
  destruct (getRotationAngle win (Finite dx) (Finite dy) this)
    as [angle | err] eqn:Hget; cbn [bind].
  { destruct (getRotationAngle_finite _ _ _ _ _ _ _ Hst Hget) as (a & ->).
    cbn [sub add neg].
    pose proof (applyRotation_turned axis sec t (a + - t) cs this Hs Hc)
      as Hstep.
    rewrite (turned_ext _ _ (t + (a + - t)) a) in Hstep by lra.
    rewrite applyRotation_children, Hstep. split.
    - split; [exact Hd |]. exists hit, sx, sy. split; assumption.
    - right. exists axis, sec, a. repeat split; assumption. }
  split.
  - split; [exact Hd |]. exists hit, sx, sy. split; assumption.
  - right. exists axis, sec, t. auto.
Qed.

Lemma onMouseMove_grabbed win ev cs this :
  solid cs -> grabbed cs this ->
  grabbed cs (dispatch (onMouseMove win ev) this).
Proof.
  intros Hs Hg.
  pose proof Hg as [[Hd (hit & sx & sy & Hhit & Hst)] Hstate].
  unfold dispatch at 1.
  rewrite (DragFacts.onMouseMove_deltas _ _ _ _ _ _ Hd Hhit Hst). cbv zeta.
  destruct (Rlt_dec _ 10); [exact Hg |].
  destruct (Rlt_dec _ 10); [exact Hg |]. cbn [orb].
  destruct Hstate
    as [(Hnot & Hc) | (axis & sec & t & Hax & Hsec & Hang & Hc)].
  - assert (forall axis sec,
              cs = turned (inLayer axis sec) axis 0 cs) as Hzero.
    { intros axis sec. symmetry. apply (turned_zero (sectionTest sec)), Hs. }
    clear Hg. destruct this as [cs' dr ds hi sf ra rs ang ir].
    cbn [rotationAxis rotationSection rotationAngle children isDragging
         initialIntersect dragStart] in *. subst cs' dr.
    destruct ra as [ra |], rs as [rs |], ang as [ang |];
      try (exfalso; destruct Hnot as [H | [H | H]]; discriminate H);
      destruct (nonzero (vx <$> normal hit)), (nonzero (vy <$> normal hit)),
        (nonzero (vz <$> normal hit));
      cbn;
      (split; [split; [reflexivity | exists hit, sx, sy; split; assumption] |]);
      first [ right; do 3 eexists; repeat split; apply Hzero
            | left; split; [| reflexivity]; auto ].
  - rewrite Hax, Hsec, Hang.
    apply (setRotation_grabbed win axis sec _ _ t cs this); assumption.
Qed.

Lemma moved_grabbed win moves cs this :
  solid cs -> grabbed cs this ->
  grabbed cs
    (foldl (fun this ev => dispatch (onMouseMove win ev) this) this moves).
Proof.
  intros Hs. revert this.
  induction moves as [| ev moves IH]; intros this Hg; [exact Hg |].
  cbn [foldl]. apply IH, onMouseMove_grabbed; assumption.
Qed.

Lemma onMouseUp_grabbed cs this :
  solid cs -> grabbed cs this ->
  solid (children (onMouseUp this)) /\ idle (onMouseUp this).
Proof.
  intros Hs [_ Hstate]. unfold onMouseUp.
  destruct Hstate
    as [(Hnot & Hc) | (axis & sec & t & Hax & Hsec & Hang & Hc)].
  - cbn [rotationAxis rotationSection rotationAngle set_isDragging].
    destruct (rotationAxis this), (rotationSection this), (rotationAngle this);
      try (exfalso; destruct Hnot as [H | [H | H]]; discriminate H);
      (split; [cbn; rewrite Hc; exact Hs | repeat split]).
  - cbn [rotationAxis rotationSection rotationAngle set_isDragging].
    rewrite Hax, Hsec, Hang.
    destruct (nearestClampDistance_snap t) as (c & -> & Hsnap).
    pose proof (applyRotation_turned axis sec t (c - t) cs
                  (set_isDragging false this) Hs Hc) as Hstep.
    rewrite (turned_ext _ _ (t + (c - t)) c) in Hstep by lra.
    rewrite applyRotation_children, Hstep. split; [| repeat split].
    cbn. apply snapped_solid; assumption.
Qed.

Lemma drag_grid win down first rest moves this :
  solid (children this) -> rotationAngle this = None ->
  solid (children (drag win down (first :: rest) moves this))
  /\ idle (drag win down (first :: rest) moves this).
Proof.
  intros Hs Hang. unfold drag.
  apply (onMouseUp_grabbed (children this)); [exact Hs |].
  apply (moved_grabbed win moves); [exact Hs |].
  apply onMouseDown_grabbed, Hang.
Qed.

(** C1, as the code has it.  Take a cube whose 27 pieces are on the grid
    and axis-aligned and on which no rotation angle is tracked
    ([rotationAngle] is null).  Every completed rotation operation that runs
    on its own leaves the 27 pieces on the grid again, axis-aligned and
    with no angle tracked: a programmatic layer rotation and a whole-cube
    rotation none of whose ticks divides 0 by 0 (the divisor
    [duration / 1000] is positive, or it is 0 and the elapsed time of the
    tick is positive), and a drag from a button down that hits the cube,
    through its moves, to the release that applies the snap delta.  The two
    animations are stated for the ticks of the closure on any such clock
    readings, and for [rotate] and [rotateCube] called with no animation in
    flight and followed by the frames of the browser until no frame is
    requested. *)
Theorem rotations_keep_the_grid (this : RubiksCube) :
  solid (children this) -> rotationAngle this = None ->
  (forall axis sec direction d readings,
     Forall (ticking d) readings ->
     let r := playSection axis sec (targetAngleOf direction) (Finite d)
                (Finite <$> readings) this in
     snd r = false ->
     on_grid (children (fst r)) /\ solid (children (fst r))
     /\ rotationAngle (fst r) = None)
  /\ (forall axis direction d readings,
        Forall (ticking d) readings ->
        let r := playCube axis (targetAngleOf direction) (Finite d)
                   (Finite <$> readings) (set_isRotating true this) in
        snd r = false ->
        on_grid (children (fst r)) /\ solid (children (fst r))
        /\ rotationAngle (fst r) = None)
  /\ (forall pick now axis sec direction d nows,
        Forall (ticking d) (realReadings now 0 0 nows) ->
        let w := frames pick
                   (rotate (Finite now) axis sec direction (Finite d) None
                      (browser this []))
                   (Finite <$> nows) in
        frameRequests w = [] ->
        on_grid (children (cube w)) /\ solid (children (cube w))
        /\ rotationAngle (cube w) = None)
  /\ (forall pick now axis direction d nows,
        Forall (ticking d) (realReadings now 0 0 nows) ->
        let w := frames pick
                   (rotateCube (Finite now) axis direction (Finite d)
                      (browser this []))
                   (Finite <$> nows) in
        frameRequests w = [] ->
        on_grid (children (cube w)) /\ solid (children (cube w))
        /\ rotationAngle (cube w) = None)
  /\ (forall win down first rest moves,
        let this' := drag win down (first :: rest) moves this in
        on_grid (children this') /\ solid (children this') /\ idle this').
Proof.
  intros Hs Hang.
  assert (forall d readings,
            Forall (ticking d) readings -> Forall (timed d) readings) as Htick.
  { intros d readings H. eapply Forall_impl; [exact H |].
    intros e. apply ticking_timed. }
  split; [| split; [| split; [| split]]].
  - intros axis sec direction d readings Ht r Hdone.
    destruct (layer_rotation_grid this axis sec direction d readings Hs Hang
                (Htick _ _ Ht) Hdone) as (Hsolid & Hnone).
    split; [apply Hsolid | split; assumption].
  - intros axis direction d readings Ht r Hdone.
    destruct (cube_rotation_grid this axis direction d readings Hs Hang
                (Htick _ _ Ht) Hdone) as (Hsolid & Hnone).
    split; [apply Hsolid | split; assumption].
  - intros pick now axis sec direction d nows Ht w Hdone.
    destruct (rotate_frames pick now axis sec direction d nows this)
      as [Hcube Hq]. fold w in Hcube, Hq. apply Hq in Hdone.
    rewrite Hcube.
    destruct (layer_rotation_grid this axis sec direction d _ Hs Hang
                (Htick _ _ Ht) Hdone) as (Hsolid & Hnone).
    split; [apply Hsolid | split; assumption].
  - intros pick now axis direction d nows Ht w Hdone.
    destruct (isRotating this) eqn:Hbusy.
    + unfold w. rewrite rotateCube_busy by exact Hbusy. cbn [cube].
      split; [apply Hs | split; assumption].
    + destruct (rotateCube_frames pick now axis direction d nows this Hbusy)
        as [Hcube Hq]. fold w in Hcube, Hq. apply Hq in Hdone.
      rewrite Hcube.
      destruct (cube_rotation_grid this axis direction d _ Hs Hang
                  (Htick _ _ Ht) Hdone) as (Hsolid & Hnone).
      split; [apply Hsolid | split; assumption].
  - intros win down first rest moves this'.
    destruct (drag_grid win down first rest moves this Hs Hang)
      as (Hsolid & Hi).
    split; [apply Hsolid | split; assumption].
Qed.

Lemma rotations_keep_the_grid_witness :
  on_grid
    (children
       (fst (playSection Y Sec1 (targetAngleOf clockwise) (Finite 500)
               [Finite 0.1; Finite 0.5] RubiksCube_new))).
Proof.
  destruct (rotations_keep_the_grid RubiksCube_new initCube_solid eq_refl)
    as (Hlayer & _).
  assert (Forall (ticking 500) [0.1; 0.5]) as Ht.
  { constructor; [left; lra |]. constructor; [left; lra | constructor]. }
  apply (Hlayer Y Sec1 clockwise 500 [0.1; 0.5] Ht).
  apply playSection_completes.
  - constructor; [left; lra |]. constructor; [left; lra | constructor].
  - right. left. lra.
Defined.

(** A layer rotation of duration 0 whose first tick reads an elapsed time
    of exactly 0 divides 0 by 0: it completes, and leaves pieces at the
    position (NaN, NaN, NaN). *)
Lemma zero_duration_leaves_the_grid :
  let r := playSection Y Sec1 (targetAngleOf clockwise) (Finite 0) [Finite 0]
             RubiksCube_new in
  on_grid (children RubiksCube_new) /\ idle RubiksCube_new
  /\ snd r = false /\ ~ on_grid (children (fst r)).
Proof.
  cbv zeta. split; [apply initCube_solid |]. split; [apply idle_new |].
  cbn [playSection].
  destruct tick_at_zero_elapsed as (Htick & c & Hl & Hp).
  rewrite Htick. cbn [fst snd]. split; [reflexivity |].
  apply (not_on_grid_NaN _ 3%nat c); assumption.
Qed.

Lemma initCube_piece c :
  c ∈ initCube ->
  exists x y z, c = fobj x y z RMatrix_identity
                /\ coord x /\ coord y /\ coord z.
Proof.
  intros Hc.
  destruct (solid_piece initCube c initCube_solid Hc)
    as (x & y & z & m & -> & Hx & Hy & Hz & _).
  exists x, y, z. repeat split; try assumption.
  unfold initCube in Hc.
  repeat (apply list_elem_of_bind in Hc as (? & Hc & _)).
  apply list_elem_of_singleton in Hc.
  unfold RubiksPiece_at, fobj, fmat, Matrix_identity, one, zero in Hc.
  destruct m. cbn in Hc. injection Hc. intros. subst. reflexivity.
Qed.

Lemma quarter_turn_Y x y z :
  turn Y (PI / 2) (fobj x y z RMatrix_identity)
  = fobj z y (- x) (quarterTurn Y clockwise).
Proof.
  rewrite turn_fobj, RMatrix_mul_identity.
  change (PI / 2) with (angleOf clockwise). rewrite rotation_quarter.
  cbv [turnedX turnedY turnedZ angleOf]. rewrite cos_PI2, sin_PI2.
  unfold fobj, fvec. fields_eq; lra.
Qed.

(** C3, as the code has it.  On a new cube, [rotate('y', 1, 'clockwise', 0)]
    changes nothing by itself; the first animation frame, if the clock has
    advanced by then, completes the animation: the 9 pieces whose
    y-coordinate is in [-0.5, 0.5] go from (x, y, z) to (z, y, -x), a
    quarter turn about the y-axis, and take the orientation of that quarter
    turn; the other 18 pieces keep their position and orientation. *)
Theorem rotate_middle_layer (pick : nat -> Axis * section * Direction)
    (now now' : R) :
  now < now' ->
  let w1 :=
    rotate (Finite now) Y Sec1 clockwise (Finite 0) None
      (browser RubiksCube_new []) in
  let w2 := animationFrame pick (Finite now') w1 in
  cube w1 = RubiksCube_new
  /\ frameRequests w2 = []
  /\ isRotating (cube w2) = false /\ rotationAngle (cube w2) = None
  /\ length (List.filter (inLayer Y Sec1) initCube) = 9%nat
  /\ forall i c,
       initCube !! i = Some c ->
       (inLayer Y Sec1 c = true <-> -0.5 <= posY c <= 0.5)
       /\ children (cube w2) !! i
          = Some (if inLayer Y Sec1 c
                  then fobj (posZ c) (posY c) (- posX c)
                         (quarterTurn Y clockwise)
                  else c).
Proof.
  intros Hnow w1 w2. split; [reflexivity |].
  set (e := 0 + (now' - now) / 1000 + - 0).
  assert (0 < e) as He by (unfold e; lra).
  assert (w2 = browser
                 (fst (animateSection Y Sec1 (targetAngleOf clockwise)
                         (Finite 0) (Finite e) RubiksCube_new)) []) as Hw2.
  { unfold w2, w1, animationFrame, rotate, animateSectionRotation.
    cbn [Clock_start requestAnimationFrame frameRequests cube app foldl].
    rewrite WholeCubeGuard.runFrame_section. cbv zeta.
    rewrite WholeCubeGuard.Clock_getElapsedTime_finite.
    cbn [fst snd sub add neg cube frameRequests]. fold e.
    pose proof (GuardFacts.animateSection_flags Y Sec1
                  (targetAngleOf clockwise) (Finite 0) (Finite e)
                  RubiksCube_new) as [Hflag _]. cbv zeta in Hflag.
    rewrite progressOf_zero_duration in Hflag by assumption.
    rewrite ltb_ge in Hflag by lra. rewrite Hflag. reflexivity. }
  assert (timed 0 e) as Ht by (right; auto).
  destruct (layer_rotation_solid RubiksCube_new Y Sec1 clockwise 0 [e]
              initCube_solid idle_new) as (Hc & _ & _).
  { constructor; [exact Ht | constructor]. }
  { apply playSection_completes.
    - constructor; [exact Ht | constructor].
    - left. lra. }
  assert (fst (playSection Y Sec1 (targetAngleOf clockwise) (Finite 0)
                 (Finite <$> [e]) RubiksCube_new)
          = fst (animateSection Y Sec1 (targetAngleOf clockwise) (Finite 0)
                   (Finite e) RubiksCube_new)) as Hplay.
  { cbn [fmap list_fmap playSection].
    destruct (animateSection _ _ _ _ _ _) as [this' again].
    destruct again; reflexivity. }
  rewrite Hplay in Hc.
  pose proof (GuardFacts.animateSection_done Y Sec1 (targetAngleOf clockwise)
                (Finite 0) (Finite e) RubiksCube_new) as Hdone.
  rewrite progressOf_zero_duration in Hdone by assumption.
  destruct (Hdone ltac:(apply ltb_ge; lra)) as (_ & Hrot & Hang).
  rewrite Hw2. cbn [cube frameRequests].
  split; [reflexivity |]. split; [exact Hrot |]. split; [exact Hang |].
  split.
  { rewrite <- (getSectionCubes_count RubiksCube_new Y Sec1)
      by apply initCube_solid.
    symmetry. apply length_getSectionCubes. }
  intros i c Hi.
  destruct (initCube_piece c (list_elem_of_lookup_2 _ _ _ Hi))
    as (x & y & z & -> & _).
  split.
  - unfold inLayer, isInSection, posY, geb.
    cbn [component position fobj fvec vy real].
    rewrite andb_true_iff, !leb_finite. tauto.
  - rewrite Hc. unfold turned. rewrite list_lookup_fmap.
    change (children RubiksCube_new) with initCube. rewrite Hi.
    cbn [fmap option_fmap option_map]. f_equal.
    destruct (inLayer Y Sec1 (fobj x y z RMatrix_identity)); [| reflexivity].
    apply quarter_turn_Y.
Qed.

Lemma rotate_middle_layer_witness :
  frameRequests
    (animationFrame (fun _ => (X, Sec0, clockwise)) (Finite 1016)
       (rotate (Finite 1000) Y Sec1 clockwise (Finite 0) None
          (browser RubiksCube_new [])))
  = [].
Proof.
  apply (rotate_middle_layer (fun _ => (X, Sec0, clockwise)) 1000 1016).
  lra.
Defined.

(** C3 as stated fails when the first animation frame runs before the clock
    has advanced: the animation completes, but the piece that was at
    (-1, 0, -1), one of the 9, is at (NaN, NaN, NaN). *)
Lemma rotate_middle_layer_same_instant :
  let w1 :=
    rotate (Finite 1000) Y Sec1 clockwise (Finite 0) None
      (browser RubiksCube_new []) in
  let w2 := animationFrame (fun _ => (X, Sec0, clockwise)) (Finite 1000) w1 in
  frameRequests w2 = []
  /\ initCube !! 3%nat = Some (fobj (-1 * 1) (0 * 1) (-1 * 1) RMatrix_identity)
  /\ exists c,
       children (cube w2) !! 3%nat = Some c
       /\ position c = vec3 NaN NaN NaN.
Proof.
  intros w1 w2.
  destruct tick_at_zero_elapsed as (Htick & c & Hl & Hp).
  assert (w2 = browser
                 (fst (animateSection Y Sec1 (targetAngleOf clockwise)
                         (Finite 0) (Finite 0) RubiksCube_new)) []) as Hw2.
  { unfold w2, w1, animationFrame, rotate, animateSectionRotation.
    cbn [Clock_start requestAnimationFrame frameRequests cube app foldl].
    rewrite WholeCubeGuard.runFrame_section. cbv zeta.
    rewrite WholeCubeGuard.Clock_getElapsedTime_finite.
    cbn [fst snd sub add neg cube frameRequests].
    replace (0 + (1000 - 1000) / 1000 + - 0) with 0 by lra.
    rewrite Htick. reflexivity. }
  rewrite Hw2, Htick. cbn [cube frameRequests fst].
  split; [reflexivity |]. split; [reflexivity |]. eauto.
Qed.

End GridInvariant.

(** ** The easing curve *)
Module Easing.
Import JS Cube Grid NumberFacts.
Local Open Scope R_scope.


Lemma easeInOutCubic_high (t : R) :
  0.5 <= t ->
  easeInOutCubic (Finite t)
  = Finite (1 - (-2 * t + 2) * (-2 * t + 2) * (-2 * t + 2) / 2).
Proof.
  intros Ht. unfold easeInOutCubic. rewrite ltb_ge by assumption.
  cbn [Math_pow3 mul add]. rewrite div_finite by lra. reflexivity.
Qed.





End Easing.

(** ** Sections of any state *)
Module Sections.
Import JS Three Cube Grid NumberFacts StoreFacts.
Local Open Scope R_scope.

Lemma isInSection_getSection (position : Vector3) (axis : Axis)
    (sec : section) :
  component position axis <> NaN ->
  isInSection position axis sec = true
  <-> getSection (component position axis) = sec.
Proof.
  unfold isInSection, getSection. cbv zeta.
  destruct (component position axis) as [| | x |]; intros Hn;
    [contradiction | | |];
    destruct sec; unfold geb, gtb, leb, ltb, eqb;
    repeat destruct (Rlt_dec _ _); repeat destruct (Req_dec_T _ _);
    simpl; split; intros H; try discriminate; try reflexivity;
    exfalso; lra.
Qed.

Lemma isInSection_NaN (position : Vector3) (axis : Axis) (sec : section) :
  component position axis = NaN -> isInSection position axis sec = false.
Proof.
  unfold isInSection. cbv zeta. intros ->. destruct sec; reflexivity.
Qed.

(** X2.  [getSection] and [isInSection] agree on every coordinate that is
    a number, the infinities included: a coordinate is in the section
    [getSection] gives it and in no other.  On NaN they differ:
    [getSection] answers 1, and [isInSection] is false for the three
    sections. *)
Theorem getSection_isInSection (position : Vector3) (axis : Axis) :
  (component position axis <> NaN ->
   forall sec,
     isInSection position axis sec = true
     <-> getSection (component position axis) = sec)
  /\ (component position axis = NaN ->
      getSection (component position axis) = Sec1
      /\ forall sec, isInSection position axis sec = false).
Proof.
  split.
  - intros Hn sec. apply isInSection_getSection, Hn.
  - intros Hn. split; [rewrite Hn; reflexivity |].
    intros sec. apply isInSection_NaN, Hn.
Qed.

Lemma elem_of_getSectionCubes_iff this axis sec i :
  i ∈ getSectionCubes this axis sec
  <-> exists c, children this !! i = Some c
                /\ isInSection (position c) axis sec = true.
Proof.
  unfold getSectionCubes. rewrite elem_of_pushSectionCubes.
  rewrite Nat.sub_0_r. split.
  - intros (c & _ & Hl & Hs). eauto.
  - intros (c & Hl & Hs). exists c. split; [lia | auto].
Qed.

(** X3.  In any state, whatever the positions and the number of the
    children: [getSectionCubes] lists each child of the section once, by a
    valid reference; a child whose coordinate along the axis is a number is
    in the section [getSection] gives that coordinate and in no other; a
    child whose coordinate along the axis is NaN is in no section. *)
Theorem sections_of_any_state (this : RubiksCube) (axis : Axis) :
  (forall sec, NoDup (getSectionCubes this axis sec))
  /\ (forall sec i,
        i ∈ getSectionCubes this axis sec
        <-> exists c, children this !! i = Some c
                      /\ isInSection (position c) axis sec = true)
  /\ (forall i c,
        children this !! i = Some c ->
        component (position c) axis <> NaN ->
        forall sec,
          i ∈ getSectionCubes this axis sec
          <-> sec = getSection (component (position c) axis))
  /\ (forall i c,
        children this !! i = Some c ->
        component (position c) axis = NaN ->
        forall sec, i ∉ getSectionCubes this axis sec).
Proof.
  split; [| split; [| split]].
  - intros sec. apply NoDup_pushSectionCubes.
  - intros sec i. apply elem_of_getSectionCubes_iff.
  - intros i c Hl Hn sec. rewrite elem_of_getSectionCubes_iff. split.
    + intros (c' & Hl' & Hs). rewrite Hl in Hl'. injection Hl' as <-.
      symmetry. apply isInSection_getSection; assumption.
    + intros ->. exists c. split; [assumption |].
      apply isInSection_getSection; [assumption | reflexivity].
  - intros i c Hl Hn sec. rewrite elem_of_getSectionCubes_iff.
    intros (c' & Hl' & Hs). rewrite Hl in Hl'. injection Hl' as <-.
    rewrite isInSection_NaN in Hs by assumption. discriminate.
Qed.

End Sections.

(** ** Rotations about any pivot *)
Module Rigid.
Import JS Three Cube Grid Moves NumberFacts TurnFacts.
Local Open Scope R_scope.

Lemma rotateAroundPivot_finite axis t px py pz x y z m :
  rotateAroundPivot (fvec px py pz) axis (Finite t) (fobj x y z m)
  = fobj (turnedX axis t (x - px) (y - py) (z - pz) + px)
         (turnedY axis t (x - px) (y - py) (z - pz) + py)
         (turnedZ axis t (x - px) (y - py) (z - pz) + pz)
         (RMatrix_mul (rotation axis t) m).
Proof.
  destruct axis, m; js_compute; fields_eq; ring.
Qed.

(** X4.  A rotation about a pivot is rigid.  For a piece and a pivot at
    finite coordinates and a finite angle, the body of the loop of
    [rotateCubesAroundPivot] leaves the piece at finite coordinates, at the
    same distance from the pivot and at the same coordinate along the
    axis, with its orientation multiplied by the rotation matrix; a
    rotation by 0 leaves it where it is, and two rotations about the same
    pivot and axis are the rotation by the sum of the angles. *)
Theorem rotateAroundPivot_rigid (axis : Axis) (s t px py pz x y z : R)
    (m : RMatrix) :
  (exists x' y' z',
     rotateAroundPivot (fvec px py pz) axis (Finite t) (fobj x y z m)
     = fobj x' y' z' (RMatrix_mul (rotation axis t) m)
     /\ (x' - px) * (x' - px) + (y' - py) * (y' - py) + (z' - pz) * (z' - pz)
        = (x - px) * (x - px) + (y - py) * (y - py) + (z - pz) * (z - pz)
     /\ component (fvec x' y' z') axis = component (fvec x y z) axis)
  /\ rotateAroundPivot (fvec px py pz) axis (Finite 0) (fobj x y z m)
     = fobj x y z m
  /\ rotateAroundPivot (fvec px py pz) axis (Finite t)
       (rotateAroundPivot (fvec px py pz) axis (Finite s) (fobj x y z m))
     = rotateAroundPivot (fvec px py pz) axis (Finite (s + t)) (fobj x y z m).
Proof.
  split; [| split].
  - rewrite rotateAroundPivot_finite. do 3 eexists.
    split; [reflexivity |]. pose proof (sin2_cos2 t) as Hsc.
    unfold Rsqr in Hsc. split.
    + destruct axis; cbv [turnedX turnedY turnedZ].
      * replace ((x - px + px - px) * (x - px + px - px)) with
          ((x - px) * (x - px)) by ring.
        transitivity ((x - px) * (x - px)
                      + (sin t * sin t + cos t * cos t)
                        * ((y - py) * (y - py) + (z - pz) * (z - pz)));
          [ring | rewrite Hsc; ring].
      * replace ((y - py + py - py) * (y - py + py - py)) with
          ((y - py) * (y - py)) by ring.
        transitivity ((y - py) * (y - py)
                      + (sin t * sin t + cos t * cos t)
                        * ((x - px) * (x - px) + (z - pz) * (z - pz)));
          [ring | rewrite Hsc; ring].
      * replace ((z - pz + pz - pz) * (z - pz + pz - pz)) with
          ((z - pz) * (z - pz)) by ring.
        transitivity ((z - pz) * (z - pz)
                      + (sin t * sin t + cos t * cos t)
                        * ((x - px) * (x - px) + (y - py) * (y - py)));
          [ring | rewrite Hsc; ring].
    + destruct axis; cbv [turnedX turnedY turnedZ component fvec vx vy vz];
        f_equal; ring.
  - rewrite rotateAroundPivot_finite.
    destruct axis, m; js_compute; rewrite cos_0, sin_0; fields_eq; ring.
  - rewrite !rotateAroundPivot_finite, rotation_plus.
    destruct (turned_plus axis s t (x - px) (y - py) (z - pz))
      as (Hx & Hy & Hz).
    rewrite <- Hx, <- Hy, <- Hz. unfold fobj, fvec. fields_eq;
      f_equal; destruct axis; cbv [turnedX turnedY turnedZ]; ring.
Qed.

End Rigid.

(** ** Partial turns of a layer *)
Module LayerTurns.
Import JS Three Cube Grid NumberFacts TurnFacts BoxFacts AlignFacts GridFacts
  StoreFacts StepFacts QuarterFacts RunFacts Sections.
Local Open Scope R_scope.

Lemma applyRotation_fields axis sec angle this :
  applyRotation axis sec angle this
  = set_children (children (applyRotation axis sec angle this)) this.
Proof.
  unfold applyRotation. cbv zeta.
  destruct (Nat.eqb _ 0); [destruct this |]; reflexivity.
Qed.

Lemma rotateEntireCube_fields axis angle this :
  rotateEntireCube axis angle this
  = set_children (children (rotateEntireCube axis angle this)) this.
Proof. reflexivity. Qed.

Lemma set_children_same this : set_children (children this) this = this.
Proof. destruct this; reflexivity. Qed.

Lemma set_children_twice cs cs' this :
  set_children cs (set_children cs' this) = set_children cs this.
Proof. reflexivity. Qed.

Lemma getSectionCubes_nil this axis sec i c :
  getSectionCubes this axis sec = [] ->
  children this !! i = Some c -> isInSection (position c) axis sec = false.
Proof.
  intros Hnil Hl. destruct (isInSection (position c) axis sec) eqn:Hs;
    [| reflexivity].
  assert (i ∈ getSectionCubes this axis sec) as Hin
      by (apply elem_of_getSectionCubes_iff; eauto).
  rewrite Hnil in Hin. inversion Hin.
Qed.

(** X5.  In any state and for any angle, NaN included, [applyRotation]
    changes nothing but the children, keeps their number, leaves every
    child outside the section as it is, and rotates every child of the
    section once, about the centre [calculateGroupCenter] gives for the
    section; when no child is in the section it returns at once and the
    state is unchanged.  [rotateEntireCube] does the same with every
    child, about the centre of the box of all the children. *)
Theorem applyRotation_frame (axis : Axis) (sec : section) (angle : number)
    (this : RubiksCube) :
  let this' := applyRotation axis sec angle this in
  let pivot := calculateGroupCenter this (getSectionCubes this axis sec) in
  let whole := rotateEntireCube axis angle this in
  let center :=
    Box3_getCenter
      (expandByCubes this (seq 0 (length (children this))) Box3_new) in
  this' = set_children (children this') this
  /\ length (children this') = length (children this)
  /\ (forall i c,
        children this !! i = Some c ->
        children this' !! i
        = Some (if isInSection (position c) axis sec
                then rotateAroundPivot pivot axis angle c else c))
  /\ (getSectionCubes this axis sec = [] -> this' = this)
  /\ whole = set_children (children whole) this
  /\ children whole = rotateAroundPivot center axis angle <$> children this.
Proof.
  cbv zeta.
  assert (children (applyRotation axis sec angle this)
          = (fun c =>
               if isInSection (position c) axis sec
               then rotateAroundPivot
                      (calculateGroupCenter this
                         (getSectionCubes this axis sec)) axis angle c
               else c) <$> children this) as Hch.
  { unfold applyRotation. cbv zeta.
    destruct (getSectionCubes this axis sec) as [| i0 refs] eqn:Hrefs.
    - cbn [length Nat.eqb]. symmetry. apply list_eq. intros j.
      rewrite list_lookup_fmap.
      destruct (children this !! j) as [c |] eqn:Hl; [| reflexivity].
      cbn [fmap option_fmap option_map].
      rewrite (getSectionCubes_nil this axis sec j c Hrefs Hl). reflexivity.
    - cbn [length Nat.eqb]. rewrite <- Hrefs. unfold createPivot.
      apply children_rotate_section. }
  split; [apply applyRotation_fields |].
  split; [rewrite Hch; apply length_fmap |].
  split.
  { intros i c Hl. rewrite Hch, list_lookup_fmap, Hl. reflexivity. }
  split.
  { intros Hnil. unfold applyRotation. cbv zeta. rewrite Hnil. reflexivity. }
  split; [reflexivity |].
  unfold rotateEntireCube. cbv zeta. apply children_rotate_all.
Qed.

(** a turn about the axis keeps the section of every piece of that axis *)
Lemma pushSectionCubes_turned sel axis t sec cs k :
  (forall o, o ∈ cs -> exists x y z m, o = fobj x y z m) ->
  pushSectionCubes (turned sel axis t cs) k axis sec
  = pushSectionCubes cs k axis sec.
Proof.
  revert k. unfold turned.
  induction cs as [| c cs IH]; intros k Hfin; [reflexivity |].
  cbn [fmap list_fmap pushSectionCubes].
  destruct (Hfin c ltac:(left)) as (x & y & z & m & ->).
  assert (isInSection
            (position (if sel (fobj x y z m) then turn axis t (fobj x y z m)
                       else fobj x y z m)) axis sec
          = isInSection (position (fobj x y z m)) axis sec) as ->.
  { destruct (sel (fobj x y z m)); [| reflexivity].
    exact (selects_turn (sectionTest sec) axis t x y z m). }
  rewrite IH by (intros o Ho; apply Hfin; right; exact Ho). reflexivity.
Qed.

Lemma solid_fobj cs o :
  solid cs -> o ∈ cs -> exists x y z m, o = fobj x y z m.
Proof.
  intros Hs Ho. destruct (solid_piece cs o Hs Ho) as (x & y & z & m & H & _).
  eauto.
Qed.

Lemma applyRotation_from_solid axis sec t this :
  solid (children this) ->
  children (applyRotation axis sec (Finite t) this)
  = turned (inLayer axis sec) axis t (children this).
Proof.
  intros Hs.
  rewrite (applyRotation_turned axis sec 0 t (children this) this Hs).
  - apply turned_ext. lra.
  - symmetry. exact (turned_zero (sectionTest sec) axis (children this) Hs).
Qed.

(** X6.  On a cube whose pieces are on the grid and axis-aligned, the
    partial turns of one layer add up: turning by [s] and then by [t] is
    turning by [s + t], turning by [s] and then by [- s] gives the state
    back, turning by 0 changes nothing; and a partial turn of a layer
    leaves every section of its axis with the same pieces. *)
Theorem applyRotation_compose (axis : Axis) (sec : section) (s t : R)
    (this : RubiksCube) :
  solid (children this) ->
  children (applyRotation axis sec (Finite t)
              (applyRotation axis sec (Finite s) this))
  = children (applyRotation axis sec (Finite (s + t)) this)
  /\ applyRotation axis sec (Finite (- s))
       (applyRotation axis sec (Finite s) this) = this
  /\ applyRotation axis sec (Finite 0) this = this
  /\ forall sec',
       getSectionCubes (applyRotation axis sec (Finite s) this) axis sec'
       = getSectionCubes this axis sec'.
Proof.
  intros Hs.
  pose proof (applyRotation_from_solid axis sec s this Hs) as H1.
  assert (forall u,
            children (applyRotation axis sec (Finite u)
                        (applyRotation axis sec (Finite s) this))
            = turned (inLayer axis sec) axis (s + u) (children this)) as H2.
  { intros u. apply applyRotation_turned; assumption. }
  assert (turned (inLayer axis sec) axis 0 (children this) = children this)
    as H0 by exact (turned_zero (sectionTest sec) axis (children this) Hs).
  split; [| split; [| split]].
  - rewrite H2. symmetry. apply applyRotation_from_solid, Hs.
  - rewrite applyRotation_fields, H2.
    rewrite (applyRotation_fields axis sec (Finite s) this).
    rewrite set_children_twice.
    rewrite (turned_ext _ axis (s + - s) 0) by lra.
    rewrite H0. apply set_children_same.
  - rewrite applyRotation_fields, applyRotation_from_solid by assumption.
    rewrite H0. apply set_children_same.
  - intros sec'. unfold getSectionCubes. rewrite H1.
    apply pushSectionCubes_turned. intros o Ho.
    exact (solid_fobj _ o Hs Ho).
Qed.

Lemma applyRotation_compose_witness :
  applyRotation Y Sec1 (Finite (- (0.3)))
    (applyRotation Y Sec1 (Finite 0.3) RubiksCube_new)
  = RubiksCube_new.
Proof.
  exact (proj1 (proj2 (applyRotation_compose Y Sec1 0.3 0.2 RubiksCube_new
                         initCube_solid))).
Defined.

End LayerTurns.

(** ** The pivot of a rotation *)
Module Pivot.
Import JS Three Cube Grid Moves NumberFacts TurnFacts BoxFacts AlignFacts
  GridFacts StoreFacts StepFacts QuarterFacts Layers.
Local Open Scope R_scope.

(** the box of a turned piece, along the axis of the turn *)
Lemma along_extent axis t x y z m :
  aligned m ->
  let o := turn axis t (fobj x y z m) in
  match axis with
  | X => posX o = x /\ loX o = x - 1 / 2 /\ hiX o = x + 1 / 2
  | Y => posY o = y /\ loY o = y - 1 / 2 /\ hiY o = y + 1 / 2
  | Z => posZ o = z /\ loZ o = z - 1 / 2 /\ hiZ o = z + 1 / 2
  end.
Proof.
  intros Hm o. unfold o. rewrite turn_fobj.
  unfold loX, hiX, loY, hiY, loZ, hiZ, posX, posY, posZ.
  cbn [orientation position fobj fvec vx vy vz real]. rewrite rmatOf_fmat.
  destruct (half_aligned m Hm (rotation axis t)) as (-> & -> & ->).
  destruct axis; cbn [turnedX turnedY turnedZ];
    unfold halfWidth, halfHeight, halfDepth; cbn [rotation r11 r12 r13 r21 r22
      r23 r31 r32 r33]; rewrite Rabs_R1, Rabs_R0; repeat split; lra.
Qed.

Lemma constant_extent (lo hi : Object3D -> R) (k : R) (o : Object3D)
    (rest : list Object3D) :
  (forall o1, o1 ∈ o :: rest -> lo o1 = k - 1 / 2 /\ hi o1 = k + 1 / 2) ->
  foldl Rmin (lo o) (lo <$> rest) + foldl Rmax (hi o) (hi <$> rest) = 2 * k.
Proof.
  intros Hk.
  pose proof (foldl_Rmin_in (lo o) (lo <$> rest)) as Hmin.
  pose proof (foldl_Rmax_in (hi o) (hi <$> rest)) as Hmax.
  change (foldl Rmin (lo o) (lo <$> rest) ∈ lo <$> (o :: rest)) in Hmin.
  change (foldl Rmax (hi o) (hi <$> rest) ∈ hi <$> (o :: rest)) in Hmax.
  apply list_elem_of_fmap in Hmin as (o1 & -> & Ho1).
  apply list_elem_of_fmap in Hmax as (o2 & -> & Ho2).
  destruct (Hk o1 Ho1) as [-> _]. destruct (Hk o2 Ho2) as [_ ->]. lra.
Qed.

Lemma sectionTest_sectionCoord sec x :
  coord x -> sectionTest sec (Finite x) = true -> x = sectionCoord sec.
Proof.
  intros Hx. rewrite sectionTest_coord by assumption.
  destruct sec; cbn [sectionCoord]; destruct (Req_dec_T _ _);
    try discriminate; auto.
Qed.

Lemma layer_nonempty axis sec cs :
  solid cs -> List.filter (selects (sectionTest sec) axis) cs <> [].
Proof.
  intros [Hg _] Hnil.
  pose proof (getSectionCubes_count
                (rubiksCube cs false (dragStartAt None None) None None None
                   None None false) axis sec Hg) as Hn.
  rewrite length_getSectionCubes in Hn. cbn [children] in Hn.
  rewrite Hnil in Hn. discriminate.
Qed.

Lemma layer_center axis sec t cs :
  solid cs ->
  Box3_getCenter
    (foldl (Box3_expandByObject pieceGeometryBox) Box3_new
       (List.filter (selects (sectionTest sec) axis)
          (turned (selects (sectionTest sec) axis) axis t cs)))
  = axisPoint axis (sectionCoord sec).
Proof.
  intros Hs.
  destruct (center_turned (sectionTest sec) axis t cs Hs
              (layer_nonempty axis sec cs Hs)) as (a & Ha).
  rewrite Ha. f_equal.
  rewrite (filter_turned _ axis t cs Hs) in Ha.
  assert (forall o1,
            o1 ∈ turn axis t <$> List.filter (selects (sectionTest sec) axis) cs ->
            finite o1
            /\ match axis with
               | X => loX o1 = sectionCoord sec - 1 / 2
                      /\ hiX o1 = sectionCoord sec + 1 / 2
               | Y => loY o1 = sectionCoord sec - 1 / 2
                      /\ hiY o1 = sectionCoord sec + 1 / 2
               | Z => loZ o1 = sectionCoord sec - 1 / 2
                      /\ hiZ o1 = sectionCoord sec + 1 / 2
               end) as Hall.
  { intros o1 Ho1. apply list_elem_of_fmap in Ho1 as (o0 & -> & Ho0).
    apply elem_of_filter_bool in Ho0 as [Ho0 Hsel].
    destruct (solid_piece cs o0 Hs Ho0)
      as (x & y & z & m & -> & Hx & Hy & Hz & Hm).
    split; [rewrite turn_fobj; apply finite_fobj |].
    pose proof (along_extent axis t x y z m Hm) as He. cbv zeta in He.
    unfold selects in Hsel.
    destruct axis; cbn [component position fobj fvec vx vy vz] in Hsel;
      destruct He as (_ & -> & ->);
      [ rewrite (sectionTest_sectionCoord sec x Hx Hsel)
      | rewrite (sectionTest_sectionCoord sec y Hy Hsel)
      | rewrite (sectionTest_sectionCoord sec z Hz Hsel) ]; split; reflexivity. }
  pose proof (layer_nonempty axis sec cs Hs) as Hne.
  destruct (List.filter (selects (sectionTest sec) axis) cs) as [| o rest];
    [congruence |].
  cbn [fmap list_fmap] in Ha, Hall.
  assert (finite (turn axis t o)) as Hfo by (apply Hall; left).
  assert (Forall finite (turn axis t <$> rest)) as Hfr.
  { apply Forall_forall. intros o1 Ho1. apply Hall. right. exact Ho1. }
  rewrite (group_center _ _ Hfo Hfr) in Ha.
  destruct axis; cbn [axisPoint] in Ha; unfold fvec in Ha;
    injection Ha as Hx Hy Hz.
  - rewrite (constant_extent loX hiX (sectionCoord sec)) in Hx; [lra |].
    intros o1 Ho1. apply Hall, Ho1.
  - rewrite (constant_extent loY hiY (sectionCoord sec)) in Hy; [lra |].
    intros o1 Ho1. apply Hall, Ho1.
  - rewrite (constant_extent loZ hiZ (sectionCoord sec)) in Hz; [lra |].
    intros o1 Ho1. apply Hall, Ho1.
Qed.

(** the box of the whole cube, turned about an axis, is centred on the
    origin *)
Lemma cube_center axis t cs :
  solid cs ->
  Box3_getCenter
    (foldl (Box3_expandByObject pieceGeometryBox) Box3_new
       (turn axis t <$> cs))
  = fvec 0 0 0.
Proof.
  intros Hs.
  pose proof (center_turned (fun _ => true) axis t cs Hs) as Hc.
  change (selects (fun _ : number => true) axis) with (fun _ : Object3D => true)
    in Hc.
  rewrite !filter_all in Hc.
  assert (cs <> []) as Hne.
  { intros ->. apply (layer_nonempty X Sec0 [] Hs). reflexivity. }
  destruct (Hc Hne) as (a & Ha).
  change (turned (fun _ : Object3D => true) axis t cs)
    with (turn axis t <$> cs) in Ha.
  rewrite Ha.
  assert (forall o0, o0 ∈ cs ->
            exists x y z m, o0 = fobj x y z m /\ aligned m) as Hfin.
  { intros o0 Ho0.
    destruct (solid_piece cs o0 Hs Ho0) as (x & y & z & m & ? & _ & _ & _ & ?).
    eauto 6. }
  assert (forall o1, o1 ∈ turn axis t <$> cs -> finite o1) as Hall.
  { intros o1 Ho1. apply list_elem_of_fmap in Ho1 as (o0 & -> & Ho0).
    destruct (Hfin o0 Ho0) as (x & y & z & m & -> & _).
    rewrite turn_fobj. apply finite_fobj. }
  assert (match axis with
          | X => balanced posX loX hiX (turn axis t <$> cs)
          | Y => balanced posY loY hiY (turn axis t <$> cs)
          | Z => balanced posZ loZ hiZ (turn axis t <$> cs)
          end) as Hbal.
  { pose proof (selection_mirrored (fun _ => true) X cs Hs) as HmX.
    pose proof (selection_mirrored (fun _ => true) Y cs Hs) as HmY.
    change (selects (fun _ : number => true) X)
      with (fun _ : Object3D => true) in HmX.
    change (selects (fun _ : number => true) Y)
      with (fun _ : Object3D => true) in HmY.
    rewrite filter_all in HmX, HmY.
    destruct axis; exists (1 / 2); split.
    - intros o1 Ho1. apply list_elem_of_fmap in Ho1 as (o0 & -> & Ho0).
      destruct (Hfin o0 Ho0) as (x & y & z & m & -> & Hm).
      destruct (along_extent X t x y z m Hm) as (-> & -> & ->). lra.
    - intros o1 Ho1. apply list_elem_of_fmap in Ho1 as (o0 & -> & Ho0).
      destruct (HmY o0 Ho0) as (o0' & Ho0' & Hmir).
      destruct (Hfin o0 Ho0) as (x & y & z & m & -> & Hm).
      destruct (Hfin o0' Ho0') as (x' & y' & z' & m' & -> & Hm').
      exists (turn X t (fobj x' y' z' m')). split.
      + apply list_elem_of_fmap. eauto.
      + destruct (along_extent X t x y z m Hm) as (-> & _).
        destruct (along_extent X t x' y' z' m' Hm') as (-> & _).
        cbv [mirror posX posY posZ fobj fvec position vx vy vz real] in Hmir.
        tauto.
    - intros o1 Ho1. apply list_elem_of_fmap in Ho1 as (o0 & -> & Ho0).
      destruct (Hfin o0 Ho0) as (x & y & z & m & -> & Hm).
      destruct (along_extent Y t x y z m Hm) as (-> & -> & ->). lra.
    - intros o1 Ho1. apply list_elem_of_fmap in Ho1 as (o0 & -> & Ho0).
      destruct (HmX o0 Ho0) as (o0' & Ho0' & Hmir).
      destruct (Hfin o0 Ho0) as (x & y & z & m & -> & Hm).
      destruct (Hfin o0' Ho0') as (x' & y' & z' & m' & -> & Hm').
      exists (turn Y t (fobj x' y' z' m')). split.
      + apply list_elem_of_fmap. eauto.
      + destruct (along_extent Y t x y z m Hm) as (-> & _).
        destruct (along_extent Y t x' y' z' m' Hm') as (-> & _).
        cbv [mirror posX posY posZ fobj fvec position vx vy vz real] in Hmir.
        tauto.
    - intros o1 Ho1. apply list_elem_of_fmap in Ho1 as (o0 & -> & Ho0).
      destruct (Hfin o0 Ho0) as (x & y & z & m & -> & Hm).
      destruct (along_extent Z t x y z m Hm) as (-> & -> & ->). lra.
    - intros o1 Ho1. apply list_elem_of_fmap in Ho1 as (o0 & -> & Ho0).
      destruct (HmX o0 Ho0) as (o0' & Ho0' & Hmir).
      destruct (Hfin o0 Ho0) as (x & y & z & m & -> & Hm).
      destruct (Hfin o0' Ho0') as (x' & y' & z' & m' & -> & Hm').
      exists (turn Z t (fobj x' y' z' m')). split.
      + apply list_elem_of_fmap. eauto.
      + destruct (along_extent Z t x y z m Hm) as (-> & _).
        destruct (along_extent Z t x' y' z' m' Hm') as (-> & _).
        cbv [mirror posX posY posZ fobj fvec position vx vy vz real] in Hmir.
        tauto. }
  destruct cs as [| o rest]; [congruence |].
  cbn [fmap list_fmap] in Ha, Hall, Hbal.
  assert (finite (turn axis t o)) as Hfo by (apply Hall; left).
  assert (Forall finite (turn axis t <$> rest)) as Hfr.
  { apply Forall_forall. intros o1 Ho1. apply Hall. right. exact Ho1. }
  rewrite (group_center _ _ Hfo Hfr) in Ha.
  destruct axis; cbn [axisPoint] in Ha |- *; unfold fvec in Ha |- *;
    injection Ha as Hx Hy Hz; apply balanced_center in Hbal;
    do 2 f_equal; rewrite Hbal in *; lra.
Qed.

(** X7.  While a layer of a cube that was on the grid and axis-aligned is
    turned by any angle about its axis, the pivot [calculateGroupCenter]
    gives for the layer is the point of the axis at the coordinate of the
    layer, -1, 0 or 1; and while the whole cube is turned about an axis, the
    centre of its box, the pivot of [rotateEntireCube], is the origin. *)
Theorem pivot_on_axis (axis : Axis) (sec : section) (t : R)
    (cs : list Object3D) (this : RubiksCube) :
  solid cs ->
  (children this = turned (inLayer axis sec) axis t cs ->
   calculateGroupCenter this (getSectionCubes this axis sec)
   = axisPoint axis (sectionCoord sec))
  /\ (children this = turn axis t <$> cs ->
      Box3_getCenter
        (expandByCubes this (seq 0 (length (children this))) Box3_new)
      = fvec 0 0 0).
Proof.
  intros Hs. split; intros Hc.
  - rewrite calculateGroupCenter_section.
    change (fun c => isInSection (position c) axis sec)
      with (selects (sectionTest sec) axis).
    rewrite Hc. exact (layer_center axis sec t cs Hs).
  - rewrite expandByCubes_all, Hc. exact (cube_center axis t cs Hs).
Qed.

Lemma pivot_on_axis_witness :
  calculateGroupCenter RubiksCube_new (getSectionCubes RubiksCube_new Z Sec2)
  = fvec 0 0 1.
Proof.
  refine (proj1 (pivot_on_axis Z Sec2 0 initCube RubiksCube_new
                   initCube_solid) _).
  symmetry. exact (turned_zero (sectionTest Sec2) Z initCube initCube_solid).
Defined.

End Pivot.

(** ** The snap of a released drag *)
Module Snap.
Import JS Cube Grid NumberFacts ClampFacts.
Local Open Scope R_scope.






(** the loop of [nearestClampDistance], with the clamps already seen *)
Lemma nearestClampLoop_nearest (a : R) (rest pre : list R) (nearest : R)
    (i : nat) :
  pre !! i = Some nearest ->
  (forall j c', pre !! j = Some c' ->
                Rabs (a - nearest) <= Rabs (a - c')
                /\ (Rabs (a - c') = Rabs (a - nearest) -> (i <= j)%nat)) ->
  exists i' c,
    (pre ++ rest) !! i' = Some c
    /\ nearestClampLoop (Finite a) (Finite <$> rest) (Finite nearest)
         (Finite (Rabs (a - nearest))) = Finite c
    /\ forall j c', (pre ++ rest) !! j = Some c' ->
                    Rabs (a - c) <= Rabs (a - c')
                    /\ (Rabs (a - c') = Rabs (a - c) -> (i' <= j)%nat).
Proof.
  revert pre nearest i.
  induction rest as [| clamp rest IH]; intros pre nearest i Hi Hbest.
  - exists i, nearest. rewrite app_nil_r. auto.
  - cbn [fmap list_fmap nearestClampLoop sub add neg Math_abs].
    change (a + - clamp) with (a - clamp).
    assert (length pre <= length pre)%nat as Hlen by lia.
    pose proof (lookup_lt_Some _ _ _ Hi) as Hlt.
    replace (pre ++ clamp :: rest) with ((pre ++ [clamp]) ++ rest)
      by (rewrite <- app_assoc; reflexivity).
    destruct (Rlt_dec (Rabs (a - clamp)) (Rabs (a - nearest))) as [Hn | Hn].
    + rewrite ltb_lt by assumption.
      apply (IH (pre ++ [clamp]) clamp (length pre)).
      * rewrite lookup_app_r by lia. rewrite Nat.sub_diag. reflexivity.
      * intros j c' Hj.
        destruct (decide (j < length pre)%nat) as [Hjl | Hjl].
        -- rewrite lookup_app_l in Hj by assumption.
           destruct (Hbest j c' Hj) as [Hle _]. split; [lra | intros; lra].
        -- rewrite lookup_app_r in Hj by lia.
           destruct (j - length pre)%nat as [| n] eqn:Hjn;
             [| destruct n; discriminate].
           injection Hj as <-. split; [lra | intros; lia].
    + rewrite ltb_ge by lra.
      apply (IH (pre ++ [clamp]) nearest i).
      * rewrite lookup_app_l by assumption. exact Hi.
      * intros j c' Hj.
        destruct (decide (j < length pre)%nat) as [Hjl | Hjl].
        -- rewrite lookup_app_l in Hj by assumption. apply Hbest, Hj.
        -- rewrite lookup_app_r in Hj by lia.
           destruct (j - length pre)%nat as [| n] eqn:Hjn;
             [| destruct n; discriminate].
           injection Hj as <-. split; [lra | intros; lia].
Qed.

(** X9.  For any list of clamps that is not empty, [nearestClampDistance]
    returns [c - angle] for the clamp [c] of the list nearest to the angle,
    the first listed one when several are as near.  For an empty list it
    returns NaN. *)
Theorem nearestClampDistanceOf_nearest (a : R) (clamps : list R) :
  (clamps <> [] ->
   exists (i : nat) (c : R),
     clamps !! i = Some c
     /\ nearestClampDistanceOf (Finite a) (Finite <$> clamps) = Finite (c - a)
     /\ forall (j : nat) (c' : R), clamps !! j = Some c' ->
          Rabs (a - c) <= Rabs (a - c')
          /\ (Rabs (a - c') = Rabs (a - c) -> (i <= j)%nat))
  /\ nearestClampDistanceOf (Finite a) [] = NaN.
Proof.
  split; [| reflexivity].
  destruct clamps as [| first rest]; [congruence |]. intros _.
  destruct (nearestClampLoop_nearest a rest [first] first 0)
    as (i & c & Hi & Hloop & Hbest).
  - reflexivity.
  - intros [| j] c' Hj; [| discriminate]. injection Hj as <-.
    split; [lra | intros; lia].
  - exists i, c. split; [exact Hi |]. split; [| exact Hbest].
    cbn [fmap list_fmap nearestClampDistanceOf sub add neg Math_abs].
    change (a + - first) with (a - first). rewrite Hloop. cbn [add].
    reflexivity.
Qed.

Lemma nearestClampDistanceOf_nearest_witness :
  exists (i : nat) (c : R),
    [0; 1; 2] !! i = Some c
    /\ nearestClampDistanceOf (Finite 1.5) (Finite <$> [0; 1; 2])
       = Finite (c - 1.5)
    /\ forall (j : nat) (c' : R), [0; 1; 2] !! j = Some c' ->
         Rabs (1.5 - c) <= Rabs (1.5 - c')
         /\ (Rabs (1.5 - c') = Rabs (1.5 - c) -> (i <= j)%nat).
Proof.
  apply (proj1 (nearestClampDistanceOf_nearest 1.5 [0; 1; 2])).
  discriminate.
Defined.

End Snap.

(** ** What a drag does to the cube *)
Module DragOutcome.
Import JS Three Cube Grid Moves NumberFacts TurnFacts GridFacts StoreFacts
  StepFacts QuarterFacts ClampFacts DragFacts RunFacts DragSession LayerTurns.
Local Open Scope R_scope.

(** [Math.min(Math.max(n, lo), hi)] *)
Lemma clamp_range (n : number) (lo hi a : R) :
  lo <= hi ->
  Math_min (Math_max n (Finite lo)) (Finite hi) = Finite a -> lo <= a <= hi.
Proof.
  intros Hle. destruct n as [| | v |]; cbn [Math_max Math_min]; intros H;
    try discriminate; injection H as <-.
  - rewrite Rmin_left by assumption. lra.
  - pose proof (Rmin_r (Rmax v lo) hi). pose proof (Rmax_r v lo).
    split; [| assumption]. apply Rmin_glb; lra.
  - lra.
Qed.

Lemma getRotationAngle_clamped win deltaX deltaY this angle :
  getRotationAngle win deltaX deltaY this = Return angle ->
  exists n,
    angle = Math_min (Math_max n ((- Math_PI) / Finite 2)%js)
              (Math_PI / Finite 2)%js.
Proof.
  unfold getRotationAngle. intros H.
  destruct (face_eqb (selectedFace this) (rotationAxis this));
    [discriminate |].
  cbv zeta in H.
  destruct (_ || _ || _)%bool in H; destruct (_ || _ || _)%bool in H;
    try discriminate;
    repeat match type of H with
      | context [start_x ?d] => destruct (start_x d)
      | context [start_y ?d] => destruct (start_y d)
      end; try discriminate;
    match type of H with
    | (if ?b then _ else _) = _ => destruct b; [discriminate |]
    end; injection H as <-; eexists; reflexivity.
Qed.

(** the clamp of [getRotationAngle], when its result is a real number *)
Lemma clamped_quarter (n : number) (a : R) :
  Finite a
  = Math_min (Math_max n ((- Math_PI) / Finite 2)%js) (Math_PI / Finite 2)%js ->
  - PI / 2 <= a <= PI / 2.
Proof.
  intros Hn. pose proof PI_RGT_0 as Hpi.
  unfold Math_PI in Hn. cbn [neg] in Hn.
  rewrite !(div_finite _ 2) in Hn by lra. symmetry in Hn.
  apply clamp_range in Hn; lra.
Qed.

(** X10.  When [getRotationAngle] returns, for a drag whose start
    coordinates are numbers, the angle is a real number between
    [- PI / 2] and [PI / 2], whatever the window size: never NaN, never an
    infinity. *)
Theorem getRotationAngle_range (win : Window) (dx dy sx sy : R)
    (this : RubiksCube) (angle : number) :
  dragStart this = dragStartAt (Some (Finite sx)) (Some (Finite sy)) ->
  getRotationAngle win (Finite dx) (Finite dy) this = Return angle ->
  exists a, angle = Finite a /\ - PI / 2 <= a <= PI / 2.
Proof.
  intros Hstart Hret.
  destruct (getRotationAngle_finite _ _ _ _ _ _ _ Hstart Hret) as (a & ->).
  exists a. split; [reflexivity |].
  apply getRotationAngle_clamped in Hret as (n & Hn).
  exact (clamped_quarter n a Hn).
Qed.

Lemma getRotationAngle_range_witness :
  let this0 :=
    set_rotationAxis (Some Y)
      (set_selectedFace (Some X)
         (onMouseDown (mouseEvent 100 100)
            [intersection (fvec 1.5 0 0) (Some (fvec 1 0 0))]
            RubiksCube_new)) in
  exists angle a,
    getRotationAngle (window (Finite 800) (Finite 600)) (Finite 70)
      (Finite 12) this0 = Return angle
    /\ angle = Finite a /\ - PI / 2 <= a <= PI / 2.
Proof.
  intros this0.
  assert (exists angle,
            getRotationAngle (window (Finite 800) (Finite 600)) (Finite 70)
              (Finite 12) this0 = Return angle) as (angle & Hret).
  { rewrite (getRotationAngle_valid _ _ _ this0 X Y);
      [| reflexivity | reflexivity | discriminate].
    cbn [activeDelta activeMax activeStart horizontalDrag Axis_eqb innerWidth
         start_x dragStart this0 set_rotationAxis set_selectedFace onMouseDown
         set_dragStart clientX falsy truthy negb orb].
    destruct (Req_dec_T 70 0); [lra |].
    destruct (Req_dec_T 800 0); [lra |].
    destruct (Req_dec_T 100 0); [lra |]. cbn [negb orb].
    eexists. reflexivity. }
  exists angle.
  destruct (getRotationAngle_range (window (Finite 800) (Finite 600)) 70 12
              100 100 this0 angle eq_refl Hret) as (a & Ha & Hr).
  exists a. auto.
Defined.



(** a move keeps the tracked angle within a quarter turn *)
Lemma onMouseMove_bounded win ev cs this :
  dragging cs this -> bounded this ->
  bounded (dispatch (onMouseMove win ev) this).
Proof.
  intros Hdrag Hb. pose proof PI_RGT_0 as Hpi.
  destruct (isDragging this) eqn:Hd.
  2: { unfold dispatch. rewrite onMouseMove_idle by assumption. exact Hb. }
  destruct Hdrag as [Hstart _].
  destruct (Hstart Hd) as (hit & sx & sy & Hhit & Hst).
  unfold dispatch.
  rewrite (onMouseMove_deltas _ _ _ _ _ _ Hd Hhit Hst). cbv zeta.
  destruct (Rlt_dec _ 10); [exact Hb |].
  destruct (Rlt_dec _ 10); [exact Hb |]. cbn [orb].
  assert (forall horizontal : bool,
            let this1 := set_rotationAngle (Some (Finite 0)) this in
            let this2 :=
              if nonzero (vx <$> normal hit)
              then set_selectedFace (Some X)
                     (set_rotationAxis (Some (if horizontal then Y else Z))
                        this1)
              else this1 in
            let this3 :=
              if nonzero (vy <$> normal hit)
              then set_selectedFace (Some Y)
                     (set_rotationAxis (Some (if horizontal then Z else X))
                        this2)
              else this2 in
            let this4 :=
              if nonzero (vz <$> normal hit)
              then set_selectedFace (Some Z)
                     (set_rotationAxis (Some (if horizontal then Y else X))
                        this3)
              else this3 in
            bounded
              (match
                 match rotationAxis this4 with
                 | Some axis =>
                     Return (set_rotationSection
                               (Some (getSection (component (point hit) axis)))
                               this4)
                 | None => Return this4
                 end
               with
               | Return this' => this'
               | Throw _ => this
               end)) as Hresolve.
  { intros horizontal. cbv zeta.
    assert (forall this', rotationAngle this' = Some (Finite 0) ->
                          bounded this') as Hzero.
    { intros this' H0 a Ha. rewrite H0 in Ha. injection Ha as <-.
      exists 0. split; [reflexivity | lra]. }
    destruct (nonzero (vx <$> normal hit)), (nonzero (vy <$> normal hit)),
      (nonzero (vz <$> normal hit));
      cbn [rotationAxis set_selectedFace set_rotationAxis set_rotationAngle];
      try (apply Hzero; reflexivity).
    destruct (rotationAxis this); apply Hzero; reflexivity. }
  destruct (rotationAxis this) as [axis |] eqn:Hax;
    [| apply Hresolve].
  destruct (rotationSection this) as [sec |] eqn:Hsec;
    [| apply Hresolve].
  destruct (rotationAngle this) as [angle0 |] eqn:Hang;
    [| apply Hresolve].
  unfold setRotation. rewrite Hang.
  destruct (getRotationAngle win _ _ this) as [angle | err] eqn:Hget;
    cbn [bind]; [| exact Hb].
  destruct (getRotationAngle_finite _ _ _ _ _ _ _ Hst Hget) as (a & ->).
  apply getRotationAngle_clamped in Hget as (clamped & Hn).
  pose proof (clamped_quarter clamped a Hn) as Ha.
  intros a' Ha'. cbn [rotationAngle set_rotationAngle] in Ha'.
  injection Ha' as <-. exists a. auto.
Qed.

Lemma moved_invariant win moves cs this :
  solid cs -> dragging cs this -> bounded this ->
  dragging cs (moved win moves this) /\ bounded (moved win moves this).
Proof.
  intros Hs. revert this. unfold moved.
  induction moves as [| ev moves IH]; intros this Hdrag Hb; [auto |].
  cbn [foldl]. apply IH.
  - apply onMouseMove_dragging; assumption.
  - apply (onMouseMove_bounded win ev cs); assumption.
Qed.

(** X12.  A drag on an idle cube whose pieces are on the grid and
    axis-aligned.  After button down and any moves, either no piece has
    moved, or the pieces of one layer stand turned about its axis by the
    angle the cube tracks, which is between [- PI / 2] and [PI / 2], and
    every other piece is where it was.  After the release the cube is the
    cube before the drag with one layer turned by [- PI / 2], 0 or
    [PI / 2]. *)
Theorem drag_turns_one_layer (win : Window) (down : MouseEvent)
    (intersects : list Intersection) (moves : list MouseEvent)
    (this : RubiksCube) :
  solid (children this) -> idle this ->
  (let during := moved win moves (onMouseDown down intersects this) in
   children during = children this
   \/ exists axis sec t,
        - PI / 2 <= t <= PI / 2
        /\ rotationAxis during = Some axis
        /\ rotationSection during = Some sec
        /\ rotationAngle during = Some (Finite t)
        /\ children during = turned (inLayer axis sec) axis t (children this))
  /\ exists axis sec c,
       (c = - PI / 2 \/ c = 0 \/ c = PI / 2)
       /\ children (drag win down intersects moves this)
          = turned (inLayer axis sec) axis c (children this).
Proof.
  intros Hs Hidle.
  destruct (moved_invariant win moves (children this)
              (onMouseDown down intersects this) Hs
              (onMouseDown_dragging down intersects this Hidle))
    as [Hdrag Hb].
  { intros a Ha. destruct intersects; cbn in Ha;
      destruct Hidle as (_ & _ & _ & Hang); congruence. }
  split.
  - cbv zeta. destruct Hdrag as [_ [(_ & _ & Hc) | (axis & sec & t & Hax & Hsec & Hang & Hc)]].
    + left. exact Hc.
    + right. exists axis, sec, t. destruct (Hb _ Hang) as (t' & Ht' & Hr).
      injection Ht' as <-. auto 6.
  - unfold drag. fold (moved win moves (onMouseDown down intersects this)).
    set (during := moved win moves (onMouseDown down intersects this)) in *.
    destruct Hdrag as [_ [(Hax & Hsec & Hc) | (axis & sec & t & Hax & Hsec & Hang & Hc)]].
    + exists X, Sec0, 0. split; [auto |]. unfold onMouseUp.
      cbn [rotationAxis set_isDragging]. rewrite Hax. cbn [children
        set_rotationAngle set_rotationSection set_rotationAxis set_isDragging].
      rewrite Hc. symmetry.
      exact (turned_zero (sectionTest Sec0) X (children this) Hs).
    + exists axis, sec. unfold onMouseUp.
      cbn [rotationAxis rotationSection rotationAngle set_isDragging].
      rewrite Hax, Hsec, Hang.
      destruct (nearestClampDistance_snap t) as (c & -> & Hsnap).
      exists c. split.
      { destruct Hsnap as [-> | ([|] & ->)]; cbn [angleOf]; auto. }
      pose proof (applyRotation_turned axis sec t (c - t) (children this)
                    (set_isDragging false during) Hs Hc) as Hstep.
      rewrite (turned_ext _ _ (t + (c - t)) c) in Hstep by lra.
      exact Hstep.
Qed.

Lemma drag_turns_one_layer_witness :
  exists axis sec c,
    (c = - PI / 2 \/ c = 0 \/ c = PI / 2)
    /\ children
         (drag (window (Finite 800) (Finite 600)) (mouseEvent 100 100)
            [intersection (fvec 1.5 0 0) (Some (fvec 1 0 0))]
            [mouseEvent 130 112; mouseEvent 400 115] RubiksCube_new)
       = turned (inLayer axis sec) axis c (children RubiksCube_new).
Proof.
  apply (drag_turns_one_layer (window (Finite 800) (Finite 600))
           (mouseEvent 100 100)
           [intersection (fvec 1.5 0 0) (Some (fvec 1 0 0))]
           [mouseEvent 130 112; mouseEvent 400 115] RubiksCube_new
           initCube_solid).
  repeat split.
Defined.

Lemma moved_idle win moves this :
  isDragging this = false -> moved win moves this = this.
Proof.
  intros Hd. unfold moved. induction moves as [| ev moves IH]; [reflexivity |].
  cbn [foldl]. unfold dispatch at 2.
  rewrite onMouseMove_idle by assumption. exact IH.
Qed.

Lemma onMouseUp_idle this : idle this -> onMouseUp this = this.
Proof.
  intros (Hd & Hax & Hsec & Hang). unfold onMouseUp.
  cbn [rotationAxis set_isDragging]. rewrite Hax.
  destruct this; cbn in *; subst; reflexivity.
Qed.

Lemma onMouseUp_released this : isDragging (onMouseUp this) = false.
Proof.
  unfold onMouseUp. cbn [rotationAxis rotationSection rotationAngle
    set_isDragging].
  destruct (rotationAxis this), (rotationSection this), (rotationAngle this);
    try reflexivity.
  rewrite applyRotation_fields. reflexivity.
Qed.

(** X13.  Pointer events that leave the cube alone.  Between a release
    and the next button down, moves change nothing.  On an idle cube, a
    drag whose button down misses the cube changes nothing at all; and a
    drag whose moves all stay less than 10 pixels from the button down
    horizontally or vertically moves no piece and leaves the cube idle. *)
Theorem pointer_events_without_effect (win : Window) (down : MouseEvent)
    (intersects : list Intersection) (moves : list MouseEvent)
    (this : RubiksCube) :
  moved win moves (onMouseUp this) = onMouseUp this
  /\ (idle this -> drag win down [] moves this = this)
  /\ (idle this ->
      Forall (fun ev => Rabs (clientX ev - clientX down) < 10
                        \/ Rabs (clientY ev - clientY down) < 10) moves ->
      children (drag win down intersects moves this) = children this
      /\ idle (drag win down intersects moves this)).
Proof.
  split; [apply moved_idle, onMouseUp_released |]. split.
  - intros Hidle. unfold drag. cbn [onMouseDown].
    fold (moved win moves this).
    rewrite moved_idle by apply Hidle. apply onMouseUp_idle, Hidle.
  - intros Hidle Hshort. unfold drag.
    fold (moved win moves (onMouseDown down intersects this)).
    assert (moved win moves (onMouseDown down intersects this)
            = onMouseDown down intersects this) as ->.
    { destruct intersects as [| hit rest].
      - apply moved_idle. apply Hidle.
      - unfold moved.
        induction Hshort as [| ev moves Hev _ IH]; [reflexivity |].
        cbn [foldl]. unfold dispatch at 2.
        rewrite (onMouseMove_below win ev _ hit (clientX down) (clientY down));
          [exact IH | reflexivity | reflexivity | reflexivity | exact Hev]. }
    destruct Hidle as (Hd & Hax & Hsec & Hang). unfold onMouseUp.
    assert (rotationAxis (onMouseDown down intersects this) = None) as Hax'.
    { destruct intersects; exact Hax. }
    cbn [rotationAxis set_isDragging]. rewrite Hax'.
    split; [destruct intersects; reflexivity | repeat split].
Qed.

Lemma pointer_events_without_effect_witness :
  drag (window (Finite 800) (Finite 600)) (mouseEvent 100 100) []
    [mouseEvent 130 112; mouseEvent 400 115] RubiksCube_new
  = RubiksCube_new.
Proof.
  apply (pointer_events_without_effect (window (Finite 800) (Finite 600))
           (mouseEvent 100 100) []
           [mouseEvent 130 112; mouseEvent 400 115] RubiksCube_new).
  repeat split.
Defined.

End DragOutcome.

(** ** Animations against the clock *)
Module Timing.
Import JS Three Cube Grid NumberFacts TurnFacts GridFacts StoreFacts StepFacts
  QuarterFacts AnimationFacts ZeroDuration GuardFacts RunFacts FrameFacts.
Local Open Scope R_scope.

(** the readings of a clock depend on the time of the frame only *)
Lemma realReadings_eq old elapsed startTime nows :
  realReadings old elapsed startTime nows
  = (fun t => elapsed + (t - old) / 1000 - startTime) <$> nows.
Proof.
  revert old elapsed.
  induction nows as [| now nows IH]; intros old elapsed; [reflexivity |].
  cbn [realReadings fmap list_fmap]. f_equal. rewrite IH.
  apply list_fmap_ext. intros i t _. lra.
Qed.

Lemma realReadings_start now nows :
  realReadings now 0 0 nows = (fun t => (t - now) / 1000) <$> nows.
Proof.
  rewrite realReadings_eq. apply list_fmap_ext. intros i t _. lra.
Qed.

Lemma running_positive d e :
  0 < d ->
  (progressOf (Finite d) (Finite e) <? Finite 1)%js
  = if Rlt_dec e (d / 1000) then true else false.
Proof.
  intros Hd. rewrite progressOf_positive by assumption.
  assert (e / (d / 1000) * (d / 1000) = e) as Hmul by (field; lra).
  destruct (Rlt_dec e (d / 1000)) as [Hlt | Hge].
  - apply ltb_lt. apply Rle_lt_trans with (e / (d / 1000)); [apply Rmin_l |].
    apply Rmult_lt_reg_r with (d / 1000); [lra |]. lra.
  - apply ltb_ge. apply Rmin_glb; [| lra].
    apply Rmult_le_reg_r with (d / 1000); [lra |]. lra.
Qed.


(** an animation has ended when one of the readings made it end *)
Lemma playSection_ended axis sec targetAngle duration readings this :
  snd (playSection axis sec targetAngle duration readings this) = false
  <-> Exists (fun e => (progressOf duration e <? Finite 1)%js = false)
        readings.
Proof.
  revert this. induction readings as [| e readings IH]; intros this.
  - cbn. split; [discriminate | intros H; inversion H].
  - cbn [playSection].
    pose proof (animateSection_flags axis sec targetAngle duration e this)
      as [Hflag _]. cbv zeta in Hflag.
    destruct (animateSection axis sec targetAngle duration e this)
      as [this' again]. cbn [snd] in Hflag. rewrite Exists_cons.
    destruct again.
    + rewrite IH. rewrite <- Hflag. split; [auto | intros [H | H]; [discriminate | exact H]].
    + cbn [snd]. split; [intros _; left; congruence | reflexivity].
Qed.

Lemma playCube_ended axis targetAngle duration readings this :
  snd (playCube axis targetAngle duration readings this) = false
  <-> Exists (fun e => (progressOf duration e <? Finite 1)%js = false)
        readings.
Proof.
  revert this. induction readings as [| e readings IH]; intros this.
  - cbn. split; [discriminate | intros H; inversion H].
  - cbn [playCube].
    pose proof (animateCube_flags axis targetAngle duration e this)
      as [Hflag _]. cbv zeta in Hflag.
    destruct (animateCube axis targetAngle duration e this)
      as [this' again]. cbn [snd] in Hflag. rewrite Exists_cons.
    destruct again.
    + rewrite IH. rewrite <- Hflag. split; [auto | intros [H | H]; [discriminate | exact H]].
    + cbn [snd]. split; [intros _; left; congruence | reflexivity].
Qed.

Lemma ended_on_time (now d : R) (nows : list R) :
  0 < d ->
  Exists (fun e => (progressOf (Finite d) e <? Finite 1)%js = false)
    (Finite <$> realReadings now 0 0 nows)
  <-> Exists (fun t => now + d <= t) nows.
Proof.
  intros Hd. rewrite realReadings_start.
  induction nows as [| t nows IH]; cbn [fmap list_fmap].
  - split; intros H; inversion H.
  - rewrite !Exists_cons, IH. rewrite running_positive by assumption.
    destruct (Rlt_dec ((t - now) / 1000) (d / 1000)); split;
      (intros [H | H]; [| right; exact H]);
      try discriminate; try (left; reflexivity); try (left; lra); lra.
Qed.





(** one tick, with the angle it reaches *)
Lemma animateSection_at axis sec target d e s a cs this :
  solid cs -> timed d e ->
  children this = turned (inLayer axis sec) axis s cs ->
  tracks s (rotationAngle this) ->
  currentAngleOf (Finite target) (Finite d) (Finite e) = Finite a ->
  let r := animateSection axis sec (Finite target) (Finite d) (Finite e)
             this in
  children (fst r) = turned (inLayer axis sec) axis a cs
  /\ (snd r = true -> rotationAngle (fst r) = Some (Finite a)).
Proof.
  intros Hs Ht Hc Htr Ha. rewrite animateSection_unfold. cbv zeta.
  rewrite (tracks_nullish s _ Htr), Ha. cbn [add sub neg].
  pose proof (applyRotation_turned axis sec s (0 + a + - s) cs this Hs Hc)
    as Hstep.
  rewrite (turned_ext _ _ (s + (0 + a + - s)) a) in Hstep by lra.
  destruct (progressOf (Finite d) (Finite e) <? Finite 1)%js; cbn [fst snd].
  - split; [exact Hstep | intros _].
    cbn [rotationAngle set_rotationAngle]. do 2 f_equal. lra.
  - split; [exact Hstep | discriminate].
Qed.

Lemma animateCube_at axis target d e s a cs this :
  solid cs -> timed d e ->
  children this = turn axis s <$> cs ->
  tracks s (rotationAngle this) ->
  currentAngleOf (Finite target) (Finite d) (Finite e) = Finite a ->
  let r := animateCube axis (Finite target) (Finite d) (Finite e) this in
  children (fst r) = turn axis a <$> cs
  /\ (snd r = true -> rotationAngle (fst r) = Some (Finite a)).
Proof.
  intros Hs Ht Hc Htr Ha. rewrite animateCube_unfold. cbv zeta.
  rewrite (tracks_falsy s _ Htr), Ha. cbn [add sub neg].
  pose proof (rotateEntireCube_turned axis s (a + - s) cs this Hs
                (solid_nonempty cs Hs) Hc) as Hstep.
  replace (s + (a + - s)) with a in Hstep by lra.
  destruct (progressOf (Finite d) (Finite e) <? Finite 1)%js; cbn [fst snd].
  - split; [exact Hstep | intros _; reflexivity].
  - split; [exact Hstep | discriminate].
Qed.

(** the state after the last of the readings, when the earlier ones did not
    end the animation *)
Lemma playSection_last axis sec target d es e s a cs this :
  solid cs -> 0 < d ->
  Forall (fun e' => e' < d / 1000) es ->
  children this = turned (inLayer axis sec) axis s cs ->
  tracks s (rotationAngle this) ->
  currentAngleOf (Finite target) (Finite d) (Finite e) = Finite a ->
  children
    (fst (playSection axis sec (Finite target) (Finite d)
            (Finite <$> es ++ [e]) this))
  = turned (inLayer axis sec) axis a cs.
Proof.
  intros Hs Hd Hes. revert s this.
  induction Hes as [| e' es He' Hes IH]; intros s this Hc Htr Ha.
  - cbn [app fmap list_fmap playSection].
    pose proof (animateSection_at axis sec target d e s a cs this Hs
                  (or_introl Hd) Hc Htr Ha) as [H _]. cbv zeta in H.
    destruct (animateSection axis sec (Finite target) (Finite d) (Finite e)
                this) as [this' again]. cbn [fst] in H.
    destruct again; exact H.
  - cbn [app fmap list_fmap playSection].
    destruct (currentAngleOf_finite target d e' (or_introl Hd)) as (a' & Ha').
    pose proof (animateSection_at axis sec target d e' s a' cs this Hs
                  (or_introl Hd) Hc Htr Ha') as [Hc' Hrun]. cbv zeta in Hc', Hrun.
    pose proof (animateSection_flags axis sec (Finite target) (Finite d)
                  (Finite e') this) as [Hflag _]. cbv zeta in Hflag.
    rewrite running_positive in Hflag by assumption.
    destruct (Rlt_dec e' (d / 1000)); [| contradiction].
    destruct (animateSection axis sec (Finite target) (Finite d) (Finite e')
                this) as [this' again]. cbn [fst snd] in *. subst again.
    apply (IH a' this' Hc'); [| exact Ha]. right. auto.
Qed.

Lemma playCube_last axis target d es e s a cs this :
  solid cs -> 0 < d ->
  Forall (fun e' => e' < d / 1000) es ->
  children this = turn axis s <$> cs ->
  tracks s (rotationAngle this) ->
  currentAngleOf (Finite target) (Finite d) (Finite e) = Finite a ->
  children
    (fst (playCube axis (Finite target) (Finite d) (Finite <$> es ++ [e])
            this))
  = turn axis a <$> cs.
Proof.
  intros Hs Hd Hes. revert s this.
  induction Hes as [| e' es He' Hes IH]; intros s this Hc Htr Ha.
  - cbn [app fmap list_fmap playCube].
    pose proof (animateCube_at axis target d e s a cs this Hs
                  (or_introl Hd) Hc Htr Ha) as [H _]. cbv zeta in H.
    destruct (animateCube axis (Finite target) (Finite d) (Finite e) this)
      as [this' again]. cbn [fst] in H.
    destruct again; exact H.
  - cbn [app fmap list_fmap playCube].
    destruct (currentAngleOf_finite target d e' (or_introl Hd)) as (a' & Ha').
    pose proof (animateCube_at axis target d e' s a' cs this Hs
                  (or_introl Hd) Hc Htr Ha') as [Hc' Hrun]. cbv zeta in Hc', Hrun.
    pose proof (animateCube_flags axis (Finite target) (Finite d)
                  (Finite e') this) as [Hflag _]. cbv zeta in Hflag.
    rewrite running_positive in Hflag by assumption.
    destruct (Rlt_dec e' (d / 1000)); [| contradiction].
    destruct (animateCube axis (Finite target) (Finite d) (Finite e') this)
      as [this' again]. cbn [fst snd] in *. subst again.
    apply (IH a' this' Hc'); [| exact Ha]. right. auto.
Qed.

(** X15.  An animation follows the clock, not its own steps.  On an idle
    cube whose pieces are on the grid and axis-aligned, after [rotate] at
    the time [now] with a duration [d > 0], frames that all come before
    [now + d], and one more frame at the time [t], the pieces of the layer
    stand turned from where they were by the angle [currentAngle] the
    closure computes for the elapsed time [(t - now) / 1000] alone, and
    the other pieces are where they were; the same holds for every piece
    after [rotateCube]. *)
Theorem animation_follows_the_clock
    (pick : nat -> Axis * section * Direction) (now d t : R)
    (nows : list R) (axis : Axis) (sec : section) (direction : Direction)
    (this : RubiksCube) :
  solid (children this) -> idle this -> 0 < d ->
  Forall (fun t' => t' < now + d) nows ->
  exists a,
    currentAngleOf (targetAngleOf direction) (Finite d)
      (Finite ((t - now) / 1000)) = Finite a
    /\ children
         (cube (frames pick
                  (rotate (Finite now) axis sec direction (Finite d) None
                     (browser this []))
                  (Finite <$> nows ++ [t])))
       = turned (inLayer axis sec) axis a (children this)
    /\ (isRotating this = false ->
        children
          (cube (frames pick
                   (rotateCube (Finite now) axis direction (Finite d)
                      (browser this []))
                   (Finite <$> nows ++ [t])))
        = turn axis a <$> children this).
Proof.
  intros Hs (Hdrag & Hax & Hsec & Hang) Hd Hnows.
  rewrite targetAngleOf_finite.
  set (target := match direction with
                 | clockwise => PI / 2
                 | counterclockwise => - PI / 2
                 end).
  destruct (currentAngleOf_finite target d ((t - now) / 1000) (or_introl Hd))
    as (a & Ha).
  exists a. split; [exact Ha |].
  assert (realReadings now 0 0 (nows ++ [t])
          = ((fun t' => (t' - now) / 1000) <$> nows) ++ [(t - now) / 1000])
    as Hread.
  { rewrite realReadings_start, fmap_app. reflexivity. }
  assert (Forall (fun e' => e' < d / 1000)
            ((fun t' => (t' - now) / 1000) <$> nows)) as Hes.
  { apply Forall_fmap. eapply Forall_impl; [exact Hnows |].
    intros t' Ht'. cbn [compose]. lra. }
  split.
  - destruct (rotate_frames pick now axis sec direction d (nows ++ [t]) this)
      as [-> _].
    rewrite targetAngleOf_finite. fold target. rewrite Hread.
    apply (playSection_last axis sec target d _ _ 0); try assumption.
    + symmetry. exact (turned_zero (sectionTest sec) axis _ Hs).
    + left. auto.
  - intros Hfree.
    destruct (rotateCube_frames pick now axis direction d (nows ++ [t]) this
                Hfree) as [-> _].
    rewrite targetAngleOf_finite. fold target. rewrite Hread.
    apply (playCube_last axis target d _ _ 0); try assumption.
    + symmetry. exact (turned_zero (fun _ => true) axis _ Hs).
    + left. auto.
Qed.

Lemma animation_follows_the_clock_witness :
  exists a,
    currentAngleOf (targetAngleOf clockwise) (Finite 500)
      (Finite ((1250 - 1000) / 1000)) = Finite a
    /\ children
         (cube (frames (fun _ => (X, Sec0, clockwise))
                  (rotate (Finite 1000) Y Sec1 clockwise (Finite 500) None
                     (browser RubiksCube_new []))
                  (Finite <$> [1016; 1100] ++ [1250])))
       = turned (inLayer Y Sec1) Y a (children RubiksCube_new).
Proof.
  destruct (animation_follows_the_clock (fun _ => (X, Sec0, clockwise))
              1000 500 1250 [1016; 1100] Y Sec1 clockwise RubiksCube_new
              initCube_solid) as (a & Ha & Hc & _).
  - repeat split.
  - lra.
  - repeat constructor; lra.
  - exists a. split; assumption.
Defined.

End Timing.

(** ** The angle of an animation *)
Module Overshoot.
Import JS Three Cube Grid Moves NumberFacts AnimationFacts ZeroDuration
  GuardFacts Easing Timing LayerTurns.
Local Open Scope R_scope.








End Overshoot.

(** ** Completed rotations *)
Module QuarterTurns.
Import JS Three Cube Grid Moves NumberFacts TurnFacts AlignFacts GridFacts
  StoreFacts StepFacts QuarterFacts AnimationFacts ZeroDuration GuardFacts
  RunFacts FrameFacts GridInvariant Timing LayerTurns.
Local Open Scope R_scope.

Lemma turn_quarter axis direction x y z m :
  turn axis (angleOf direction) (fobj x y z m)
  = quarterPiece axis direction x y z m.
Proof.
  rewrite turn_fobj, rotation_quarter.
  assert (cos (- PI / 2) = 0 /\ sin (- PI / 2) = -1) as [Hc Hs].
  { replace (- PI / 2) with (- (PI / 2)) by lra.
    rewrite cos_neg, sin_neg, cos_PI2, sin_PI2. split; lra. }
  destruct axis, direction;
    cbv [turnedX turnedY turnedZ angleOf quarterPiece quarterPoint];
    rewrite ?cos_PI2, ?sin_PI2, ?Hc, ?Hs; unfold fobj, fvec; fields_eq; lra.
Qed.

Lemma browser_eta w :
  frameRequests w = [] -> w = browser (cube w) [].
Proof. destruct w. cbn. intros ->. reflexivity. Qed.

Lemma playSection_released axis sec targetAngle duration readings this :
  snd (playSection axis sec targetAngle duration readings this) = false ->
  isRotating (fst (playSection axis sec targetAngle duration readings this))
  = false.
Proof.
  revert this. induction readings as [| e readings IH]; intros this;
    [discriminate |].
  cbn [playSection].
  pose proof (animateSection_flags axis sec targetAngle duration e this)
    as [_ Hflag]. cbv zeta in Hflag.
  destruct (animateSection axis sec targetAngle duration e this)
    as [this' again]. cbn [fst snd] in Hflag.
  destruct again; [apply IH | intros _; exact Hflag].
Qed.

Lemma playCube_released axis targetAngle duration readings this :
  snd (playCube axis targetAngle duration readings this) = false ->
  isRotating (fst (playCube axis targetAngle duration readings this)) = false.
Proof.
  revert this. induction readings as [| e readings IH]; intros this;
    [discriminate |].
  cbn [playCube].
  pose proof (animateCube_flags axis targetAngle duration e this)
    as [_ Hflag]. cbv zeta in Hflag.
  destruct (animateCube axis targetAngle duration e this)
    as [this' again]. cbn [fst snd] in Hflag.
  destruct again; [apply IH | intros _; exact Hflag].
Qed.

(** a completed layer animation *)
Lemma rotateThen_done pick now axis sec direction d nows this :
  solid (children this) -> idle this -> 0 < d ->
  let w := rotateThen pick now axis sec direction d nows this in
  frameRequests w = [] ->
  w = browser (cube w) []
  /\ children (cube w)
     = turned (inLayer axis sec) axis (angleOf direction) (children this)
  /\ solid (children (cube w)) /\ idle (cube w)
  /\ isRotating (cube w) = false.
Proof.
  intros Hs Hidle Hd w Hdone.
  split; [apply browser_eta, Hdone |].
  destruct (rotate_frames pick now axis sec direction d nows this)
    as [Hcube Hq]. fold (rotateThen pick now axis sec direction d nows this)
    in Hcube, Hq. fold w in Hcube, Hq. apply Hq in Hdone.
  rewrite Hcube.
  destruct (layer_rotation_solid this axis sec direction d _ Hs Hidle
              (Forall_timed_positive d _ Hd) Hdone) as (Hc & Hsolid & Hi).
  split; [exact Hc |]. split; [exact Hsolid |]. split; [exact Hi |].
  apply playSection_released, Hdone.
Qed.

(** a completed whole-cube animation *)
Lemma rotateCubeThen_done pick now axis direction d nows this :
  solid (children this) -> idle this -> isRotating this = false -> 0 < d ->
  let w := rotateCubeThen pick now axis direction d nows this in
  frameRequests w = [] ->
  w = browser (cube w) []
  /\ children (cube w) = turn axis (angleOf direction) <$> children this
  /\ solid (children (cube w)) /\ idle (cube w)
  /\ isRotating (cube w) = false.
Proof.
  intros Hs Hidle Hfree Hd w Hdone.
  split; [apply browser_eta, Hdone |].
  destruct (rotateCube_frames pick now axis direction d nows this Hfree)
    as [Hcube Hq]. fold (rotateCubeThen pick now axis direction d nows this)
    in Hcube, Hq. fold w in Hcube, Hq. apply Hq in Hdone.
  rewrite Hcube.
  destruct (cube_rotation_solid this axis direction d _ Hs Hidle
              (Forall_timed_positive d _ Hd) Hdone) as (Hc & Hsolid & Hi).
  split; [exact Hc |]. split; [exact Hsolid |]. split; [exact Hi |].
  apply playCube_released, Hdone.
Qed.

Lemma solid_lookup cs i c :
  solid cs -> cs !! i = Some c ->
  exists x y z m,
    c = fobj x y z m /\ coord x /\ coord y /\ coord z /\ aligned m.
Proof.
  intros Hs Hl. apply (solid_piece cs c Hs).
  eapply list_elem_of_lookup_2, Hl.
Qed.

(** X17.  A completed layer rotation, for every axis, section and
    direction.  On an idle cube whose pieces are on the grid and
    axis-aligned, once the animation [rotate] starts with a duration
    [d > 0] has ended, every piece of the section has made the quarter turn
    about the axis: its position [(x, y, z)] is the one [quarterPoint]
    gives, its orientation is the quarter-turn matrix times the one it had;
    every other piece has kept its position and its orientation; and the
    frame queue is empty and nothing is tracked any more. *)
Theorem rotate_quarter_turn (pick : nat -> Axis * section * Direction)
    (now d : R) (nows : list R) (axis : Axis) (sec : section)
    (direction : Direction) (this : RubiksCube) :
  solid (children this) -> idle this -> 0 < d ->
  let w := rotateThen pick now axis sec direction d nows this in
  frameRequests w = [] ->
  (forall i c, children this !! i = Some c ->
     exists x y z m,
       c = fobj x y z m
       /\ children (cube w) !! i
          = Some (if isInSection (fvec x y z) axis sec
                  then quarterPiece axis direction x y z m
                  else fobj x y z m))
  /\ length (children (cube w)) = length (children this)
  /\ idle (cube w) /\ isRotating (cube w) = false.
Proof.
  intros Hs Hidle Hd w Hdone.
  destruct (rotateThen_done pick now axis sec direction d nows this Hs Hidle
              Hd Hdone) as (_ & Hc & _ & Hi & Hr). fold w in Hc, Hi, Hr.
  split; [| split; [| split; assumption]].
  - intros i c Hl.
    destruct (solid_lookup _ i c Hs Hl) as (x & y & z & m & -> & _).
    exists x, y, z, m. split; [reflexivity |].
    rewrite Hc. unfold turned. rewrite list_lookup_fmap, Hl.
    cbn [fmap option_fmap option_map]. f_equal.
    change (inLayer axis sec (fobj x y z m))
      with (isInSection (fvec x y z) axis sec).
    destruct (isInSection (fvec x y z) axis sec); [| reflexivity].
    apply turn_quarter.
  - rewrite Hc. unfold turned. apply length_fmap.
Qed.

Lemma rotateThen_ends pick now axis sec direction d nows this :
  0 < d -> Exists (fun t => now + d <= t) nows ->
  frameRequests (rotateThen pick now axis sec direction d nows this) = [].
Proof.
  intros Hd Hex. unfold rotateThen.
  destruct (rotate_frames pick now axis sec direction d nows this)
    as [_ Hq]. cbv zeta in Hq.
  apply Hq. apply playSection_ended. apply ended_on_time; assumption.
Qed.

Lemma rotateThen_example :
  frameRequests
    (rotateThen (fun _ => (X, Sec0, clockwise)) 1000 Z Sec2 counterclockwise
       500 [1016; 1250; 1500] RubiksCube_new)
  = [].
Proof.
  unfold rotateThen.
  destruct (rotate_frames (fun _ => (X, Sec0, clockwise)) 1000 Z Sec2
              counterclockwise 500 [1016; 1250; 1500] RubiksCube_new)
    as [_ Hq]. cbv zeta in Hq.
  apply Hq. apply playSection_ended. apply ended_on_time; [lra |].
  right. right. left. lra.
Qed.

Lemma rotate_quarter_turn_witness :
  length
    (children
       (cube (rotateThen (fun _ => (X, Sec0, clockwise)) 1000 Z Sec2
                counterclockwise 500 [1016; 1250; 1500] RubiksCube_new)))
  = length (children RubiksCube_new).
Proof.
  refine (proj1 (proj2 (rotate_quarter_turn (fun _ => (X, Sec0, clockwise))
                          1000 500 [1016; 1250; 1500] Z Sec2 counterclockwise
                          RubiksCube_new initCube_solid _ _ _))).
  - repeat split.
  - lra.
  - exact rotateThen_example.
Defined.

(** X18.  A completed whole-cube rotation.  On an idle cube whose pieces
    are on the grid and axis-aligned and on which no whole-cube rotation is
    in flight, once the animation [rotateCube] starts with a duration
    [d > 0] has ended, every piece has made the quarter turn about the
    axis through the centre of the cube, and [isRotating] is false again. *)
Theorem rotateCube_quarter_turn (pick : nat -> Axis * section * Direction)
    (now d : R) (nows : list R) (axis : Axis) (direction : Direction)
    (this : RubiksCube) :
  solid (children this) -> idle this -> isRotating this = false -> 0 < d ->
  let w := rotateCubeThen pick now axis direction d nows this in
  frameRequests w = [] ->
  (forall i c, children this !! i = Some c ->
     exists x y z m,
       c = fobj x y z m
       /\ children (cube w) !! i = Some (quarterPiece axis direction x y z m))
  /\ length (children (cube w)) = length (children this)
  /\ idle (cube w) /\ isRotating (cube w) = false.
Proof.
  intros Hs Hidle Hfree Hd w Hdone.
  destruct (rotateCubeThen_done pick now axis direction d nows this Hs Hidle
              Hfree Hd Hdone) as (_ & Hc & _ & Hi & Hr). fold w in Hc, Hi, Hr.
  split; [| split; [| split; assumption]].
  - intros i c Hl.
    destruct (solid_lookup _ i c Hs Hl) as (x & y & z & m & -> & _).
    exists x, y, z, m. split; [reflexivity |].
    rewrite Hc, list_lookup_fmap, Hl.
    cbn [fmap option_fmap option_map]. f_equal. apply turn_quarter.
  - rewrite Hc. apply length_fmap.
Qed.

Lemma rotateCubeThen_example :
  frameRequests
    (rotateCubeThen (fun _ => (X, Sec0, clockwise)) 1000 X clockwise 500
       [1016; 1250; 1500] RubiksCube_new)
  = [].
Proof.
  unfold rotateCubeThen.
  destruct (rotateCube_frames (fun _ => (X, Sec0, clockwise)) 1000 X
              clockwise 500 [1016; 1250; 1500] RubiksCube_new eq_refl)
    as [_ Hq]. cbv zeta in Hq.
  apply Hq. apply playCube_ended. apply ended_on_time; [lra |].
  right. right. left. lra.
Qed.

Lemma rotateCube_quarter_turn_witness :
  isRotating
    (cube (rotateCubeThen (fun _ => (X, Sec0, clockwise)) 1000 X clockwise
             500 [1016; 1250; 1500] RubiksCube_new))
  = false.
Proof.
  refine (proj2 (proj2 (proj2
            (rotateCube_quarter_turn (fun _ => (X, Sec0, clockwise)) 1000 500
               [1016; 1250; 1500] X clockwise RubiksCube_new initCube_solid
               _ _ _ _)))).
  - repeat split.
  - reflexivity.
  - lra.
  - exact rotateCubeThen_example.
Defined.

Lemma turned_turned q axis s t cs :
  solid cs ->
  turned (selects q axis) axis t (turned (selects q axis) axis s cs)
  = turned (selects q axis) axis (s + t) cs.
Proof.
  intros Hs. destruct axis; exact (rotate_turned q _ s t 0 cs Hs).
Qed.

Lemma turn_full axis x y z m :
  turn axis (2 * PI) (fobj x y z m) = fobj x y z m
  /\ turn axis (- (2 * PI)) (fobj x y z m) = fobj x y z m.
Proof.
  rewrite !turn_fobj.
  destruct axis; cbv [turnedX turnedY turnedZ rotation RMatrix_mul
    r11 r12 r13 r21 r22 r23 r31 r32 r33]; destruct m;
    rewrite ?cos_neg, ?sin_neg, ?cos_2PI, ?sin_2PI;
    split; unfold fobj, fvec, fmat; cbn [r11 r12 r13 r21 r22 r23 r31 r32 r33];
    fields_eq; lra.
Qed.

Lemma turned_full q axis direction cs :
  solid cs ->
  turned (selects q axis) axis
    (angleOf direction + angleOf direction + angleOf direction
     + angleOf direction) cs
  = cs.
Proof.
  intros Hs. unfold turned. rewrite <- (list_fmap_id cs) at 2.
  apply list_fmap_ext. intros i o Ho. apply list_elem_of_lookup_2 in Ho.
  destruct (solid_piece cs o Hs Ho) as (x & y & z & m & -> & _).
  destruct (selects q axis (fobj x y z m)); [| reflexivity].
  destruct (turn_full axis x y z m) as [Hp Hn].
  destruct direction; cbn [angleOf].
  - replace (PI / 2 + PI / 2 + PI / 2 + PI / 2) with (2 * PI) by lra.
    exact Hp.
  - replace (- PI / 2 + - PI / 2 + - PI / 2 + - PI / 2) with (- (2 * PI))
      by lra.
    exact Hn.
Qed.

(** X19.  A rotation undone.  On an idle cube whose pieces are on the grid
    and axis-aligned, a rotation of a layer run until its animation has
    ended, followed by the rotation of the same layer in the opposite
    direction run until its animation has ended, gives back every piece its
    position and its orientation. *)
Theorem opposite_rotations_cancel
    (pick : nat -> Axis * section * Direction)
    (now1 d1 : R) (nows1 : list R) (now2 d2 : R) (nows2 : list R)
    (axis : Axis) (sec : section) (direction : Direction)
    (this : RubiksCube) :
  solid (children this) -> idle this -> 0 < d1 -> 0 < d2 ->
  let w1 := rotateThen pick now1 axis sec direction d1 nows1 this in
  let w2 :=
    rotateThen pick now2 axis sec (opposite direction) d2 nows2 (cube w1) in
  frameRequests w1 = [] -> frameRequests w2 = [] ->
  children (cube w2) = children this.
Proof.
  intros Hs Hidle Hd1 Hd2 w1 w2 Hdone1 Hdone2.
  destruct (rotateThen_done pick now1 axis sec direction d1 nows1 this Hs
              Hidle Hd1 Hdone1) as (_ & Hc1 & Hs1 & Hi1 & _).
  fold w1 in Hc1, Hs1, Hi1.
  destruct (rotateThen_done pick now2 axis sec (opposite direction) d2 nows2
              (cube w1) Hs1 Hi1 Hd2 Hdone2) as (_ & Hc2 & _).
  fold w2 in Hc2. rewrite Hc2, Hc1.
  change (inLayer axis sec) with (selects (sectionTest sec) axis).
  rewrite turned_turned by assumption.
  rewrite (turned_ext _ axis _ 0) by (destruct direction; cbn; lra).
  apply turned_zero, Hs.
Qed.

Lemma rotateThen_back :
  let w1 :=
    rotateThen (fun _ => (X, Sec0, clockwise)) 1000 Z Sec2 counterclockwise
      500 [1016; 1250; 1500] RubiksCube_new in
  frameRequests
    (rotateThen (fun _ => (X, Sec0, clockwise)) 2000 Z Sec2 clockwise 300
       [2100; 2400] (cube w1))
  = [].
Proof.
  intros w1. unfold rotateThen.
  destruct (rotate_frames (fun _ => (X, Sec0, clockwise)) 2000 Z Sec2
              clockwise 300 [2100; 2400] (cube w1))
    as [_ Hq]. cbv zeta in Hq.
  apply Hq. apply playSection_ended. apply ended_on_time; [lra |].
  right. left. lra.
Qed.

Lemma opposite_rotations_cancel_witness :
  let w1 :=
    rotateThen (fun _ => (X, Sec0, clockwise)) 1000 Z Sec2 counterclockwise
      500 [1016; 1250; 1500] RubiksCube_new in
  children
    (cube (rotateThen (fun _ => (X, Sec0, clockwise)) 2000 Z Sec2 clockwise
             300 [2100; 2400] (cube w1)))
  = children RubiksCube_new.
Proof.
  intros w1.
  refine (opposite_rotations_cancel (fun _ => (X, Sec0, clockwise))
            1000 500 [1016; 1250; 1500] 2000 300 [2100; 2400] Z Sec2
            counterclockwise RubiksCube_new initCube_solid _ _ _ _ _).
  - repeat split.
  - lra.
  - lra.
  - exact rotateThen_example.
  - exact rotateThen_back.
Defined.

(** X20.  Four quarter turns.  On an idle cube whose pieces are on the grid
    and axis-aligned, four rotations of the same layer in the same
    direction, each run until its animation has ended, give back every
    piece its position and its orientation. *)
Theorem four_rotations_restore
    (pick : nat -> Axis * section * Direction)
    (now1 d1 : R) (nows1 : list R) (now2 d2 : R) (nows2 : list R)
    (now3 d3 : R) (nows3 : list R) (now4 d4 : R) (nows4 : list R)
    (axis : Axis) (sec : section) (direction : Direction)
    (this : RubiksCube) :
  solid (children this) -> idle this ->
  0 < d1 -> 0 < d2 -> 0 < d3 -> 0 < d4 ->
  let w1 := rotateThen pick now1 axis sec direction d1 nows1 this in
  let w2 := rotateThen pick now2 axis sec direction d2 nows2 (cube w1) in
  let w3 := rotateThen pick now3 axis sec direction d3 nows3 (cube w2) in
  let w4 := rotateThen pick now4 axis sec direction d4 nows4 (cube w3) in
  frameRequests w1 = [] -> frameRequests w2 = [] ->
  frameRequests w3 = [] -> frameRequests w4 = [] ->
  children (cube w4) = children this.
Proof.
  intros Hs Hidle Hd1 Hd2 Hd3 Hd4 w1 w2 w3 w4 Hdone1 Hdone2 Hdone3 Hdone4.
  destruct (rotateThen_done pick now1 axis sec direction d1 nows1 this Hs
              Hidle Hd1 Hdone1) as (_ & Hc1 & Hs1 & Hi1 & _).
  fold w1 in Hc1, Hs1, Hi1.
  destruct (rotateThen_done pick now2 axis sec direction d2 nows2 (cube w1)
              Hs1 Hi1 Hd2 Hdone2) as (_ & Hc2 & Hs2 & Hi2 & _).
  fold w2 in Hc2, Hs2, Hi2.
  destruct (rotateThen_done pick now3 axis sec direction d3 nows3 (cube w2)
              Hs2 Hi2 Hd3 Hdone3) as (_ & Hc3 & Hs3 & Hi3 & _).
  fold w3 in Hc3, Hs3, Hi3.
  destruct (rotateThen_done pick now4 axis sec direction d4 nows4 (cube w3)
              Hs3 Hi3 Hd4 Hdone4) as (_ & Hc4 & _).
  fold w4 in Hc4. rewrite Hc4, Hc3, Hc2, Hc1.
  change (inLayer axis sec) with (selects (sectionTest sec) axis).
  set (a := angleOf direction).
  rewrite (turned_turned _ axis a a _ Hs).
  rewrite (turned_turned _ axis (a + a) a _ Hs).
  rewrite (turned_turned _ axis (a + a + a) a _ Hs).
  apply turned_full, Hs.
Qed.

Lemma four_rotations_restore_witness :
  let pick := fun _ : nat => (X, Sec0, clockwise) in
  let w1 := rotateThen pick 0 X Sec0 clockwise 500 [250; 500] RubiksCube_new in
  let w2 := rotateThen pick 1000 X Sec0 clockwise 500 [1500] (cube w1) in
  let w3 := rotateThen pick 2000 X Sec0 clockwise 500 [2600] (cube w2) in
  let w4 := rotateThen pick 3000 X Sec0 clockwise 500 [3700] (cube w3) in
  children (cube w4) = children RubiksCube_new.
Proof.
  intros pick w1 w2 w3 w4.
  refine (four_rotations_restore pick 0 500 [250; 500] 1000 500 [1500]
            2000 500 [2600] 3000 500 [3700] X Sec0 clockwise RubiksCube_new
            initCube_solid _ _ _ _ _ _ _ _ _); try lra.
  - repeat split.
  - apply rotateThen_ends; [lra |]. right. left. lra.
  - apply rotateThen_ends; [lra |]. left. lra.
  - apply rotateThen_ends; [lra |]. left. lra.
  - apply rotateThen_ends; [lra |]. left. lra.
Defined.

End QuarterTurns.

(** ** The whole cube, layer by layer *)
Module WholeByLayers.
Import JS Three Cube Grid Moves NumberFacts TurnFacts BoxFacts AlignFacts
  GridFacts StoreFacts StepFacts QuarterFacts Layers RunFacts LayerTurns Pivot.
Local Open Scope R_scope.

(** the pieces of a section, when pieces of other sections are turned *)
Lemma filter_other q axis sec t cs :
  solid cs ->
  (forall v, q v = true -> sectionTest sec v = false) ->
  List.filter (selects (sectionTest sec) axis)
    (turned (selects q axis) axis t cs)
  = List.filter (selects (sectionTest sec) axis) cs.
Proof.
  intros Hs Hq. unfold turned.
  assert (forall o, o ∈ cs -> exists x y z m, o = fobj x y z m) as Hfin
      by (intros o Ho; exact (solid_fobj cs o Hs Ho)).
  clear Hs. induction cs as [| c cs IH]; [reflexivity |].
  cbn [fmap list_fmap List.filter].
  destruct (Hfin c ltac:(left)) as (x & y & z & m & ->).
  rewrite IH by (intros o Ho; apply Hfin; right; exact Ho).
  destruct (selects q axis (fobj x y z m)) eqn:Hsel; [| reflexivity].
  rewrite selects_turn. unfold selects in *.
  rewrite (Hq _ Hsel). reflexivity.
Qed.

Lemma applyRotation_mixed q axis sec t cs this :
  solid cs ->
  (forall v, q v = true -> sectionTest sec v = false) ->
  children this = turned (selects q axis) axis t cs ->
  children (applyRotation axis sec (Finite t) this)
  = turned (selects (fun v => q v || sectionTest sec v) axis) axis t cs.
Proof.
  intros Hs Hq Hc. unfold applyRotation. cbv zeta.
  rewrite length_getSectionCubes, Hc, (filter_other q axis sec t cs Hs Hq).
  pose proof (layer_nonempty axis sec cs Hs) as Hne.
  destruct (List.filter (selects (sectionTest sec) axis) cs) as [| o rest]
    eqn:Hsel; [congruence |].
  cbn [length Nat.eqb]. rewrite children_rotate_section.
  unfold createPivot. rewrite calculateGroupCenter_section.
  change (fun c => isInSection (position c) axis sec)
    with (selects (sectionTest sec) axis).
  rewrite Hc, (filter_other q axis sec t cs Hs Hq), Hsel.
  pose proof (layer_center axis sec 0 cs Hs) as Hcenter.
  rewrite (turned_zero (sectionTest sec) axis cs Hs), Hsel in Hcenter.
  rewrite Hcenter. unfold turned. rewrite <- list_fmap_compose.
  apply list_fmap_ext. intros i c Hl. cbn [compose].
  apply list_elem_of_lookup_2 in Hl.
  destruct (solid_fobj cs c Hs Hl) as (x & y & z & m & ->).
  change (fun c : Object3D => isInSection (position c) axis sec)
    with (selects (sectionTest sec) axis).
  assert (selects (fun v => q v || sectionTest sec v) axis (fobj x y z m)
          = selects q axis (fobj x y z m)
            || selects (sectionTest sec) axis (fobj x y z m)) as ->
      by reflexivity.
  change (isInSection (position ?o) axis sec)
    with (selects (sectionTest sec) axis o).
  destruct (selects q axis (fobj x y z m)) eqn:Hqc.
  - cbn [orb]. rewrite selects_turn. unfold selects in *.
    rewrite (Hq _ Hqc). reflexivity.
  - cbn [orb].
    destruct (selects (sectionTest sec) axis (fobj x y z m)); [| reflexivity].
    rewrite rotateAroundPivot_fobj, turn_fobj. reflexivity.
Qed.

(** X21.  The whole cube, layer by layer.  On a cube whose pieces are on
    the grid and axis-aligned, turning the three sections of an axis by the
    same angle, one after the other with [applyRotation], gives the state
    [rotateEntireCube] gives for that axis and angle. *)
Theorem rotateEntireCube_by_layers (axis : Axis) (t : R)
    (this : RubiksCube) :
  solid (children this) ->
  applyRotation axis Sec2 (Finite t)
    (applyRotation axis Sec1 (Finite t)
       (applyRotation axis Sec0 (Finite t) this))
  = rotateEntireCube axis (Finite t) this.
Proof.
  intros Hs.
  rewrite rotateEntireCube_fields.
  rewrite (applyRotation_fields axis Sec2).
  rewrite (applyRotation_fields axis Sec1) at 2.
  rewrite (applyRotation_fields axis Sec0) at 3.
  rewrite !set_children_twice. f_equal.
  set (cs := children this) in *.
  assert (children this = turned (selects (fun _ => false) axis) axis t cs)
    as H0.
  { unfold turned, selects. cbn beta. symmetry. apply list_fmap_id. }
  assert (forall sec sec' v,
            sec <> sec' -> sectionTest sec v = true ->
            sectionTest sec' v = false) as Hdisjoint.
  { intros sec sec' v Hne Hv. destruct (sectionTest sec' v) eqn:E;
      [| reflexivity].
    destruct Hne. exact (sectionTest_disjoint _ _ _ Hv E). }
  pose proof (applyRotation_mixed (fun _ => false) axis Sec0 t cs this Hs
                ltac:(intros v Hv; discriminate Hv) H0) as H1.
  pose proof (applyRotation_mixed
                (fun v => false || sectionTest Sec0 v) axis Sec1 t cs
                (applyRotation axis Sec0 (Finite t) this) Hs)
    as H2.
  specialize (H2 ltac:(intros v Hv; cbn [orb] in Hv;
                       apply (Hdisjoint Sec0); [discriminate | exact Hv])
                 H1).
  pose proof (applyRotation_mixed
                (fun v => false || sectionTest Sec0 v || sectionTest Sec1 v)
                axis Sec2 t cs
                (applyRotation axis Sec1 (Finite t)
                   (applyRotation axis Sec0 (Finite t) this)) Hs) as H3.
  specialize (H3 ltac:(intros v Hv; cbn [orb] in Hv;
                       apply orb_true_iff in Hv as [Hv | Hv];
                       [apply (Hdisjoint Sec0) | apply (Hdisjoint Sec1)];
                       (discriminate || exact Hv))
                 H2).
  rewrite H3.
  rewrite (rotateEntireCube_turned axis 0 t cs this Hs (solid_nonempty cs Hs)).
  2: { symmetry. exact (turned_zero (fun _ => true) axis cs Hs). }
  unfold turned. apply list_fmap_ext. intros i c Hl.
  apply list_elem_of_lookup_2 in Hl.
  destruct (solid_piece cs c Hs Hl) as (x & y & z & m & -> & Hx & Hy & Hz & _).
  replace (0 + t) with t by lra.
  assert (exists sec,
            sectionTest sec (component (position (fobj x y z m)) axis) = true)
    as (sec & Hsec).
  { destruct axis; cbn [component position fobj fvec vx vy vz];
      apply sectionTest_total; assumption. }
  unfold selects. destruct sec; rewrite Hsec; cbn [orb];
    rewrite ?orb_true_r; reflexivity.
Qed.

Lemma rotateEntireCube_by_layers_witness :
  applyRotation Y Sec2 (Finite 0.4)
    (applyRotation Y Sec1 (Finite 0.4)
       (applyRotation Y Sec0 (Finite 0.4) RubiksCube_new))
  = rotateEntireCube Y (Finite 0.4) RubiksCube_new.
Proof.
  exact (rotateEntireCube_by_layers Y 0.4 RubiksCube_new initCube_solid).
Defined.

End WholeByLayers.

(** ** The shuffle *)
Module Shuffle.
Import JS Three Cube Grid Moves NumberFacts TurnFacts GridFacts StoreFacts
  StepFacts QuarterFacts AnimationFacts ZeroDuration GuardFacts WholeCubeGuard
  RunFacts FrameFacts GridInvariant Timing.
Local Open Scope R_scope.

Lemma shuffled_S pick k cs :
  shuffled pick (S k) cs = drawn (pick k) (shuffled pick k cs).
Proof.
  unfold shuffled. rewrite seq_S, foldl_app. reflexivity.
Qed.

Lemma drawn_solid p cs : solid cs -> solid (drawn p cs).
Proof.
  destruct p as [[axis sec] direction]. intros Hs.
  exact (turned_quarter_solid (sectionTest sec) axis direction cs Hs).
Qed.

Lemma shuffled_solid pick k cs : solid cs -> solid (shuffled pick k cs).
Proof.
  intros Hs. induction k as [| k IH]; [exact Hs |].
  rewrite shuffled_S. apply drawn_solid, IH.
Qed.

(** [shuffleTurn(k)] between two turns *)
Lemma shuffleTurn_shuffling pick now k turns cs this :
  solid cs -> (k <= turns)%nat ->
  children this = shuffled pick k cs -> idle this ->
  shuffling pick turns cs
    (shuffleTurn pick (Finite now) k turns (browser this [])).
Proof.
  intros Hs Hk Hc Hidle. unfold shuffleTurn.
  destruct (Nat.ltb k turns) eqn:Hlt.
  - apply Nat.ltb_lt in Hlt.
    destruct (pick k) as [[axis sec] direction] eqn:Hpick.
    right. exists k, now, 0, axis, sec, direction, 0.
    destruct Hidle as (Hd & Hax & Hsec & Hang).
    split; [exact Hlt |]. split; [exact Hpick |]. split; [reflexivity |].
    cbn [cube rotate animateSectionRotation Clock_start requestAnimationFrame].
    split.
    { rewrite Hc. symmetry.
      exact (turned_zero (sectionTest sec) axis _ (shuffled_solid pick k cs Hs)). }
    split; [left; auto |]. auto.
  - apply Nat.ltb_ge in Hlt. assert (k = turns) as -> by lia.
    left. cbn [cube frameRequests]. auto.
Qed.

(** one animation frame of a shuffle *)
Lemma animationFrame_shuffling pick now turns cs w :
  solid cs -> shuffling pick turns cs w ->
  shuffling pick turns cs (animationFrame pick (Finite now) w).
Proof.
  intros Hs [(Hq & Hc & Hidle) | Hrun].
  - left. unfold animationFrame. rewrite Hq. cbn [foldl cube frameRequests].
    auto.
  - destruct Hrun
      as (k & old & el & axis & sec & direction & s & Hk & Hpick & Hq & Hc
          & Htr & Hd & Hax & Hsec).
    unfold animationFrame. rewrite Hq. cbn [foldl].
    rewrite runFrame_section. cbv zeta.
    rewrite Clock_getElapsedTime_finite. cbn [fst snd cube frameRequests app].
    cbn [sub add neg]. rewrite targetAngleOf_finite.
    change (match direction with
            | clockwise => PI / 2
            | counterclockwise => - PI / 2
            end) with (angleOf direction).
    set (e := el + (now - old) / 1000 + - 0).
    pose proof (shuffled_solid pick k cs Hs) as Hsk.
    destruct (animateSection_turned axis sec (angleOf direction) 500 e s
                (shuffled pick k cs) (cube w) Hsk
                ltac:(left; lra) Hc Htr) as (a & Ha). cbv zeta in Ha.
    pose proof (animateSection_session axis sec (Finite (angleOf direction))
                  (Finite 500) (Finite e) (cube w)) as Hses.
    cbv zeta in Hses.
    destruct (animateSection axis sec (Finite (angleOf direction))
                (Finite 500) (Finite e) (cube w)) as [this' again].
    cbn [fst snd] in Ha, Hses |- *.
    destruct Ha as (Hc' & Hrun & Hend). destruct Hses as (H1 & H2 & H3).
    destruct again.
    + right. exists k, now, (el + (now - old) / 1000), axis, sec, direction, a.
      split; [exact Hk |]. split; [exact Hpick |].
      split.
      { cbn [frameRequests]. rewrite targetAngleOf_finite. reflexivity. }
      split; [exact Hc' |]. split; [right; auto |].
      cbn [cube]. repeat split; congruence.
    + destruct (Hend eq_refl) as [-> Hnone].
      apply shuffleTurn_shuffling; [exact Hs | lia | | ].
      * rewrite shuffled_S, Hpick. exact Hc'.
      * repeat split; congruence.
Qed.

Lemma frames_shuffling pick turns cs nows w :
  solid cs -> shuffling pick turns cs w ->
  shuffling pick turns cs (frames pick w (Finite <$> nows)).
Proof.
  intros Hs. revert w.
  induction nows as [| now nows IH]; intros w Hw; [exact Hw |].
  cbn [fmap list_fmap]. rewrite frames_cons.
  apply IH, animationFrame_shuffling; assumption.
Qed.

Lemma shuffleThen_shuffling pick now turns nows this :
  solid (children this) -> idle this ->
  shuffling pick turns (children this) (shuffleThen pick now turns nows this).
Proof.
  intros Hs Hidle. unfold shuffleThen, shuffle.
  apply frames_shuffling; [exact Hs |].
  apply shuffleTurn_shuffling; [exact Hs | lia | reflexivity | exact Hidle].
Qed.

(** the frame queue of a shuffle, whatever the pieces *)
Lemma shuffleTurn_queue pick now k turns this :
  shuffleQueue pick turns now k
    (shuffleTurn pick (Finite now) k turns (browser this [])).
Proof.
  unfold shuffleTurn. destruct (Nat.ltb k turns) eqn:Hlt.
  - apply Nat.ltb_lt in Hlt. destruct (pick k) as [[axis sec] direction].
    right. split; [exact Hlt |].
    exists now, 0, axis, sec, (targetAngleOf direction).
    split; [lra | reflexivity].
  - apply Nat.ltb_ge in Hlt. left. split; [exact Hlt | reflexivity].
Qed.

Lemma frames_queue pick turns nows start k w :
  shuffleQueue pick turns start k w ->
  frameRequests (frames pick w (Finite <$> nows)) = []
  <-> (turns <= k + completedTurns start nows)%nat.
Proof.
  revert start k w.
  induction nows as [| t nows IH]; intros start k w Hw.
  - cbn [fmap list_fmap frames foldl completedTurns].
    destruct Hw as [[Hk Hq] | (Hk & old & el & axis & sec & ta & _ & Hq)].
    + split; [lia | intros _; exact Hq].
    + rewrite Hq. split; [discriminate | lia].
  - cbn [fmap list_fmap]. rewrite frames_cons.
    destruct Hw as [[Hk Hq] | (Hk & old & el & axis & sec & ta & Hel & Hq)].
    + assert (animationFrame pick (Finite t) w = browser (cube w) []) as ->.
      { unfold animationFrame. rewrite Hq. reflexivity. }
      rewrite frames_idle. cbn [frameRequests]. split; [lia | reflexivity].
    + unfold animationFrame. rewrite Hq. cbn [foldl].
      rewrite runFrame_section. cbv zeta.
      rewrite Clock_getElapsedTime_finite.
      cbn [fst snd cube frameRequests app sub add neg].
      pose proof (animateSection_flags axis sec ta (Finite 500)
                    (Finite (el + (t - old) / 1000 + - 0)) (cube w))
        as [Hflag _]. cbv zeta in Hflag.
      rewrite running_positive in Hflag by lra.
      destruct (animateSection axis sec ta (Finite 500)
                  (Finite (el + (t - old) / 1000 + - 0)) (cube w))
        as [this' again]. cbn [fst snd] in Hflag |- *. subst again.
      cbn [completedTurns].
      destruct (Rlt_dec (el + (t - old) / 1000 + - 0) (500 / 1000))
        as [Hrun | Hend].
      * destruct (Rle_dec (start + 500) t) as [Hle | _]; [lra |].
        apply IH. right. split; [exact Hk |].
        exists t, (el + (t - old) / 1000), axis, sec, ta.
        split; [lra | reflexivity].
      * destruct (Rle_dec (start + 500) t) as [_ | Hlt]; [| lra].
        replace (k + S (completedTurns t nows))%nat
          with (S k + completedTurns t nows)%nat by lia.
        apply IH, shuffleTurn_queue.
Qed.

(** X22.  The shuffle turns one layer at a time.  On an idle cube whose
    pieces are on the grid and axis-aligned, after [shuffle(turns)] and any
    frames: at most one animation is in flight; while one is, it is the
    one of some turn [k < turns], the first [k] drawn quarter turns have
    been made in order, and the layer of turn [k] stands turned by the
    angle the cube tracks; when none is left, the [turns] drawn quarter
    turns have all been made, in order, and the cube is again on the grid,
    axis-aligned and idle.  With [turns = 0] nothing is ever requested. *)
Theorem shuffle_turns_in_order (pick : nat -> Axis * section * Direction)
    (now : R) (turns : nat) (nows : list R) (this : RubiksCube) :
  solid (children this) -> idle this ->
  let w := shuffleThen pick now turns nows this in
  (length (frameRequests w) <= 1)%nat
  /\ (frameRequests w <> [] ->
      exists k axis sec direction s,
        (k < turns)%nat /\ pick k = (axis, sec, direction)
        /\ children (cube w)
           = turned (inLayer axis sec) axis s
               (shuffled pick k (children this)))
  /\ (frameRequests w = [] ->
      children (cube w) = shuffled pick turns (children this)
      /\ solid (children (cube w)) /\ idle (cube w))
  /\ (turns = 0%nat -> frameRequests w = []).
Proof.
  intros Hs Hidle w.
  destruct (shuffleThen_shuffling pick now turns nows this Hs Hidle)
    as [(Hq & Hc & Hi)
       | (k & old & el & axis & sec & direction & s & Hk & Hpick & Hq & Hc
          & _)]; fold w in Hq, Hc.
  - fold w in Hi. split; [rewrite Hq; cbn; lia |].
    split; [congruence |]. split.
    + intros _. split; [exact Hc |]. split; [| exact Hi].
      rewrite Hc. apply shuffled_solid, Hs.
    + intros _. exact Hq.
  - split; [rewrite Hq; cbn; lia |]. split.
    + intros _. exists k, axis, sec, direction, s. auto.
    + split; [rewrite Hq; discriminate | intros ->; lia].
Qed.

Lemma shuffle_turns_in_order_witness :
  let pick := fun k : nat => (Y, Sec1, clockwise) in
  let w := shuffleThen pick 0 2 [16; 500; 516; 1000] RubiksCube_new in
  children (cube w) = shuffled pick 2 (children RubiksCube_new).
Proof.
  intros pick w.
  destruct (shuffle_turns_in_order pick 0 2 [16; 500; 516; 1000]
              RubiksCube_new initCube_solid) as (_ & _ & Hover & _).
  - repeat split.
  - apply Hover. unfold shuffleThen, shuffle.
    rewrite (frames_queue pick 2 _ 0 0) by apply shuffleTurn_queue.
    cbn [completedTurns].
    destruct (Rle_dec (0 + 500) 16); [lra |].
    destruct (Rle_dec (0 + 500) 500); [| lra].
    destruct (Rle_dec (500 + 500) 516); [lra |].
    destruct (Rle_dec (500 + 500) 1000); [| lra]. lia.
Defined.

Lemma completedTurns_le start nows :
  (completedTurns start nows <= length nows)%nat.
Proof.
  revert start. induction nows as [| t nows IH]; intros start; [cbn; lia |].
  cbn [completedTurns length].
  destruct (Rle_dec (start + 500) t);
    [specialize (IH t) | specialize (IH start)]; lia.
Qed.

(** X23.  A shuffle takes a frame per turn.  Whatever the state of the
    cube and the times of the frames, when [shuffle(turns)] and the frames
    that followed have left no frame requested, there were at least [turns]
    frames: a frame ends one turn at most, and the next turn starts in the
    frame that ends the turn before.  From then on animation frames change
    nothing. *)
Theorem shuffle_takes_a_frame_per_turn
    (pick : nat -> Axis * section * Direction) (now : R) (turns : nat)
    (nows : list R) (more : list number) (this : RubiksCube) :
  frameRequests (shuffleThen pick now turns nows this) = [] ->
  (turns <= length nows)%nat
  /\ frames pick (shuffleThen pick now turns nows this) more
     = shuffleThen pick now turns nows this.
Proof.
  intros Hq. split.
  - unfold shuffleThen, shuffle in Hq.
    rewrite (frames_queue pick turns nows now 0) in Hq
      by apply shuffleTurn_queue.
    pose proof (completedTurns_le now nows). lia.
  - destruct (shuffleThen pick now turns nows this) as [this' queue].
    cbn [frameRequests] in Hq. subst queue. apply frames_idle.
Qed.

Lemma shuffle_takes_a_frame_per_turn_witness :
  let pick := fun k : nat => (Y, Sec1, clockwise) in
  let w := shuffleThen pick 0 2 [16; 500; 516; 1000] RubiksCube_new in
  (2 <= length [16; 500; 516; 1000])%nat
  /\ frames pick w [Finite 1016] = w.
Proof.
  intros pick w.
  apply (shuffle_takes_a_frame_per_turn pick 0 2 [16; 500; 516; 1000]
           [Finite 1016] RubiksCube_new).
  unfold shuffleThen, shuffle.
  rewrite (frames_queue pick 2 _ 0 0) by apply shuffleTurn_queue.
  cbn [completedTurns].
  destruct (Rle_dec (0 + 500) 16); [lra |].
  destruct (Rle_dec (0 + 500) 500); [| lra].
  destruct (Rle_dec (500 + 500) 516); [lra |].
  destruct (Rle_dec (500 + 500) 1000); [| lra]. lia.
Defined.

End Shuffle.

(** ** The keyboard *)
Module Keyboard.
Import JS Three Cube Grid Moves NumberFacts GuardFacts WholeCubeGuard.
Local Open Scope R_scope.

Lemma onKeyboardRotation_cases now key w :
((key ∉ rotationKeys) /\ onKeyboardRotation now key w = w)
  \/ (key ∈ rotationKeys
      /\ exists axis direction,
           axis <> Z
           /\ onKeyboardRotation now key w
              = rotateCube now axis direction (Finite 500) w).
Proof.
  unfold onKeyboardRotation, rotationKeys, defaultDuration.
  repeat match goal with
    | |- context [String.eqb key ?k] =>
        destruct (String.eqb_spec key k) as [-> | ?]
    end; cbn [orb];
    try (right; split;
         [ repeat (first [left | right; left | right])
         | first [ exists X, clockwise; split; [discriminate | reflexivity]
                 | exists X, counterclockwise; split; [discriminate | reflexivity]
                 | exists Y, clockwise; split; [discriminate | reflexivity]
                 | exists Y, counterclockwise;
                   split; [discriminate | reflexivity] ] ]; fail).
  left. split; [| reflexivity].
  rewrite !elem_of_cons, elem_of_nil. intuition congruence.
Qed.

Lemma rotateCube_started now axis direction duration w :
  isRotating (cube w) = false ->
  let w' := rotateCube now axis direction duration w in
  isRotating (cube w') = true
  /\ length (frameRequests w') = S (length (frameRequests w))
  /\ children (cube w') = children (cube w).
Proof.
  intros Hfree. unfold rotateCube. rewrite Hfree. cbv zeta.
  cbn [animateCubeRotation Clock_start requestAnimationFrame cube
       frameRequests]. rewrite length_app. cbn. repeat split. lia.
Qed.

Lemma pressed_cons now key presses w :
  pressed ((now, key) :: presses) w
  = pressed presses (onKeyboardRotation now key w).
Proof. reflexivity. Qed.

Lemma pressed_busy presses w :
  isRotating (cube w) = true -> pressed presses w = w.
Proof.
  intros Hbusy.
  induction presses as [| [now key] presses IH]; [reflexivity |].
  rewrite pressed_cons.
  destruct (onKeyboardRotation_cases now key w)
    as [[_ ->] | (_ & axis & direction & _ & ->)]; [exact IH |].
  rewrite guard_closed by assumption. exact IH.
Qed.

(** X24.  The keyboard.  A key that is not one of the twelve keys of
    [onKeyboardRotation] changes nothing; one of the twelve calls
    [rotateCube] with the duration 500 about the x-axis or the y-axis,
    never the z-axis.  No key moves a piece by itself.  While [isRotating]
    is true every key is dropped, so that however many keys are pressed
    between two frames, at most one whole-cube animation is started. *)
Theorem keyboard_rotation (now : number) (key : string)
    (presses : list (number * string)) (w : Browser) :
  ((key ∉ rotationKeys) -> onKeyboardRotation now key w = w)
  /\ (key ∈ rotationKeys ->
      exists axis direction,
        axis <> Z
        /\ onKeyboardRotation now key w
           = rotateCube now axis direction (Finite 500) w)
  /\ children (cube (onKeyboardRotation now key w)) = children (cube w)
  /\ (isRotating (cube w) = true -> pressed presses w = w)
  /\ (length (frameRequests (pressed presses w))
      <= S (length (frameRequests w)))%nat
  /\ children (cube (pressed presses w)) = children (cube w).
Proof.
  assert (forall now key w,
            children (cube (onKeyboardRotation now key w))
            = children (cube w)) as Hchildren.
  { intros now' key' w'.
    destruct (onKeyboardRotation_cases now' key' w')
      as [[_ ->] | (_ & axis & direction & _ & ->)]; [reflexivity |].
    destruct (isRotating (cube w')) eqn:Hr.
    - rewrite guard_closed by assumption. reflexivity.
    - apply rotateCube_started, Hr. }
  split; [| split; [| split; [| split; [| split]]]].
  - intros Hkey.
    destruct (onKeyboardRotation_cases now key w) as [[_ H] | [Hin _]];
      [exact H | contradiction].
  - intros Hkey.
    destruct (onKeyboardRotation_cases now key w) as [[Hnin _] | [_ H]];
      [contradiction | exact H].
  - apply Hchildren.
  - apply pressed_busy.
  - revert w. induction presses as [| [now' key'] presses IH]; intros w;
      [cbn; lia |].
    rewrite pressed_cons.
    destruct (onKeyboardRotation_cases now' key' w)
      as [[_ ->] | (_ & axis & direction & _ & ->)]; [apply IH |].
    destruct (isRotating (cube w)) eqn:Hr.
    + rewrite guard_closed by assumption. apply IH.
    + destruct (rotateCube_started now' axis direction (Finite 500) w Hr)
        as (Hbusy & Hlen & _).
      rewrite pressed_busy by exact Hbusy. lia.
  - revert w. induction presses as [| [now' key'] presses IH]; intros w;
      [reflexivity |].
    rewrite pressed_cons, IH. apply Hchildren.
Qed.

Lemma keyboard_rotation_witness :
  let w := browser RubiksCube_new [] in
  onKeyboardRotation (Finite 0) "q" w = w.
Proof.
  intros w.
  apply (proj1 (keyboard_rotation (Finite 0) "q" [] w)).
  unfold rotationKeys. rewrite !elem_of_cons, elem_of_nil.
  intuition discriminate.
Defined.

End Keyboard.

(** ** The errors the handlers can raise *)
Module Reachability.
Import JS Three Cube Grid Moves NumberFacts DragFacts AnimationFacts
  GuardFacts WholeCubeGuard LayerTurns Keyboard.
Local Open Scope R_scope.

Lemma crossed_same this this' :
  selectedFace this' = selectedFace this ->
  rotationAxis this' = rotationAxis this ->
  crossed this -> crossed this'.
Proof. intros Hf Ha Hc axis. rewrite Hf, Ha. apply Hc. Qed.

Lemma crossed_animateSection axis sec targetAngle duration elapsed this :
  crossed this ->
  crossed (fst (animateSection axis sec targetAngle duration elapsed this)).
Proof.
  apply crossed_same; rewrite animateSection_unfold; cbv zeta;
    rewrite applyRotation_fields;
    destruct (progressOf duration elapsed <? Finite 1)%js; reflexivity.
Qed.

Lemma crossed_animateCube axis targetAngle duration elapsed this :
  crossed this ->
  crossed (fst (animateCube axis targetAngle duration elapsed this)).
Proof.
  apply crossed_same; rewrite animateCube_unfold; cbv zeta;
    destruct (progressOf duration elapsed <? Finite 1)%js; reflexivity.
Qed.

Lemma crossed_runFrame pick now f w :
  crossed (cube w) -> crossed (cube (runFrame pick now f w)).
Proof.
  intros Hc. destruct f as [c st axis sec ta d cb | c st axis ta d].
  - rewrite runFrame_section. cbv zeta.
    pose proof (crossed_animateSection axis sec ta d
                  (snd (Clock_getElapsedTime now c) - st)%js (cube w) Hc)
      as Hc'.
    destruct (snd (animateSection axis sec ta d
                     (snd (Clock_getElapsedTime now c) - st)%js (cube w)));
      [exact Hc' |].
    destruct cb as [[k turns] |]; [| exact Hc'].
    rewrite cube_shuffleTurn. exact Hc'.
  - rewrite runFrame_cube. cbv zeta.
    pose proof (crossed_animateCube axis ta d
                  (snd (Clock_getElapsedTime now c) - st)%js (cube w) Hc)
      as Hc'.
    destruct (snd (animateCube axis ta d
                     (snd (Clock_getElapsedTime now c) - st)%js (cube w)));
      exact Hc'.
Qed.

Lemma crossed_animationFrame pick now w :
  crossed (cube w) -> crossed (cube (animationFrame pick now w)).
Proof.
  intros Hc. unfold animationFrame.
  assert (crossed (cube (browser (cube w) []))) as H0 by exact Hc.
  revert H0. generalize (browser (cube w) []).
  induction (frameRequests w) as [| f fs IH]; intros w0 H0; [exact H0 |].
  cbn [foldl]. apply IH, crossed_runFrame, H0.
Qed.

Lemma crossed_rotateCube now axis direction duration w :
  crossed (cube w) -> crossed (cube (rotateCube now axis direction duration w)).
Proof.
  intros Hc. unfold rotateCube. destruct (isRotating (cube w)); exact Hc.
Qed.

Lemma crossed_onMouseMove win event this :
  crossed this -> crossed (dispatch (onMouseMove win event) this).
Proof.
  intros Hc. unfold dispatch, onMouseMove.
  destruct (isDragging this); [| exact Hc].
  destruct (initialIntersect this) as [hit |]; [| exact Hc].
  destruct (start_x (dragStart this)) as [startX |]; [| exact Hc].
  destruct (start_y (dragStart this)) as [startY |]; [| exact Hc].
  cbv zeta.
  destruct (_ || _)%bool; [exact Hc |].
  assert (forall horizontal : bool,
            let this1 := set_rotationAngle (Some (Finite 0)) this in
            let this2 :=
              if nonzero (vx <$> normal hit)
              then set_selectedFace (Some X)
                     (set_rotationAxis (Some (if horizontal then Y else Z))
                        this1)
              else this1 in
            let this3 :=
              if nonzero (vy <$> normal hit)
              then set_selectedFace (Some Y)
                     (set_rotationAxis (Some (if horizontal then Z else X))
                        this2)
              else this2 in
            let this4 :=
              if nonzero (vz <$> normal hit)
              then set_selectedFace (Some Z)
                     (set_rotationAxis (Some (if horizontal then Y else X))
                        this3)
              else this3 in
            crossed
              (match
                 match rotationAxis this4 with
                 | Some axis =>
                     Return (set_rotationSection
                               (Some (getSection (component (point hit) axis)))
                               this4)
                 | None => Return this4
                 end
               with
               | Return this' => this'
               | Throw _ => this
               end)) as Hresolve.
  { intros horizontal. cbv zeta.
    destruct (nonzero (vx <$> normal hit)), (nonzero (vy <$> normal hit)),
      (nonzero (vz <$> normal hit)), horizontal;
      cbn [rotationAxis set_selectedFace set_rotationAxis set_rotationAngle];
      try (intros axis Hax; cbn in Hax; injection Hax as <-;
           eexists; split; [reflexivity | discriminate]).
    all: destruct (rotationAxis this) as [axis0 |] eqn:Hax0;
      [| intros axis Hax; cbn in Hax; congruence].
    all: intros axis Hax; cbn in Hax |- *; rewrite Hax0 in Hax;
      apply Hc; congruence. }
  destruct (rotationAxis this) as [axis |] eqn:Hax; [| apply Hresolve].
  destruct (rotationSection this) as [sec |] eqn:Hsec; [| apply Hresolve].
  destruct (rotationAngle this) as [angle0 |] eqn:Hang; [| apply Hresolve].
  unfold setRotation. rewrite Hang.
  destruct (getRotationAngle win _ _ this) as [angle | err]; cbn [bind];
    [| exact Hc].
  revert Hc. apply crossed_same; rewrite applyRotation_fields; reflexivity.
Qed.

Lemma crossed_input pick w i :
  crossed (cube w) -> crossed (cube (input pick w i)).
Proof.
  intros Hc. destruct i; cbn [input cube].
  - revert Hc. apply crossed_same; destruct intersects; reflexivity.
  - apply crossed_onMouseMove, Hc.
  - intros axis Hax. unfold onMouseUp in Hax. cbn in Hax. discriminate.
  - destruct (onKeyboardRotation_cases now key w)
      as [[_ ->] | (_ & axis & direction & _ & ->)]; [exact Hc |].
    apply crossed_rotateCube, Hc.
  - exact Hc.
  - apply crossed_rotateCube, Hc.
  - unfold shuffle. rewrite cube_shuffleTurn. exact Hc.
  - apply crossed_animationFrame, Hc.
Qed.

Lemma crossed_throws win event this e :
  crossed this -> onMouseMove win event this = Throw e ->
  e = UnableToDetermineAngle.
Proof.
  intros Hc. unfold onMouseMove.
  destruct (isDragging this); [| discriminate].
  destruct (initialIntersect this) as [hit |]; [| discriminate].
  destruct (start_x (dragStart this)) as [startX |]; [| discriminate].
  destruct (start_y (dragStart this)) as [startY |]; [| discriminate].
  cbv zeta.
  destruct (_ || _)%bool; [discriminate |].
  assert (forall this4 : RubiksCube,
            match rotationAxis this4 with
            | Some axis =>
                Return (set_rotationSection
                          (Some (getSection (component (point hit) axis)))
                          this4)
            | None => Return this4
            end = Throw e -> e = UnableToDetermineAngle) as Hresolve.
  { intros this4. destruct (rotationAxis this4); discriminate. }
  destruct (rotationAxis this) as [axis |] eqn:Hax; [| apply Hresolve].
  destruct (rotationSection this) as [sec |] eqn:Hsec; [| apply Hresolve].
  destruct (rotationAngle this) as [angle0 |] eqn:Hang; [| apply Hresolve].
  unfold setRotation. rewrite Hang.
  destruct (Hc axis Hax) as (face & Hface & Hne).
  rewrite (getRotationAngle_valid _ _ _ _ _ _ Hface Hax Hne).
  destruct (_ || _ || _)%bool; cbn [bind]; [| discriminate].
  intros H. injection H as <-. reflexivity.
Qed.

(** X25.  The two usage errors cannot be reached through the handlers.
    From a state in which a resolved rotation axis always comes with a
    selected face of another axis, as in the state the constructor leaves,
    whatever events, calls of [rotate], [rotateCube] and [shuffle] and
    animation frames follow, this still holds, and the only error a mouse
    move can throw is 'Unable to determine angle': never 'Rotation cannot
    be set without rotation angle being set', never 'The selected face and
    rotation axis should not be the same'. *)
Theorem usage_errors_unreachable (pick : nat -> Axis * section * Direction)
    (inputs : list Input) (win : Window) (event : MouseEvent)
    (w0 : Browser) :
  crossed (cube w0) ->
  let w := foldl (input pick) w0 inputs in
  crossed (cube w)
  /\ forall e, onMouseMove win event (cube w) = Throw e ->
               e = UnableToDetermineAngle.
Proof.
  intros Hc w.
  assert (crossed (cube w)) as Hw.
  { unfold w. clear w. revert w0 Hc.
    induction inputs as [| i inputs IH]; intros w0 Hc; [exact Hc |].
    cbn [foldl]. apply IH, crossed_input, Hc. }
  split; [exact Hw |]. intros e. apply crossed_throws, Hw.
Qed.

Lemma usage_errors_unreachable_witness :
  let hit := intersection (fvec 1.5 0.2 0.3) (Some (fvec 1 0 0)) in
  let win := window (Finite 800) (Finite 600) in
  let w :=
    foldl (input (fun _ => (X, Sec0, clockwise))) (browser RubiksCube_new [])
      [MouseDown (mouseEvent 0 100) [hit];
       MouseMove win (mouseEvent 30 112)] in
  onMouseMove win (mouseEvent 40 115) (cube w) <> Throw RotationAngleNotSet
  /\ onMouseMove win (mouseEvent 40 115) (cube w)
     <> Throw (SameFaceAndAxis (Some X) (Some X)).
Proof.
  intros hit win w.
  destruct (usage_errors_unreachable (fun _ => (X, Sec0, clockwise))
              [MouseDown (mouseEvent 0 100) [hit];
               MouseMove win (mouseEvent 30 112)]
              win (mouseEvent 40 115) (browser RubiksCube_new []))
    as [_ Honly].
  - intros axis Hax. discriminate.
  - split; intros H; apply Honly in H; discriminate.
Defined.

End Reachability.

(** ** Pieces at NaN *)
Module NotANumber.
Import JS Three Cube Grid Moves NumberFacts BoxFacts StoreFacts Sections
  LayerTurns GridInvariant.
Local Open Scope R_scope.

Lemma add_NaN_r (x : number) : (x + NaN)%js = NaN.
Proof. destruct x; reflexivity. Qed.

Lemma sub_NaN_r (x : number) : (x - NaN)%js = NaN.
Proof. destruct x; reflexivity. Qed.

Lemma mul_NaN_r (x : number) : (x * NaN)%js = NaN.
Proof. destruct x; reflexivity. Qed.

Lemma Math_min_NaN_r (x : number) : Math_min x NaN = NaN.
Proof. destruct x; reflexivity. Qed.

Lemma Math_max_NaN_r (x : number) : Math_max x NaN = NaN.
Proof. destruct x; reflexivity. Qed.

Lemma box_of_NaN (c : Object3D) :
  position c = vec3 NaN NaN NaN ->
  Box3_applyMatrix4 pieceGeometryBox c
  = box3 (vec3 NaN NaN NaN) (vec3 NaN NaN NaN).
Proof.
  intros Hp. rewrite pieceGeometryBox_eq.
  unfold Box3_applyMatrix4, Box3_isEmpty.
  cbn [bmin bmax fvec vx vy vz]. rewrite !ltb_ge by lra. cbn [orb].
  cbn [map]. unfold toWorld, Vector3_add. rewrite Hp. cbn [vx vy vz].
  rewrite !add_NaN_r. reflexivity.
Qed.

Lemma union_NaN_r (b : Box3) :
  Box3_union b (box3 (vec3 NaN NaN NaN) (vec3 NaN NaN NaN))
  = box3 (vec3 NaN NaN NaN) (vec3 NaN NaN NaN).
Proof.
  unfold Box3_union, Vector3_min, Vector3_max. cbn [bmin bmax vx vy vz].
  rewrite !Math_min_NaN_r, !Math_max_NaN_r. reflexivity.
Qed.

Lemma expand_from_NaN (cs : list Object3D) :
  foldl (Box3_expandByObject pieceGeometryBox)
    (box3 (vec3 NaN NaN NaN) (vec3 NaN NaN NaN)) cs
  = box3 (vec3 NaN NaN NaN) (vec3 NaN NaN NaN).
Proof.
  induction cs as [| c cs IH]; [reflexivity |]. cbn [foldl].
  assert (Box3_expandByObject pieceGeometryBox
            (box3 (vec3 NaN NaN NaN) (vec3 NaN NaN NaN)) c
          = box3 (vec3 NaN NaN NaN) (vec3 NaN NaN NaN)) as ->; [| exact IH].
  unfold Box3_expandByObject, Box3_union, Vector3_min, Vector3_max.
  cbn [bmin bmax vx vy vz]. reflexivity.
Qed.

Lemma expand_with_NaN (cs : list Object3D) (b : Box3) (c : Object3D) :
  c ∈ cs -> position c = vec3 NaN NaN NaN ->
  foldl (Box3_expandByObject pieceGeometryBox) b cs
  = box3 (vec3 NaN NaN NaN) (vec3 NaN NaN NaN).
Proof.
  intros Hin Hp. revert b.
  induction cs as [| c0 cs IH]; intros b; [inversion Hin |].
  cbn [foldl]. apply elem_of_cons in Hin as [<- | Hin]; [| apply IH, Hin].
  unfold Box3_expandByObject at 2. rewrite (box_of_NaN c Hp), union_NaN_r.
  apply expand_from_NaN.
Qed.

Lemma rotateAroundPivot_NaN_pivot axis angle c :
  position (rotateAroundPivot (vec3 NaN NaN NaN) axis angle c)
  = vec3 NaN NaN NaN.
Proof.
  unfold rotateAroundPivot, applyMatrix4, Matrix_apply, Vector3_add,
    Vector3_sub. cbn [position orientation vx vy vz].
  rewrite !add_NaN_r. reflexivity.
Qed.

(** X26.  NaN does not go away.  In any state, a child whose position is
    (NaN, NaN, NaN), as the tick of a zero-duration animation at the
    elapsed time 0 leaves them, is in no section: [applyRotation] leaves
    it as it is, whatever the axis, the section and the angle; and
    [rotateEntireCube] then puts every child at (NaN, NaN, NaN), because
    the box of the cube, and with it the pivot, is NaN. *)
Theorem NaN_stays (axis : Axis) (sec : section) (angle : number)
    (this : RubiksCube) (i : nat) (c : Object3D) :
  children this !! i = Some c -> position c = vec3 NaN NaN NaN ->
  (forall axis' sec', i ∉ getSectionCubes this axis' sec')
  /\ children (applyRotation axis sec angle this) !! i = Some c
  /\ forall c', c' ∈ children (rotateEntireCube axis angle this) ->
                position c' = vec3 NaN NaN NaN.
Proof.
  intros Hl Hp.
  assert (forall axis' sec', isInSection (position c) axis' sec' = false)
    as Hout.
  { intros axis' sec'. apply isInSection_NaN. rewrite Hp.
    destruct axis'; reflexivity. }
  split; [| split].
  - intros axis' sec' Hin.
    apply elem_of_getSectionCubes_iff in Hin as (c0 & Hl0 & Hs).
    rewrite Hl in Hl0. injection Hl0 as <-. rewrite Hout in Hs.
    discriminate.
  - unfold applyRotation. cbv zeta.
    destruct (Nat.eqb (length (getSectionCubes this axis sec)) 0);
      [exact Hl |].
    rewrite children_rotate_section, list_lookup_fmap, Hl.
    cbn [fmap option_fmap option_map]. rewrite Hout. reflexivity.
  - intros c' Hc'. unfold rotateEntireCube in Hc'. cbv zeta in Hc'.
    rewrite children_rotate_all, expandByCubes_all in Hc'.
    rewrite (expand_with_NaN (children this) Box3_new c) in Hc';
      [| eapply list_elem_of_lookup_2, Hl | exact Hp].
    assert (Box3_getCenter (box3 (vec3 NaN NaN NaN) (vec3 NaN NaN NaN))
            = vec3 NaN NaN NaN) as Hcenter by reflexivity.
    rewrite Hcenter in Hc'.
    apply list_elem_of_fmap in Hc' as (c0 & -> & _).
    apply rotateAroundPivot_NaN_pivot.
Qed.

Lemma NaN_stays_witness :
  exists c,
    children (applyRotation Y Sec1 NaN RubiksCube_new) !! 3%nat = Some c
    /\ children
         (applyRotation X Sec0 (Finite 1)
            (applyRotation Y Sec1 NaN RubiksCube_new)) !! 3%nat
       = Some c.
Proof.
  destruct applyRotation_NaN_new as (c & Hl & Hp).
  exists c. split; [exact Hl |].
  exact (proj1 (proj2 (NaN_stays X Sec0 (Finite 1)
                         (applyRotation Y Sec1 NaN RubiksCube_new) 3 c
                         Hl Hp))).
Defined.

End NotANumber.

(** ** Rotations that leave the grid *)
Module OffGrid.
Import JS Three Cube Grid Moves NumberFacts TurnFacts BoxFacts AlignFacts
  GridFacts StoreFacts StepFacts QuarterFacts AnimationFacts ZeroDuration
  GuardFacts WholeCubeGuard Layers RunFacts FrameFacts GridInvariant Easing
  Rigid WholeByLayers.
Local Open Scope R_scope.

(** a piece one of whose coordinates is not a grid coordinate *)
Lemma not_on_grid_coord cs i x y z m :
  cs !! i = Some (fobj x y z m) -> ~ (coord x /\ coord y /\ coord z) ->
  ~ on_grid cs.
Proof.
  intros Hl Hoff Hg. unfold on_grid in Hg.
  assert (fvec x y z ∈ grid) as Hin.
  { rewrite <- Hg. apply list_elem_of_fmap. exists (fobj x y z m).
    split; [reflexivity |]. eapply list_elem_of_lookup_2, Hl. }
  apply elem_of_grid in Hin as (x' & y' & z' & Heq & Hx & Hy & Hz).
  injection Heq as -> -> ->. tauto.
Qed.

Lemma cos_strictly_between t : 0 < t < PI / 2 -> 0 < cos t < 1.
Proof.
  intros [H0 H1]. pose proof PI_RGT_0 as Hpi.
  pose proof (cos_gt_0 t ltac:(lra) H1) as Hc.
  pose proof (sin_gt_0 t H0 ltac:(lra)) as Hs.
  pose proof (sin2_cos2 t) as H2. unfold Rsqr in H2. split; [exact Hc | nra].
Qed.

(** a piece at y = 1, z = 0 turned about the x-axis by an angle strictly
    between 0 and a quarter turn is off the grid *)
Lemma turned_X_off_grid cs i x t m :
  0 < t < PI / 2 ->
  cs !! i = Some (turn X t (fobj x (1 * 1) (0 * 1) m)) -> ~ on_grid cs.
Proof.
  intros Ht Hl. rewrite turn_fobj in Hl.
  apply (not_on_grid_coord _ _ _ _ _ _ Hl).
  intros (_ & Hy & _). cbv [turnedY] in Hy.
  pose proof (cos_strictly_between t Ht). unfold coord in Hy. lra.
Qed.

Lemma applyRotation_outside axis sec angle this i c :
  children this !! i = Some c -> isInSection (position c) axis sec = false ->
  children (applyRotation axis sec angle this) !! i = Some c.
Proof.
  intros Hl Hout. unfold applyRotation. cbv zeta.
  destruct (Nat.eqb _ 0); [exact Hl |].
  rewrite children_rotate_section, list_lookup_fmap, Hl.
  cbn [fmap option_fmap option_map]. rewrite Hout. reflexivity.
Qed.

Lemma lookup_turned sel axis t cs i c :
  cs !! i = Some c ->
  turned sel axis t cs !! i = Some (if sel c then turn axis t c else c).
Proof.
  intros Hl. unfold turned. rewrite list_lookup_fmap, Hl. reflexivity.
Qed.

Lemma ticking_half : ticking 500 0.5.
Proof. left. lra. Qed.

Lemma tick_at_the_end :
  timed 500 0.5
  /\ (progressOf (Finite 500) (Finite 0.5) <? Finite 1)%js = false.
Proof.
  assert (timed 500 0.5) as Ht by (left; lra).
  split; [exact Ht | apply progress_reached; [exact Ht | lra]].
Qed.

(** *** A tracked angle *)

(** A layer rotation that starts while an angle is tracked turns the layer
    by the target angle less that angle. *)
Lemma tracked_angle_leaves_the_grid :
  let r := playSection X Sec2 (targetAngleOf clockwise) (Finite 500)
             [Finite 0.5] trackingCube in
  solid (children trackingCube) /\ snd r = false
  /\ ~ on_grid (children (fst r)).
Proof.
  cbv zeta. split; [exact initCube_solid |].
  destruct tick_at_the_end as [Ht Hend].
  cbn [playSection]. rewrite animateSection_unfold, Hend. cbv zeta.
  rewrite targetAngleOf_finite, (currentAngleOf_done _ _ _ Ht Hend).
  cbn [fst snd]. split; [reflexivity |].
  cbn [trackingCube rotationAngle set_rotationAngle orZero_nullish RubiksCube_new
       add sub neg children set_isRotating set_children].
  pose proof (applyRotation_turned X Sec2 0 (0 + PI / 2 + - (1)) initCube
                trackingCube initCube_solid) as Hstep.
  rewrite Hstep
    by (symmetry; exact (turned_zero (sectionTest Sec2) X _ initCube_solid)).
  apply (turned_X_off_grid _ 25%nat (1 * 1) (0 + (0 + PI / 2 + - (1)))
           RMatrix_identity).
  - pose proof PI2_1. lra.
  - rewrite (lookup_turned _ _ _ _ 25%nat
               (fobj (1 * 1) (1 * 1) (0 * 1) RMatrix_identity))
      by reflexivity.
    assert (inLayer X Sec2 (fobj (1 * 1) (1 * 1) (0 * 1) RMatrix_identity)
            = true) as ->; [| reflexivity].
    apply ltb_lt. lra.
Qed.

(** *** A tilted piece *)

Lemma tiltedCube_on_grid : on_grid (children tiltedCube).
Proof.
  unfold on_grid.
  change (position <$> children tiltedCube) with (position <$> initCube).
  apply initCube_solid.
Qed.

Lemma filter_none {A} (f : A -> bool) (l : list A) :
  Forall (fun x => f x = false) l -> List.filter f l = [].
Proof.
  induction 1 as [| x l Hx _ IH]; [reflexivity |].
  cbn [List.filter]. rewrite Hx. exact IH.
Qed.

Lemma filter_every {A} (f : A -> bool) (l : list A) :
  Forall (fun x => f x = true) l -> List.filter f l = l.
Proof.
  induction 1 as [| x l Hx _ IH]; [reflexivity |].
  cbn [List.filter]. rewrite Hx, IH. reflexivity.
Qed.

Ltac pieces :=
  cbv [tiltedCube children set_children RubiksCube_new alter list_alter
       initCube range3 mbind list_bind app RubiksPiece_at size mul take drop
       fmap list_fmap].

(** the layer x = 1 of the tilted cube: its last nine children *)
Lemma tiltedCube_layer :
  List.filter (fun c => isInSection (position c) X Sec2) (children tiltedCube)
  = drop 18 (children tiltedCube).
Proof.
  rewrite <- (take_drop 18 (children tiltedCube)) at 1.
  rewrite List.filter_app, filter_none, filter_every; [reflexivity | |].
  - pieces.
    repeat (apply Forall_cons; split; [apply ltb_lt; cbn; lra |]).
    constructor.
  - pieces.
    repeat (apply Forall_cons; split; [apply ltb_ge; cbn; lra |]).
    constructor.
Qed.

Lemma tilted_half :
  halfWidth tilted = 1 / 2 /\ halfHeight tilted = 7 / 10
  /\ halfDepth tilted = 7 / 10.
Proof.
  unfold halfWidth, halfHeight, halfDepth, tilted.
  cbn [r11 r12 r13 r21 r22 r23 r31 r32 r33].
  rewrite Rabs_R0, Rabs_R1, Rabs_Ropp, !Rabs_right by lra. lra.
Qed.

Lemma identity_half :
  halfWidth RMatrix_identity = 1 / 2 /\ halfHeight RMatrix_identity = 1 / 2
  /\ halfDepth RMatrix_identity = 1 / 2.
Proof.
  unfold halfWidth, halfHeight, halfDepth, RMatrix_identity.
  cbn [r11 r12 r13 r21 r22 r23 r31 r32 r33].
  rewrite Rabs_R0, Rabs_R1. lra.
Qed.

(** the box of the tilted piece reaches y = 1.7 while the box of the layer
    starts at y = -1.5: the pivot of the layer is off the x-axis *)
Lemma tiltedCube_pivot :
  calculateGroupCenter tiltedCube (getSectionCubes tiltedCube X Sec2)
  = fvec 1 (1 / 10) 0.
Proof.
  rewrite calculateGroupCenter_section, tiltedCube_layer.
  assert (drop 18 (children tiltedCube)
          = [fobj (1 * 1) (-1 * 1) (-1 * 1) RMatrix_identity;
             fobj (1 * 1) (-1 * 1) (0 * 1) RMatrix_identity;
             fobj (1 * 1) (-1 * 1) (1 * 1) RMatrix_identity;
             fobj (1 * 1) (0 * 1) (-1 * 1) RMatrix_identity;
             fobj (1 * 1) (0 * 1) (0 * 1) RMatrix_identity;
             fobj (1 * 1) (0 * 1) (1 * 1) RMatrix_identity;
             fobj (1 * 1) (1 * 1) (-1 * 1) RMatrix_identity;
             fobj (1 * 1) (1 * 1) (0 * 1) tilted;
             fobj (1 * 1) (1 * 1) (1 * 1) RMatrix_identity]) as ->
      by reflexivity.
  rewrite group_center
    by (try apply finite_fobj; repeat (constructor; [apply finite_fobj |]);
        constructor).
  destruct tilted_half as (Hw & Hh & Hd).
  destruct identity_half as (Iw & Ih & Id).
  cbn [fmap list_fmap foldl].
  unfold loX, hiX, loY, hiY, loZ, hiZ, posX, posY, posZ.
  cbn [fobj fvec position orientation vx vy vz real].
  rewrite !rmatOf_fmat, Hw, Hh, Hd, Iw, Ih, Id.
  repeat match goal with
    | |- context [Rmin ?a ?b] =>
        first [ rewrite (Rmin_left a b) by lra
              | rewrite (Rmin_right a b) by lra ]
    | |- context [Rmax ?a ?b] =>
        first [ rewrite (Rmax_left a b) by lra
              | rewrite (Rmax_right a b) by lra ]
    end.
  unfold fvec. fields_eq; lra.
Qed.

(** A quarter turn of the layer x = 1 of the tilted cube takes the piece
    at (1, -1, -1) to (1, 1.1, -1.1). *)
Lemma tilted_piece_leaves_the_grid :
  let r := playSection X Sec2 (targetAngleOf clockwise) (Finite 500)
             [Finite 0.5] tiltedCube in
  on_grid (children tiltedCube) /\ idle tiltedCube
  /\ snd r = false
  /\ children (fst r) !! 18%nat
     = Some (fobj (1 * 1) (11 / 10) (- (11 / 10))
               (RMatrix_mul (rotation X (PI / 2)) RMatrix_identity)).
Proof.
  cbv zeta. split; [exact tiltedCube_on_grid |]. split; [repeat split |].
  destruct tick_at_the_end as [Ht Hend].
  cbn [playSection]. rewrite animateSection_unfold, Hend. cbv zeta.
  rewrite targetAngleOf_finite, (currentAngleOf_done _ _ _ Ht Hend).
  cbn [fst snd]. split; [reflexivity |].
  cbn [children set_rotationAngle set_isRotating].
  assert (orZero_nullish (rotationAngle tiltedCube) = Finite 0) as ->
      by reflexivity.
  cbn [add sub neg]. replace (0 + PI / 2 + - 0) with (PI / 2) by lra.
  unfold applyRotation. cbv zeta.
  rewrite (getSectionCubes_count tiltedCube X Sec2 tiltedCube_on_grid).
  cbn [Nat.eqb]. unfold createPivot.
  rewrite children_rotate_section, tiltedCube_pivot, list_lookup_fmap.
  assert (children tiltedCube !! 18%nat
          = Some (fobj (1 * 1) (-1 * 1) (-1 * 1) RMatrix_identity)) as ->
      by reflexivity.
  cbn [fmap option_fmap option_map].
  assert (isInSection
            (position (fobj (1 * 1) (-1 * 1) (-1 * 1) RMatrix_identity))
            X Sec2 = true) as -> by (apply ltb_lt; cbn; lra).
  rewrite rotateAroundPivot_finite. cbv [turnedX turnedY turnedZ].
  rewrite cos_PI2, sin_PI2. unfold fobj, fvec. do 2 f_equal.
  fields_eq; lra.
Qed.

(** *** Two rotations at once *)

(** half way through an animation the angle is half the target *)
Lemma currentAngleOf_half target d :
  0 < d ->
  currentAngleOf (Finite target) (Finite d) (Finite (d / 2000))
  = Finite (target / 2)
  /\ (progressOf (Finite d) (Finite (d / 2000)) <? Finite 1)%js = true.
Proof.
  intros Hd.
  assert (progressOf (Finite d) (Finite (d / 2000)) = Finite 0.5) as Hp.
  { rewrite progressOf_positive by assumption. f_equal.
    assert (d / 2000 / (d / 1000) = 1 / 2) as -> by (field; lra).
    unfold Rmin. destruct (Rle_dec (1 / 2) 1); lra. }
  unfold currentAngleOf. rewrite Hp. split; [| apply ltb_lt; lra].
  rewrite easeInOutCubic_high by lra. cbn [mul]. f_equal. lra.
Qed.

(** [rotate('x', 2, 'clockwise', 1000)] and [rotate('x', 0, 'clockwise')],
    both called on a new cube at the time 0, and the frames at 500 and at
    1000.  At 500 the first animation turns its layer by PI / 4 and tracks
    that angle; the second one ends, and turns its layer by the PI / 4 that
    is left of its target once the tracked angle is taken off, then resets
    the tracked angle.  At 1000 the first animation ends and turns its layer
    by a whole quarter turn more.  Both animations have ended; the layer
    x = -1 stands at PI / 4. *)
Lemma overlapping_rotations_leave_the_grid :
  let pick := fun _ : nat => (X, Sec0, clockwise) in
  let w0 := browser RubiksCube_new [] in
  let w1 := rotate (Finite 0) X Sec2 clockwise (Finite 1000) None w0 in
  let w2 := rotate (Finite 0) X Sec0 clockwise (Finite 500) None w1 in
  let w3 := animationFrame pick (Finite 500) w2 in
  let w4 := animationFrame pick (Finite 1000) w3 in
  cube w2 = RubiksCube_new
  /\ frameRequests w4 = []
  /\ children (cube w4) !! 7%nat
     = Some (turn X (PI / 4) (fobj (-1 * 1) (1 * 1) (0 * 1) RMatrix_identity)).
Proof.
  intros pick w0 w1 w2 w3 w4. split; [reflexivity |].
  assert (w2 = browser RubiksCube_new
                 [SectionFrame (clock (Finite 0) (Finite 0)) (Finite 0) X Sec2
                    (targetAngleOf clockwise) (Finite 1000) None;
                  SectionFrame (clock (Finite 0) (Finite 0)) (Finite 0) X Sec0
                    (targetAngleOf clockwise) (Finite 500) None]) as Hw2
      by reflexivity.
  destruct (currentAngleOf_half (PI / 2) 1000 ltac:(lra)) as [Ha Hrun].
  replace (1000 / 2000) with (0 + (500 - 0) / 1000 + - 0) in Ha, Hrun by lra.
  replace (PI / 2 / 2) with (PI / 4) in Ha by lra.
  assert (timed 500 (0 + (500 - 0) / 1000 + - 0)) as Ht by (left; lra).
  assert ((progressOf (Finite 500) (Finite (0 + (500 - 0) / 1000 + - 0))
           <? Finite 1)%js = false) as Hend
      by (apply progress_reached; [exact Ht | lra]).
  assert (exists this3,
            w3 = browser this3
                   [SectionFrame (clock (Finite 500)
                                    (Finite (0 + (500 - 0) / 1000)))
                      (Finite 0) X Sec2 (targetAngleOf clockwise)
                      (Finite 1000) None]
            /\ rotationAngle this3 = None
            /\ children this3
               = turned (selects (fun v => sectionTest Sec2 v
                                           || sectionTest Sec0 v) X)
                   X (PI / 4) initCube) as (this3 & Hw3 & Hang3 & Hc3).
  { unfold w3, animationFrame. rewrite Hw2. cbn [foldl cube frameRequests].
    set (this1 := set_rotationAngle (Some (Finite (0 + PI / 4)))
                    (applyRotation X Sec2 (Finite (0 + PI / 4 + - 0))
                       RubiksCube_new)).
    assert (runFrame pick (Finite 500)
              (SectionFrame (clock (Finite 0) (Finite 0)) (Finite 0) X Sec2
                 (targetAngleOf clockwise) (Finite 1000) None)
              (browser RubiksCube_new [])
            = browser this1
                [SectionFrame (clock (Finite 500)
                                 (Finite (0 + (500 - 0) / 1000)))
                   (Finite 0) X Sec2 (targetAngleOf clockwise)
                   (Finite 1000) None]) as ->.
    { rewrite runFrame_section. cbv zeta.
      rewrite Clock_getElapsedTime_finite. cbn [fst snd sub add neg cube].
      rewrite animateSection_unfold, targetAngleOf_finite, Ha, Hrun.
      reflexivity. }
    assert (children this1
            = turned (selects (sectionTest Sec2) X) X (PI / 4) initCube)
      as Hc1.
    { unfold this1. cbn [children set_rotationAngle].
      pose proof (applyRotation_turned X Sec2 0 (0 + PI / 4 + - 0) initCube
                    RubiksCube_new initCube_solid) as Hstep.
      rewrite Hstep
        by (symmetry;
            exact (turned_zero (sectionTest Sec2) X _ initCube_solid)).
      apply turned_ext. lra. }
    rewrite runFrame_section. cbv zeta.
    rewrite Clock_getElapsedTime_finite. cbn [fst snd sub add neg cube].
    rewrite animateSection_unfold, targetAngleOf_finite, Hend,
      (currentAngleOf_done _ _ _ Ht Hend). cbv zeta.
    cbn [fst snd frameRequests cube].
    eexists. split; [reflexivity |]. split; [reflexivity |].
    cbn [children set_rotationAngle set_isRotating].
    assert (orZero_nullish (rotationAngle this1) = Finite (0 + PI / 4)) as ->
        by reflexivity.
    cbn [add sub neg].
    replace (0 + PI / 2 + - (0 + PI / 4)) with (PI / 4) by lra.
    apply (applyRotation_mixed (sectionTest Sec2) X Sec0 (PI / 4) initCube
             this1 initCube_solid); [| exact Hc1].
    intros v Hv. destruct (sectionTest Sec0 v) eqn:H0; [| reflexivity].
    pose proof (sectionTest_disjoint Sec2 Sec0 v Hv H0). discriminate. }
  assert (timed 1000 (0 + (500 - 0) / 1000 + (1000 - 500) / 1000 + - 0))
    as Ht' by (left; lra).
  assert ((progressOf (Finite 1000)
             (Finite (0 + (500 - 0) / 1000 + (1000 - 500) / 1000 + - 0))
           <? Finite 1)%js = false) as Hend'
      by (apply progress_reached; [exact Ht' | lra]).
  unfold w4, animationFrame. rewrite Hw3. cbn [foldl cube frameRequests].
  rewrite runFrame_section. cbv zeta.
  rewrite Clock_getElapsedTime_finite. cbn [fst snd sub add neg cube].
  rewrite animateSection_unfold, Hend'. cbv zeta.
  cbn [fst snd frameRequests cube]. split; [reflexivity |].
  cbn [children set_rotationAngle set_isRotating].
  apply applyRotation_outside.
  - rewrite Hc3.
    rewrite (lookup_turned _ _ _ _ 7%nat
               (fobj (-1 * 1) (1 * 1) (0 * 1) RMatrix_identity))
      by reflexivity.
    assert (selects (fun v => sectionTest Sec2 v || sectionTest Sec0 v) X
              (fobj (-1 * 1) (1 * 1) (0 * 1) RMatrix_identity) = true) as ->;
      [| reflexivity].
    apply orb_true_iff. right. apply ltb_lt. lra.
  - rewrite turn_fobj. apply ltb_ge. cbv [turnedX]. lra.
Qed.

(** C1 as stated fails on states whose 27 positions are on the grid, in
    four ways.  (1) A layer rotation of duration 0 whose first tick reads
    the elapsed time 0 completes and leaves pieces at (NaN, NaN, NaN).
    (2) On a cube with a piece that is not axis-aligned the pivot of its
    layer is off the axis, and a completed quarter turn of the layer takes
    the pieces off the grid.  (3) A layer rotation that starts while an
    angle is tracked turns the layer by less than a quarter turn.  (4) Two
    layer rotations started together on a new cube, of different
    durations, have both completed after two frames, with the pieces of
    their layers off the grid. *)
Lemma rotations_leave_the_grid :
  (let r := playSection Y Sec1 (targetAngleOf clockwise) (Finite 0) [Finite 0]
              RubiksCube_new in
   solid (children RubiksCube_new) /\ rotationAngle RubiksCube_new = None
   /\ snd r = false /\ ~ on_grid (children (fst r)))
  /\ (let r := playSection X Sec2 (targetAngleOf clockwise) (Finite 500)
                 [Finite 0.5] tiltedCube in
      on_grid (children tiltedCube) /\ rotationAngle tiltedCube = None
      /\ ticking 500 0.5
      /\ snd r = false /\ ~ on_grid (children (fst r)))
  /\ (let r := playSection X Sec2 (targetAngleOf clockwise) (Finite 500)
                 [Finite 0.5] trackingCube in
      solid (children trackingCube) /\ ticking 500 0.5
      /\ snd r = false /\ ~ on_grid (children (fst r)))
  /\ (let pick := fun _ : nat => (X, Sec0, clockwise) in
      let w0 := browser RubiksCube_new [] in
      let w1 := rotate (Finite 0) X Sec2 clockwise (Finite 1000) None w0 in
      let w2 := rotate (Finite 0) X Sec0 clockwise (Finite 500) None w1 in
      let w3 := animationFrame pick (Finite 500) w2 in
      let w4 := animationFrame pick (Finite 1000) w3 in
      solid (children (cube w2)) /\ rotationAngle (cube w2) = None
      /\ frameRequests w4 = [] /\ ~ on_grid (children (cube w4))).
Proof.
  split; [| split; [| split]].
  - destruct zero_duration_leaves_the_grid as (_ & _ & Hend & Hoff).
    split; [exact initCube_solid |]. split; [reflexivity |].
    split; assumption.
  - destruct tilted_piece_leaves_the_grid as (Hg & _ & Hend & Hl).
    split; [exact Hg |]. split; [reflexivity |].
    split; [exact ticking_half |]. split; [exact Hend |].
    apply (not_on_grid_coord _ _ _ _ _ _ Hl).
    unfold coord. intros (_ & Hy & _). lra.
  - destruct tracked_angle_leaves_the_grid as (Hs & Hend & Hoff).
    split; [exact Hs |]. split; [exact ticking_half |]. split; assumption.
  - destruct overlapping_rotations_leave_the_grid as (Hc & Hq & Hl).
    cbv zeta. split; [exact initCube_solid |]. split; [reflexivity |].
    split; [exact Hq |].
    apply (turned_X_off_grid _ 7%nat (-1 * 1) (PI / 4) RMatrix_identity);
      [pose proof PI_RGT_0; lra | exact Hl].
Qed.

End OffGrid.
